(** * File Copier: a shallow embedding of the watch / stability / copy core

    The development follows the Python sources:
    - [src/file_handler.py]  (ProgressBar, copy_with_progress, FileHandler)
    - [src/utils.py]         (validate_folder_name, get_valid_folder_name,
                              is_path_accessible, sanitize_filename)
    - [src/file_monitor.py]  (FileMonitor)
    - [src/config.py]        (validate_config)
    - [file_copier.py]       (the older single-file version of the same logic)

    Python code is embedded as state-passing functions in a small monad
    with three outcomes (normal return, raised exception, non-termination).
    The operating system is an explicit [World]: regular files, directories,
    a wall clock, a script of injected system-call failures, the writes that
    other processes perform while this program sleeps, the operator's input
    lines, the watchdog observer threads, and the trace of every effect the
    program has performed so far. *)

From stdpp Require Import gmap strings list.
From Stdlib Require Import ZArith Ascii String.
From Stdlib Require Import Strings.Byte.

Open Scope string_scope.
Open Scope list_scope.

Set Warnings "-abstract-large-number".

(** ** Paths (pathlib.PurePath as its sequence of parts) *)

Definition path := list string.

(** [Path.name]: the final component, the empty string when there is none. *)
Definition name (p : path) : string := List.last p "".

(** [self.destination_dir / file_name] *)
Definition joinpath (d : path) (file_name : string) : path := d ++ [file_name].

Fixpoint str_path (p : path) : string :=
  match p with
  | [] => ""
  | c :: rest => "/" +:+ c +:+ str_path rest
  end.

(** [Path.parent] *)
Definition parent (p : path) : path := removelast p.

(** ** Exceptions *)

Inductive exn : Type :=
| OSError (msg : string)
| ZeroDivisionError
| KeyError (key : path)
| RuntimeError (msg : string)
| EOFError
| ValidationError (msg : string)
| ValueError (msg : string)
| KeyboardInterrupt.

(** [except Exception] catches every class but those deriving directly from
    BaseException. *)
Definition is_Exception (e : exn) : bool :=
  match e with
  | KeyboardInterrupt => false
  | _ => true
  end.

(** [str(e)] *)
Definition str_exn (e : exn) : string :=
  match e with
  | OSError msg => msg
  | ZeroDivisionError => "division by zero"
  | KeyError key => str_path key
  | RuntimeError msg => msg
  | EOFError => "EOF when reading a line"
  | ValidationError msg => msg
  | ValueError msg => msg
  | KeyboardInterrupt => ""
  end.

(** ** The monad of Python computations *)

Inductive outcome (A : Type) : Type :=
| Return (a : A)
| Raise (e : exn)
| Hang.
Arguments Return {A} a.
Arguments Raise {A} e.
Arguments Hang {A}.

Definition M (St A : Type) : Type := St -> outcome A * St.

Definition ret {St A} (a : A) : M St A := fun s => (Return a, s).

Definition bind {St A B} (m : M St A) (k : A -> M St B) : M St B :=
  fun s =>
    match m s with
    | (Return a, s') => k a s'
    | (Raise e, s') => (Raise e, s')
    | (Hang, s') => (Hang, s')
    end.

Definition raise {St A} (e : exn) : M St A := fun s => (Raise e, s).

Definition hang {St A} : M St A := fun s => (Hang, s).

Declare Scope py_scope.
Delimit Scope py_scope with py.
Notation "x <- m ;; k" := (bind m (fun x => k))
  (at level 100, m at next level, right associativity) : py_scope.
Notation "m ;;; k" := (bind m (fun _ => k))
  (at level 100, right associativity) : py_scope.
Open Scope py_scope.

(** [try: body  except Exception as e: handler e] *)
Definition try_except {St A} (body : M St A) (handler : exn -> M St A) : M St A :=
  fun s =>
    match body s with
    | (Raise e, s') => if is_Exception e then handler e s' else (Raise e, s')
    | other => other
    end.

(** [try: body  finally: cleanup].  An exception raised by the cleanup
    replaces the pending outcome of the body. *)
Definition try_finally {St A} (body : M St A) (cleanup : M St unit) : M St A :=
  fun s =>
    match body s with
    | (Hang, s') => (Hang, s')
    | (r, s') =>
        match cleanup s' with
        | (Return _, s'') => (r, s'')
        | (Raise e, s'') => (Raise e, s'')
        | (Hang, s'') => (Hang, s'')
        end
    end.

(** ** The world *)

Record file := mkFile {
  content : list byte;
  mtime : nat;
  mode : nat
}.

(** A watchdog observer is a thread. *)
Inductive thread_status := Created | Running | Stopping | Exited.

Record observer := mkObserver {
  status : thread_status;
  watches : list path
}.

(** Every effect the program performs is appended to the trace. *)
Inductive action : Type :=
| Sleep (ms : nat)
| Mkdir (d : path)
| Stat (p : path) (st_size : nat)
| GetSize (p : path) (size : nat)
| OpenRead (p : path)
| OpenWrite (p : path)
| Read (p : path) (n : nat)
| Write (p : path) (chunk : list byte)
| Close (p : path)
| CopyStat (src dst : path)
| Progress (current_size total_size : nat)
| Print (line : string)
| LogInfo (msg : string)
| LogError (msg : string)
| Input (prompt : string)
| SetAdd (p : path)
| SetRemove (p : path)
| ObserverNew (id : nat)
| ObserverSchedule (id : nat) (dir : path)
| ObserverStart (id : nat)
| ObserverStop (id : nat)
| ObserverJoin (id : nat).

Record World := mkWorld {
  files : gmap path file;
  dirs : gset path;
  clock : nat;                                      (* milliseconds since midnight *)
  faults : list (option exn);                       (* one entry per system call *)
  others : list (gmap path file -> gmap path file); (* one entry per sleep *)
  stdin : list string;
  observers : gmap nat observer;
  trace : list action
}.

Definition set_files (f : gmap path file) (w : World) : World :=
  mkWorld f (dirs w) (clock w) (faults w) (others w) (stdin w) (observers w) (trace w).
Definition set_dirs (d : gset path) (w : World) : World :=
  mkWorld (files w) d (clock w) (faults w) (others w) (stdin w) (observers w) (trace w).
Definition set_clock (c : nat) (w : World) : World :=
  mkWorld (files w) (dirs w) c (faults w) (others w) (stdin w) (observers w) (trace w).
Definition set_faults (fs : list (option exn)) (w : World) : World :=
  mkWorld (files w) (dirs w) (clock w) fs (others w) (stdin w) (observers w) (trace w).
Definition set_others (o : list (gmap path file -> gmap path file)) (w : World) : World :=
  mkWorld (files w) (dirs w) (clock w) (faults w) o (stdin w) (observers w) (trace w).
Definition set_stdin (i : list string) (w : World) : World :=
  mkWorld (files w) (dirs w) (clock w) (faults w) (others w) i (observers w) (trace w).
Definition set_observers (o : gmap nat observer) (w : World) : World :=
  mkWorld (files w) (dirs w) (clock w) (faults w) (others w) (stdin w) o (trace w).
Definition set_trace (t : list action) (w : World) : World :=
  mkWorld (files w) (dirs w) (clock w) (faults w) (others w) (stdin w) (observers w) t.

(** *** Primitive effects *)

Definition emit (a : action) : M World unit :=
  fun w => (Return tt, set_trace (trace w ++ [a]) w).

(** The world with one more action in its trace. *)
Definition emitted (a : action) (w : World) : World :=
  set_trace (trace w ++ [a]) w.

Definition get_world : M World World := fun w => (Return w, w).

Definition modify (f : World -> World) : M World unit := fun w => (Return tt, f w).

(** A system call first consults the failure script: a scripted failure is
    raised in place of the call; an exhausted script means no failure. *)
Definition next_fault (w : World) : option exn :=
  match faults w with
  | Some e :: _ => Some e
  | _ => None
  end.

Definition pop_fault (w : World) : World := set_faults (tail (faults w)) w.

Definition syscall {A} (op : M World A) : M World A :=
  fun w =>
    match next_fault w with
    | Some e => (Raise e, pop_fault w)
    | None => op (pop_fault w)
    end.

(** [time.sleep]: the clock advances and the other processes get to write. *)
Definition time_sleep (ms : nat) : M World unit :=
  syscall (fun w =>
    let w1 := set_clock (clock w + ms) w in
    let w2 := match others w1 with
              | [] => w1
              | change :: rest => set_others rest (set_files (change (files w1)) w1)
              end in
    emit (Sleep ms) w2).

(** The directory itself and every non-empty prefix of it. *)
Definition ancestors (d : path) : list path :=
  List.map (fun n => take n d) (seq 1 (List.length d)).

(** The root always exists. *)
Definition dir_exists (w : World) (d : path) : bool :=
  bool_decide (d = []) || bool_decide (d ∈ dirs w).

Definition is_file (w : World) (p : path) : bool :=
  bool_decide (is_Some (files w !! p)).

(** The text carried by the [OSError] of a file-system call is the
    description of its error number alone.  Python's [str(e)] puts the
    number before it and the file name after it, in a form that depends on
    the platform; where a property of the program shows such a text in the
    output, the text is left open. *)

(** [Path.mkdir(parents=True, exist_ok=True)] *)
Definition path_mkdir (d : path) : M World unit :=
  syscall (fun w =>
    if existsb (is_file w) (ancestors d)
    then (Raise (OSError "File exists"), w)
    else emit (Mkdir d) (set_dirs (dirs w ∪ list_to_set (ancestors d)) w)).

Definition dir_st_size : nat := 4096.

(** [Path.stat().st_size] *)
Definition path_stat_size (p : path) : M World nat :=
  syscall (fun w =>
    match files w !! p with
    | Some f => (emit (Stat p (List.length (content f)));;;
                 ret (List.length (content f))) w
    | None =>
        if dir_exists w p
        then (emit (Stat p dir_st_size);;; ret dir_st_size) w
        else (Raise (OSError "No such file or directory"), w)
    end).

(** [os.path.getsize] *)
Definition os_path_getsize (p : path) : M World nat :=
  syscall (fun w =>
    match files w !! p with
    | Some f => (emit (GetSize p (List.length (content f)));;;
                 ret (List.length (content f))) w
    | None =>
        if dir_exists w p
        then (emit (GetSize p dir_st_size);;; ret dir_st_size) w
        else (Raise (OSError "No such file or directory"), w)
    end).

(** [Path.exists()] *)
Definition path_exists (p : path) : M World bool :=
  fun w => (Return (is_file w p || dir_exists w p), w).

(** An open file object: the path it was opened on and its offset. *)
Record fileobj := mkFileobj {
  f_path : path;
  f_pos : nat
}.

(** [open(p, 'rb')] *)
Definition open_rb (p : path) : M World fileobj :=
  syscall (fun w =>
    match files w !! p with
    | Some _ => (emit (OpenRead p);;; ret (mkFileobj p 0)) w
    | None =>
        if dir_exists w p
        then (Raise (OSError "Is a directory"), w)
        else (Raise (OSError "No such file or directory"), w)
    end).

Definition default_mode : nat := 420.

(** [open(p, 'wb')]: the file is created, or truncated when it exists. *)
Definition open_wb (p : path) : M World fileobj :=
  syscall (fun w =>
    if bool_decide (p ∈ dirs w) || bool_decide (p = [])
    then (Raise (OSError "Is a directory"), w)
    else if negb (dir_exists w (parent p))
    then (Raise (OSError "No such file or directory"), w)
    else
      let md := match files w !! p with
                | Some f => mode f
                | None => default_mode
                end in
      (emit (OpenWrite p);;; ret (mkFileobj p 0))
        (set_files (<[p := mkFile [] (clock w) md]> (files w)) w)).

(** [f.read(n)]: at most [n] bytes from the current offset. *)
Definition file_read (f : fileobj) (n : nat) : M World (list byte * fileobj) :=
  syscall (fun w =>
    let data := match files w !! f_path f with
                | Some fl => take n (drop (f_pos f) (content fl))
                | None => []
                end in
    (emit (Read (f_path f) (List.length data));;;
     ret (data, mkFileobj (f_path f) (f_pos f + List.length data))) w).

(** [f.write(chunk)] on a file opened with 'wb' and written sequentially. *)
Definition file_write (f : fileobj) (chunk : list byte) : M World fileobj :=
  syscall (fun w =>
    let fs := match files w !! f_path f with
              | Some fl => <[f_path f := mkFile (content fl ++ chunk) (clock w) (mode fl)]> (files w)
              | None => files w
              end in
    (emit (Write (f_path f) chunk);;;
     ret (mkFileobj (f_path f) (f_pos f + List.length chunk))) (set_files fs w)).

Definition file_close (f : fileobj) : M World unit := emit (Close (f_path f)).

(** [shutil.copystat]: modification time and permission bits of [src] are
    put on [dst]. *)
Definition shutil_copystat (src dst : path) : M World unit :=
  syscall (fun w =>
    match files w !! src, files w !! dst with
    | Some s, Some d =>
        emit (CopyStat src dst)
          (set_files (<[dst := mkFile (content d) (mtime s) (mode s)]> (files w)) w)
    | _, _ => (Raise (OSError "No such file or directory"), w)
    end).

(** [print(line)] *)
Definition print (line : string) : M World unit := emit (Print line).

Definition logging_info (msg : string) : M World unit := emit (LogInfo msg).
Definition logging_error (msg : string) : M World unit := emit (LogError msg).

(** [input(prompt)]: the next line the operator types; EOFError when the
    input is exhausted. *)
Definition input (prompt : string) : M World string :=
  syscall (fun w =>
    match stdin w with
    | [] => (Raise EOFError, set_trace (trace w ++ [Input prompt]) w)
    | line :: rest => (Return line, set_stdin rest (set_trace (trace w ++ [Input prompt]) w))
    end).

(** *** Clock formatting: [strftime("%I:%M:%S %p")] *)

Definition digit (d : nat) : ascii := ascii_of_nat (48 + d).

Definition two_digits (n : nat) : string :=
  String (digit (n / 10 mod 10)) (String (digit (n mod 10)) "").

Definition strftime_IMSp (ms : nat) : string :=
  let secs := ms / 1000 in
  let h24 := secs / 3600 mod 24 in
  let h12 := if (h24 mod 12 =? 0)%nat then 12 else h24 mod 12 in
  two_digits h12 +:+ ":" +:+ two_digits (secs / 60 mod 60) +:+ ":" +:+
  two_digits (secs mod 60) +:+ " " +:+ (if (h24 <? 12)%nat then "AM" else "PM").

(** [datetime.now().strftime("%I:%M:%S %p")] *)
Definition now_strftime : M World string :=
  fun w => (Return (strftime_IMSp (clock w)), w).

(** *** colorama *)

Definition ESC : string := String (ascii_of_nat 27) "".
Definition NL : string := String (ascii_of_nat 10) "".

Module Fore.
Definition RED : string := ESC +:+ "[31m".
Definition GREEN : string := ESC +:+ "[32m".
Definition YELLOW : string := ESC +:+ "[33m".
Definition CYAN : string := ESC +:+ "[36m".
End Fore.

Module Style.
Definition RESET_ALL : string := ESC +:+ "[0m".
End Style.

(** ** Objects: a method runs on its instance and the world *)

Definition io {Self A} (m : M World A) : M (Self * World) A :=
  fun s =>
    match m (snd s) with
    | (r, w') => (r, (fst s, w'))
    end.

Definition get_self {Self} : M (Self * World) Self :=
  fun s => (Return (fst s), s).

Definition set_self {Self} (f : Self -> Self) : M (Self * World) unit :=
  fun s => (Return tt, (f (fst s), snd s)).

(** ** watchdog events and the handler base class *)

Inductive event_type := created | modified | deleted | moved.

Record event := mkEvent {
  kind : event_type;
  src_path : path;
  is_directory : bool
}.

(** The overridable callbacks of [watchdog.events.FileSystemEventHandler]. *)
Record EventHandlerClass (Self : Type) := mkClass {
  on_created : event -> M (Self * World) unit;
  on_modified : event -> M (Self * World) unit;
  on_deleted : event -> M (Self * World) unit;
  on_moved : event -> M (Self * World) unit
}.
Arguments mkClass {Self}.
Arguments on_created {Self}.
Arguments on_modified {Self}.
Arguments on_deleted {Self}.
Arguments on_moved {Self}.

(** In the base class every callback does nothing. *)
Definition FileSystemEventHandler (Self : Type) : EventHandlerClass Self :=
  mkClass (fun _ => ret tt) (fun _ => ret tt) (fun _ => ret tt) (fun _ => ret tt).

(** [FileSystemEventHandler.dispatch]: the callback is picked by event type. *)
Definition dispatch {Self} (cls : EventHandlerClass Self) (ev : event)
  : M (Self * World) unit :=
  match kind ev with
  | created => on_created cls ev
  | modified => on_modified cls ev
  | deleted => on_deleted cls ev
  | moved => on_moved cls ev
  end.

(** ** FileHandler: instance attributes and the in-flight set

    Both versions of the class have the same attributes and the same
    [_handle_file_event]; they differ in [_copy_file] and in the callbacks
    they override. *)

Record FileHandler := mkFileHandler {
  source_dir : path;
  destination_dir : path;
  processing_files : gset path
}.

(** [FileHandler.__init__] *)
Definition FileHandler_init (source_dir destination_dir : path) : FileHandler :=
  mkFileHandler source_dir destination_dir ∅.

(** [self.processing_files.add(p)] *)
Definition processing_files_add (p : path) : M (FileHandler * World) unit :=
  set_self (fun self =>
    mkFileHandler (source_dir self) (destination_dir self)
                  (processing_files self ∪ {[p]}));;;
  io (emit (SetAdd p)).

(** [self.processing_files.remove(p)]: KeyError when [p] is not a member. *)
Definition processing_files_remove (p : path) : M (FileHandler * World) unit :=
  self <- get_self;;
  if bool_decide (p ∈ processing_files self)
  then
    set_self (fun self =>
      mkFileHandler (source_dir self) (destination_dir self)
                    (processing_files self ∖ {[p]}));;;
    io (emit (SetRemove p))
  else raise (KeyError p).

Section HandleFileEvent.

Variable _copy_file : path -> M (FileHandler * World) unit.

(** [FileHandler._handle_file_event], for the [_copy_file] of the class. *)
Definition handle_file_event_with (source_path : path) (event_type : string)
  : M (FileHandler * World) unit :=
  self <- get_self;;
  if bool_decide (source_path ∈ processing_files self)
  then ret tt
  else
    processing_files_add source_path;;;
    try_finally (_copy_file source_path)
                (processing_files_remove source_path).

End HandleFileEvent.

Definition _log_success (time_str file_name : string) (source dest : path)
  : M (FileHandler * World) unit :=
  io (print (Fore.GREEN +:+ "[" +:+ time_str +:+ "] File copied successfully:" +:+ Style.RESET_ALL));;;
  io (print (Fore.CYAN +:+ "File: " +:+ Style.RESET_ALL +:+ file_name));;;
  io (print (Fore.CYAN +:+ "From: " +:+ Style.RESET_ALL +:+ str_path source));;;
  io (print (Fore.CYAN +:+ "To:   " +:+ Style.RESET_ALL +:+ str_path dest +:+ NL)).

Definition error_line (time_str file_name error : string) : string :=
  Fore.RED +:+ "[" +:+ time_str +:+ "] Error copying " +:+ file_name +:+ ": "
  +:+ error +:+ Style.RESET_ALL +:+ NL.

Definition _log_error (time_str file_name error : string)
  : M (FileHandler * World) unit :=
  io (print (error_line time_str file_name error)).

(** ** src/file_handler.py *)

Module file_handler.

(** The rendering of the bar (percentage, speed figure, width of the
    previous line) is display only; the model keeps the one effect of
    [update] that can fail, the division by [total_size], and records the
    reported figure in the trace. *)
Record ProgressBar := mkProgressBar {
  total_size : nat;
  width : nat
}.

Definition update (self : ProgressBar) (current_size : nat) : M World ProgressBar :=
  if (total_size self =? 0)%nat
  then raise ZeroDivisionError
  else emit (Progress current_size (total_size self));;; ret self.

(** The [while True] loop of [copy_with_progress]. *)
Fixpoint copy_loop (fuel : nat) (fsrc fdst : fileobj) (chunk_size : nat)
    (progress : ProgressBar) (copied_size : nat) : M World unit :=
  match fuel with
  | O => hang
  | S fuel' =>
      r <- file_read fsrc chunk_size;;
      let chunk := fst r in
      match chunk with
      | [] => ret tt
      | _ :: _ =>
          fdst' <- file_write fdst chunk;;
          let copied_size' := copied_size + List.length chunk in
          progress' <- update progress copied_size';;
          copy_loop fuel' (snd r) fdst' chunk_size progress' copied_size'
      end
  end.

Definition copy_with_progress (src dst : path) (chunk_size : nat) : M World unit :=
  total_size <- os_path_getsize src;;
  let progress := mkProgressBar total_size 50 in
  let copied_size := 0 in
  (fsrc <- open_rb src;;
   try_finally
     (fdst <- open_wb dst;;
      try_finally
        (copy_loop (S total_size) fsrc fdst chunk_size progress copied_size)
        (file_close fdst))
     (file_close fsrc));;;
  shutil_copystat src dst.

(** The [try] block of [_copy_file]. *)
Definition _copy_file_try (self : FileHandler) (source_path : path)
    (current_time : string) : M (FileHandler * World) unit :=
  let file_name := name source_path in
  let destination_path := joinpath (destination_dir self) file_name in
  io (time_sleep 1000);;;
  io (path_mkdir (destination_dir self));;;
  initial_size <- io (path_stat_size source_path);;
  io (time_sleep 500);;;
  size_now <- io (path_stat_size source_path);;
  if negb (initial_size =? size_now)%nat
  then ret tt
  else
    io (print (Fore.GREEN +:+ "[" +:+ current_time +:+ "] Copying "
               +:+ file_name +:+ ":" +:+ Style.RESET_ALL));;;
    io (copy_with_progress source_path destination_path 8192);;;
    _log_success current_time file_name source_path destination_path;;;
    io (logging_info ("Successfully copied " +:+ file_name)).

(** The [except Exception as e] block of [_copy_file]. *)
Definition _copy_file_except (source_path : path) (current_time : string)
    (e : exn) : M (FileHandler * World) unit :=
  let file_name := name source_path in
  _log_error current_time file_name (str_exn e);;;
  io (logging_error ("Error copying " +:+ file_name +:+ ": " +:+ str_exn e)).

Definition _copy_file (source_path : path) : M (FileHandler * World) unit :=
  self <- get_self;;
  current_time <- io now_strftime;;
  try_except
    (_copy_file_try self source_path current_time)
    (_copy_file_except source_path current_time).

Definition _handle_file_event : path -> string -> M (FileHandler * World) unit :=
  handle_file_event_with _copy_file.

Definition on_modified (ev : event) : M (FileHandler * World) unit :=
  if negb (is_directory ev)
  then _handle_file_event (src_path ev) "modified"
  else ret tt.

(** [class FileHandler(FileSystemEventHandler)]: only [on_modified] is
    overridden. *)
Definition FileHandler_class : EventHandlerClass FileHandler :=
  mkClass (on_created (FileSystemEventHandler FileHandler))
          on_modified
          (on_deleted (FileSystemEventHandler FileHandler))
          (on_moved (FileSystemEventHandler FileHandler)).

End file_handler.

(** ** file_copier.py: the FileHandler of the single-file version *)

Module file_copier.

(** [os.path.isdir]: what [stat] reports, as in [path_stat_size] (a path
    that holds a regular file is no directory); it never raises. *)
Definition os_path_isdir (p : path) : M World bool :=
  fun w => (Return match files w !! p with
                   | Some _ => false
                   | None => dir_exists w p
                   end, w).

(** [shutil._samefile]: the same path, when there is something at it
    ([os.path.samefile] fails on a missing file, which counts as
    different). *)
Definition shutil_samefile (src dst : path) : M World bool :=
  fun w => (Return (bool_decide (src = dst) && (is_file w src || dir_exists w src)), w).

(** [shutil.copyfile]: refuses to copy a file onto itself, then copies the
    content. *)
Definition shutil_copyfile (src dst : path) : M World unit :=
  same <- shutil_samefile src dst;;
  if same
  then raise (OSError "are the same file")
  else
    fsrc <- open_rb src;;
    try_finally
      (fdst <- open_wb dst;;
       try_finally
         (w <- get_world;;
          let size := match files w !! src with
                      | Some f => List.length (content f)
                      | None => 0
                      end in
          r <- file_read fsrc size;;
          match fst r with
          | [] => ret tt
          | _ :: _ => file_write fdst (fst r);;; ret tt
          end)
         (file_close fdst))
      (file_close fsrc).

(** [shutil.copy2]: a destination that is a directory stands for the file
    with the name of the source inside it; then the content, then the
    metadata. *)
Definition shutil_copy2 (src dst : path) : M World unit :=
  isdir <- os_path_isdir dst;;
  let dst := if isdir then joinpath dst (name src) else dst in
  shutil_copyfile src dst;;;
  shutil_copystat src dst.

(** The [try] block of [_copy_file]. *)
Definition _copy_file_try (self : FileHandler) (source_path : path)
    (current_time : string) : M (FileHandler * World) unit :=
  let file_name := name source_path in
  let destination_path := joinpath (destination_dir self) file_name in
  io (path_mkdir (destination_dir self));;;
  initial_size <- io (path_stat_size source_path);;
  io (time_sleep 500);;;
  size_now <- io (path_stat_size source_path);;
  if negb (initial_size =? size_now)%nat
  then ret tt
  else
    io (shutil_copy2 source_path destination_path);;;
    _log_success current_time file_name source_path destination_path;;;
    io (logging_info ("Successfully copied " +:+ file_name)).

(** The [except Exception as e] block of [_copy_file]. *)
Definition _copy_file_except (source_path : path) (current_time : string)
    (e : exn) : M (FileHandler * World) unit :=
  let file_name := name source_path in
  _log_error current_time file_name (str_exn e);;;
  io (logging_error ("Error copying " +:+ file_name +:+ ": " +:+ str_exn e)).

(** Here the first sleep is outside the [try]. *)
Definition _copy_file (source_path : path) : M (FileHandler * World) unit :=
  self <- get_self;;
  current_time <- io now_strftime;;
  io (time_sleep 1000);;;
  try_except
    (_copy_file_try self source_path current_time)
    (_copy_file_except source_path current_time).

Definition _handle_file_event : path -> string -> M (FileHandler * World) unit :=
  handle_file_event_with _copy_file.

Definition on_created (ev : event) : M (FileHandler * World) unit :=
  if negb (is_directory ev)
  then _handle_file_event (src_path ev) "created"
  else ret tt.

Definition on_modified (ev : event) : M (FileHandler * World) unit :=
  if negb (is_directory ev)
  then _handle_file_event (src_path ev) "modified"
  else ret tt.

Definition FileHandler_class : EventHandlerClass FileHandler :=
  mkClass on_created
          on_modified
          (on_deleted (FileSystemEventHandler FileHandler))
          (on_moved (FileSystemEventHandler FileHandler)).

End file_copier.

(** * src/utils.py *)

(** ** Strings and the regular expression of the folder name

    Python strings are modelled as strings of 8-bit characters (code points
    below 256).  In that range the decimal digits matched by [\d] are
    exactly '0'..'9'. *)

Definition is_digit (c : ascii) : bool :=
  (48 <=? nat_of_ascii c)%nat && (nat_of_ascii c <=? 57)%nat.

(** [str.isspace] for one character. *)
Definition is_space (c : ascii) : bool :=
  let n := nat_of_ascii c in
  ((9 <=? n)%nat && (n <=? 13)%nat) || ((28 <=? n)%nat && (n <=? 32)%nat)
  || (n =? 133)%nat || (n =? 160)%nat.

Fixpoint lstrip (s : string) : string :=
  match s with
  | EmptyString => EmptyString
  | String c rest => if is_space c then lstrip rest else s
  end.

(** Drops trailing whitespace: a character stays when it is not white or
    when something that stays follows it. *)
Fixpoint rstrip (s : string) : string :=
  match s with
  | EmptyString => EmptyString
  | String c rest =>
      match rstrip rest with
      | EmptyString => if is_space c then EmptyString else String c EmptyString
      | kept => String c kept
      end
  end.

(** [str.strip()] *)
Definition strip (s : string) : string := lstrip (rstrip s).

(** The fragment of [re] that the pattern uses. *)
Inductive re_item : Type :=
| Caret         (* ^ *)
| Dollar        (* $ *)
| Digit         (* \d *)
| Lit (c : ascii).

(** [re.match(pattern, s)] for a pattern that is a sequence of items: the
    match starts at the beginning of [s].  [^] holds at the beginning, [$]
    at the end of the string and just before a newline that ends it. *)
Fixpoint match_here (pattern : list re_item) (at_start : bool) (s : string) : bool :=
  match pattern with
  | [] => true
  | Caret :: rest => at_start && match_here rest at_start s
  | Dollar :: rest =>
      match s with
      | EmptyString => match_here rest at_start s
      | String c EmptyString =>
          (nat_of_ascii c =? 10)%nat && match_here rest at_start s
      | _ => false
      end
  | Digit :: rest =>
      match s with
      | String c s' => is_digit c && match_here rest false s'
      | EmptyString => false
      end
  | Lit c0 :: rest =>
      match s with
      | String c s' => Ascii.eqb c0 c && match_here rest false s'
      | EmptyString => false
      end
  end.

Definition re_match (pattern : list re_item) (s : string) : bool :=
  match_here pattern true s.

(** ** Character classes: substitution and stripping *)

(** [re.sub(cls, repl, s)] for a pattern that is one character class and a
    replacement of one character: every character of the class is
    replaced. *)
Fixpoint re_sub_class (cls : ascii -> bool) (repl : ascii) (s : string) : string :=
  match s with
  | EmptyString => EmptyString
  | String c rest =>
      String (if cls c then repl else c) (re_sub_class cls repl rest)
  end.

(** [s.lstrip(chars)], [s.rstrip(chars)] and [s.strip(chars)] for a set of
    characters given by its membership test. *)
Fixpoint lstrip_chars (chars : ascii -> bool) (s : string) : string :=
  match s with
  | EmptyString => EmptyString
  | String c rest => if chars c then lstrip_chars chars rest else s
  end.

Fixpoint rstrip_chars (chars : ascii -> bool) (s : string) : string :=
  match s with
  | EmptyString => EmptyString
  | String c rest =>
      match rstrip_chars chars rest with
      | EmptyString => if chars c then EmptyString else String c EmptyString
      | kept => String c kept
      end
  end.

Definition strip_chars (chars : ascii -> bool) (s : string) : string :=
  lstrip_chars chars (rstrip_chars chars s).

(** ** Probing and touching a path *)

(** [Path.is_dir()] and [Path.is_file()] *)
Definition path_is_dir (p : path) : M World bool :=
  fun w => (Return (dir_exists w p), w).

Definition path_is_file (p : path) : M World bool :=
  fun w => (Return (is_file w p), w).

(** [Path.touch()]: the modification time of what exists is set to now; a
    file that does not exist is created empty.  (This call and the next are
    not recorded in the trace, whose actions are those of the watch and copy
    core.) *)
Definition path_touch (p : path) : M World unit :=
  syscall (fun w =>
    match files w !! p with
    | Some f =>
        (Return tt, set_files (<[p := mkFile (content f) (clock w) (mode f)]> (files w)) w)
    | None =>
        if dir_exists w p then (Return tt, w)
        else if dir_exists w (parent p)
        then (Return tt, set_files (<[p := mkFile [] (clock w) default_mode]> (files w)) w)
        else (Raise (OSError "No such file or directory"), w)
    end).

(** [Path.unlink()] *)
Definition path_unlink (p : path) : M World unit :=
  syscall (fun w =>
    match files w !! p with
    | Some _ => (Return tt, set_files (delete p (files w)) w)
    | None =>
        if dir_exists w p
        then (Raise (OSError "Is a directory"), w)
        else (Raise (OSError "No such file or directory"), w)
    end).

Module utils.

(** [r'^\d{2}-\d{2}$'], with each [\d{2}] written as two [\d]. *)
Definition pattern : list re_item :=
  [Caret; Digit; Digit; Lit "-"; Digit; Digit; Dollar].

Definition validate_folder_name (folder_name : string) : outcome bool :=
  if negb (re_match pattern folder_name)
  then Raise (ValidationError "Folder name must be in format XX-XX (e.g., 01-04)")
  else Return true.

Definition prompt : string :=
  Fore.CYAN +:+ "Enter the folder name (e.g., 01-04): " +:+ Style.RESET_ALL.

(** The [while True] loop of [get_valid_folder_name]. *)
Fixpoint get_valid_folder_name_loop (fuel : nat) : M World string :=
  match fuel with
  | O => hang
  | S fuel' =>
      line <- input prompt;;
      let folder_name := strip line in
      match validate_folder_name folder_name with
      | Return _ => ret folder_name
      | Raise (ValidationError msg) =>
          print (Fore.RED +:+ "Error: " +:+ msg +:+ Style.RESET_ALL);;;
          get_valid_folder_name_loop fuel'
      | Raise e => raise e
      | Hang => hang
      end
  end.

(** Every round either leaves the loop or consumes a line of input, so one
    round more than there are lines is enough. *)
Definition get_valid_folder_name : M World string :=
  fun w => get_valid_folder_name_loop (S (List.length (stdin w))) w.

(** [sanitize_filename] *)

(** The character class of the pattern: less-than, greater-than, colon,
    double quote, slash, backslash, vertical bar, question mark, asterisk. *)
Definition invalid_chars (c : ascii) : bool :=
  let n := nat_of_ascii c in
  (n =? 60)%nat || (n =? 62)%nat || (n =? 58)%nat || (n =? 34)%nat
  || (n =? 47)%nat || (n =? 92)%nat || (n =? 124)%nat || (n =? 63)%nat
  || (n =? 42)%nat.

(** The characters of ['. ']. *)
Definition dot_or_space (c : ascii) : bool :=
  (nat_of_ascii c =? 46)%nat || (nat_of_ascii c =? 32)%nat.

Definition sanitize_filename (filename : string) : string :=
  let sanitized := re_sub_class invalid_chars "_" filename in
  let sanitized := strip_chars dot_or_space sanitized in
  if String.eqb sanitized "" then "unnamed_file" else sanitized.

(** [is_path_accessible] *)

(** [str(e)] of the NameError that the evaluation of [os] raises: the
    module never imports [os]. *)
Definition name_error_os : string := "name 'os' is not defined".

(** The [try] block of [is_path_accessible].  Its result is [inr b] for
    [return b], and [inl msg] where the block raises the NameError, which is
    not among the exceptions of the embedding. *)
Definition is_path_accessible_try (path : path) : M World (string + bool) :=
  there <- path_exists path;;
  if there
  then
    isdir <- path_is_dir path;;
    if negb isdir
    then
      isfile <- path_is_file path;;
      if isfile
      then ret (inl name_error_os)      (* os.access(path, os.R_OK | os.W_OK) *)
      else ret (inr false)
    else
      let test_file := joinpath path ".test_access" in
      path_touch test_file;;;
      path_unlink test_file;;;
      ret (inr true)
  else
    path_mkdir path;;;
    ret (inr true).

(** The [except Exception as e] block. *)
Definition is_path_accessible_except (msg : string) : M World bool :=
  logging_error ("Error checking path accessibility: " +:+ msg);;;
  ret false.

Definition is_path_accessible (path : path) : M World bool :=
  fun w =>
    match is_path_accessible_try path w with
    | (Return (inr b), w') => (Return b, w')
    | (Return (inl msg), w') => is_path_accessible_except msg w'
    | (Raise e, w') =>
        if is_Exception e then is_path_accessible_except (str_exn e) w'
        else (Raise e, w')
    | (Hang, w') => (Hang, w')
    end.

End utils.

(** * src/file_monitor.py *)

(** ** watchdog observers *)

(** The thread of an observer delivers callbacks from [start()] until it has
    exited. *)
Definition alive (st : thread_status) : bool :=
  match st with
  | Running | Stopping => true
  | Created | Exited => false
  end.

(** [Observer()] *)
Definition Observer_new : M World nat :=
  fun w =>
    let id := fresh (dom (observers w)) in
    (Return id,
     emitted (ObserverNew id)
       (set_observers (<[id := mkObserver Created []]> (observers w)) w)).

(** [observer.schedule(event_handler, path, recursive=False)] *)
Definition observer_schedule (id : nat) (dir : path) : M World unit :=
  syscall (fun w =>
    match observers w !! id with
    | Some o =>
        emit (ObserverSchedule id dir)
          (set_observers (<[id := mkObserver (status o) (dir :: watches o)]> (observers w)) w)
    | None => (Raise (RuntimeError "no such observer"), w)
    end).

(** [observer.start()]: a thread starts once; the watched paths must exist
    (a watch can be put on a regular file as well as on a directory). *)
Definition observer_start (id : nat) : M World unit :=
  syscall (fun w =>
    match observers w !! id with
    | Some o =>
        match status o with
        | Created =>
            if forallb (fun d => is_file w d || dir_exists w d) (watches o)
            then emit (ObserverStart id)
                   (set_observers (<[id := mkObserver Running (watches o)]> (observers w)) w)
            else (Raise (OSError "No such file or directory"), w)
        | _ => (Raise (RuntimeError "threads can only be started once"), w)
        end
    | None => (Raise (RuntimeError "no such observer"), w)
    end).

(** [observer.stop()]: asks a running thread to stop. *)
Definition observer_stop (id : nat) : M World unit :=
  syscall (fun w =>
    match observers w !! id with
    | Some o =>
        let st := match status o with
                  | Running => Stopping
                  | other => other
                  end in
        emit (ObserverStop id)
          (set_observers (<[id := mkObserver st (watches o)]> (observers w)) w)
    | None => (Raise (RuntimeError "no such observer"), w)
    end).

(** [observer.join()]: returns when the thread has exited; it blocks for ever
    on a running thread that nobody has asked to stop. *)
Definition observer_join (id : nat) : M World unit :=
  syscall (fun w =>
    match observers w !! id with
    | Some o =>
        match status o with
        | Created => (Raise (RuntimeError "cannot join thread before it is started"), w)
        | Running => (Hang, w)
        | Stopping | Exited =>
            emit (ObserverJoin id)
              (set_observers (<[id := mkObserver Exited (watches o)]> (observers w)) w)
        end
    | None => (Raise (RuntimeError "no such observer"), w)
    end).

(** ** FileMonitor: instance attributes (the same in both versions; the
    attribute [destination_dir] is [monitor_destination_dir] here) *)

Record FileMonitor := mkFileMonitor {
  base_source_dir : path;
  monitor_destination_dir : path;
  observer_of : option nat;             (* self.observer *)
  current_source_dir : option path;
  running : bool;
  menu_active : bool
}.

(** [FileMonitor.__init__] *)
Definition FileMonitor_init (base_source_dir destination_dir : path) : FileMonitor :=
  mkFileMonitor base_source_dir destination_dir None None true false.

Definition set_observer (o : option nat) (self : FileMonitor) : FileMonitor :=
  mkFileMonitor (base_source_dir self) (monitor_destination_dir self) o
                (current_source_dir self) (running self) (menu_active self).
Definition set_current_source_dir (d : option path) (self : FileMonitor) : FileMonitor :=
  mkFileMonitor (base_source_dir self) (monitor_destination_dir self) (observer_of self)
                d (running self) (menu_active self).
Definition set_running (b : bool) (self : FileMonitor) : FileMonitor :=
  mkFileMonitor (base_source_dir self) (monitor_destination_dir self) (observer_of self)
                (current_source_dir self) b (menu_active self).
Definition set_menu_active (b : bool) (self : FileMonitor) : FileMonitor :=
  mkFileMonitor (base_source_dir self) (monitor_destination_dir self) (observer_of self)
                (current_source_dir self) (running self) b.

(** [str(path)] of an optional path, as an f-string prints it. *)
Definition str_opt_path (d : option path) : string :=
  match d with
  | Some p => str_path p
  | None => "None"
  end.

(** ["=" * 50] *)
Definition rule50 : string :=
  string_of_list_ascii (List.repeat "="%char 50).

Definition menu_lines : list action :=
  [Print (NL +:+ rule50);
   Print (Fore.YELLOW +:+ "Select an option:" +:+ Style.RESET_ALL);
   Print "1. Change source folder";
   Print "2. Quit";
   Print rule50].

Definition print_menu : M (FileMonitor * World) unit :=
  io (print (NL +:+ rule50));;;
  io (print (Fore.YELLOW +:+ "Select an option:" +:+ Style.RESET_ALL));;;
  io (print "1. Change source folder");;;
  io (print "2. Quit");;;
  io (print rule50).

Definition print_monitoring_started (current_time : string) (self : FileMonitor)
  : M (FileMonitor * World) unit :=
  io (print (Fore.GREEN +:+ "[" +:+ current_time +:+ "] Monitoring started:"
             +:+ Style.RESET_ALL));;;
  io (print (Fore.CYAN +:+ "Source:      " +:+ Style.RESET_ALL
             +:+ str_opt_path (current_source_dir self)));;;
  io (print (Fore.CYAN +:+ "Destination: " +:+ Style.RESET_ALL
             +:+ str_path (monitor_destination_dir self)));;;
  io (print (Fore.YELLOW +:+ "Press ESC to open menu" +:+ Style.RESET_ALL +:+ NL)).

(** [try: body  except KeyboardInterrupt: on_interrupt
     except Exception as e: on_exception e]: the first clause that matches
    the class of the exception handles it; what a handler raises is not
    handled by the other. *)
Definition try_except_interrupt {St A} (body : M St A) (on_interrupt : M St A)
    (on_exception : exn -> M St A) : M St A :=
  fun s =>
    match body s with
    | (Raise KeyboardInterrupt, s') => on_interrupt s'
    | (Raise e, s') => if is_Exception e then on_exception e s' else (Raise e, s')
    | other => other
    end.

Module file_monitor.

(** The [try] block of [start_monitoring]. *)
Definition start_monitoring_try (self : FileMonitor) : M (FileMonitor * World) unit :=
  id <- io Observer_new;;
  set_self (set_observer (Some id));;;
  io (observer_schedule id (default [] (current_source_dir self)));;;
  io (observer_start id);;;
  current_time <- io now_strftime;;
  print_monitoring_started current_time self;;;
  io (logging_info ("Started monitoring directory: "
                    +:+ str_opt_path (current_source_dir self))).

(** The [except Exception as e] block of [start_monitoring]. *)
Definition start_monitoring_except (e : exn) : M (FileMonitor * World) unit :=
  io (logging_error ("Error starting monitoring: " +:+ str_exn e));;;
  io (print (Fore.RED +:+ "Error starting monitoring: " +:+ str_exn e
             +:+ Style.RESET_ALL)).

Definition start_monitoring : M (FileMonitor * World) unit :=
  self <- get_self;;
  there <- match current_source_dir self with
           | None => ret false
           | Some d => io (path_exists d)
           end;;
  if negb there
  then io (print (Fore.RED +:+ "Error: Source directory does not exist: "
                  +:+ str_opt_path (current_source_dir self) +:+ Style.RESET_ALL))
  else try_except (start_monitoring_try self) start_monitoring_except.

Definition stop : M (FileMonitor * World) unit :=
  set_self (set_running false);;;
  self <- get_self;;
  match observer_of self with
  | Some id =>
      io (observer_stop id);;;
      current_time <- io now_strftime;;
      io (print (NL +:+ Fore.YELLOW +:+ "[" +:+ current_time +:+ "] Monitoring stopped"
                 +:+ Style.RESET_ALL));;;
      io (observer_join id);;;
      io (logging_info "Monitoring stopped")
  | None => ret tt
  end.

Definition change_source_folder : M (FileMonitor * World) unit :=
  self <- get_self;;
  match observer_of self with
  | Some id => io (observer_stop id);;; io (observer_join id)
  | None => ret tt
  end;;;
  folder_name <- io utils.get_valid_folder_name;;
  set_self (set_current_source_dir (Some (joinpath (base_source_dir self) folder_name)));;;
  start_monitoring.

Definition show_menu : M (FileMonitor * World) unit :=
  self <- get_self;;
  if menu_active self
  then ret tt
  else
    set_self (set_menu_active true);;;
    try_finally
      (print_menu;;;
       line <- io (input "Enter your choice (1 or 2): ");;
       let choice := strip line in
       if String.eqb choice "1" then change_source_folder
       else if String.eqb choice "2" then stop
       else ret tt)
      (set_self (set_menu_active false)).

(** [while self.running: time.sleep(0.1)], for the main thread alone: the
    menu runs on the thread of the keyboard listener and is not part of this
    run, so nothing changes [running] and the loop ends only when a sleep is
    interrupted. *)
Fixpoint idle_loop (fuel : nat) : M (FileMonitor * World) unit :=
  match fuel with
  | O => hang
  | S fuel' =>
      self <- get_self;;
      if running self
      then io (time_sleep 100);;; idle_loop fuel'
      else ret tt
  end.

(** Every round makes one system call and so uses up one entry of the
    failure script: a loop that is still going after one round more than
    the script has entries goes on for ever, which is [Hang]. *)
Definition idle : M (FileMonitor * World) unit :=
  fun s => idle_loop (S (List.length (faults s.2))) s.

(** [FileMonitor.run] *)
Definition run : M (FileMonitor * World) unit :=
  try_finally
    (try_except_interrupt
       (folder_name <- io utils.get_valid_folder_name;;
        self <- get_self;;
        set_self (set_current_source_dir
                    (Some (joinpath (base_source_dir self) folder_name)));;;
        start_monitoring;;;
        idle)
       (io (logging_info "Application terminated by user");;;
        io (print (NL +:+ Fore.YELLOW +:+ "Application terminated by user"
                   +:+ Style.RESET_ALL)))
       (fun e =>
          io (logging_error ("Fatal error: " +:+ str_exn e));;;
          io (print (Fore.RED +:+ "Fatal error: " +:+ str_exn e +:+ Style.RESET_ALL))))
    stop.

End file_monitor.

(** ** file_copier.py: the FileMonitor of the single-file version *)

Module file_copier_monitor.

Definition validate_folder_name (folder_name : string) : outcome unit :=
  if negb (re_match utils.pattern folder_name)
  then Raise (ValueError "Folder name must be in format XX-XX (e.g., 01-04)")
  else Return tt.

Fixpoint get_valid_folder_name_loop (fuel : nat) : M World string :=
  match fuel with
  | O => hang
  | S fuel' =>
      line <- input utils.prompt;;
      let folder_name := strip line in
      match validate_folder_name folder_name with
      | Return _ => ret folder_name
      | Raise (ValueError msg) =>
          print (Fore.RED +:+ "Error: " +:+ msg +:+ Style.RESET_ALL);;;
          get_valid_folder_name_loop fuel'
      | Raise e => raise e
      | Hang => hang
      end
  end.

Definition get_valid_folder_name : M World string :=
  fun w => get_valid_folder_name_loop (S (List.length (stdin w))) w.

(** [self.current_source_dir.exists()] on None is an AttributeError; the
    callers assign the attribute first. *)
Definition start_monitoring : M (FileMonitor * World) unit :=
  self <- get_self;;
  there <- match current_source_dir self with
           | None => raise (RuntimeError "'NoneType' object has no attribute 'exists'")
           | Some d => io (path_exists d)
           end;;
  if negb there
  then io (print (Fore.RED +:+ "Error: Source directory does not exist: "
                  +:+ str_opt_path (current_source_dir self) +:+ Style.RESET_ALL))
  else
    id <- io Observer_new;;
    set_self (set_observer (Some id));;;
    io (observer_schedule id (default [] (current_source_dir self)));;;
    io (observer_start id);;;
    current_time <- io now_strftime;;
    print_monitoring_started current_time self.

Definition stop : M (FileMonitor * World) unit :=
  set_self (set_running false);;;
  self <- get_self;;
  match observer_of self with
  | Some id =>
      io (observer_stop id);;;
      current_time <- io now_strftime;;
      io (print (NL +:+ Fore.YELLOW +:+ "[" +:+ current_time +:+ "] Monitoring stopped"
                 +:+ Style.RESET_ALL));;;
      io (observer_join id)
  | None => ret tt
  end.

Definition change_source_folder : M (FileMonitor * World) unit :=
  self <- get_self;;
  match observer_of self with
  | Some id => io (observer_stop id);;; io (observer_join id)
  | None => ret tt
  end;;;
  folder_name <- io get_valid_folder_name;;
  set_self (set_current_source_dir (Some (joinpath (base_source_dir self) folder_name)));;;
  start_monitoring.

(** No [try]/[finally] here: the flag is reset by the last statement. *)
Definition show_menu : M (FileMonitor * World) unit :=
  self <- get_self;;
  if menu_active self
  then ret tt
  else
    set_self (set_menu_active true);;;
    print_menu;;;
    line <- io (input "Enter your choice (1 or 2): ");;
    let choice := strip line in
    (if String.eqb choice "1" then change_source_folder
     else if String.eqb choice "2" then stop
     else ret tt);;;
    set_self (set_menu_active false).

End file_copier_monitor.

(** * src/config.py: the validation of the parameters *)

Set Warnings "-register-all".

(** The values [json.loads] produces; a float is kept as its literal. *)
Inductive json : Type :=
| JNull
| JBool (b : bool)
| JInt (n : Z)
| JFloat (literal : string)
| JString (s : string)
| JArray (items : list json)
| JObject (members : list (string * json)).

(** [isinstance(v, str)] *)
Definition is_str (v : json) : bool :=
  match v with
  | JString _ => true
  | _ => false
  end.

Module config.

(** The exceptions of this module: the one it defines, and the KeyError of a
    failed lookup [config[param]]. *)
Inductive error : Type :=
| ConfigurationError (msg : string)
| KeyError (key : string).

Definition DEFAULT_CONFIG : gmap string json :=
  <["base_source_dir" := JString "C:\Path\To\Your\Source\Directory"]>
    (<["destination_dir" := JString "C:\Path\To\Your\Destination\Directory"]> ∅).

Definition required_params : list string := ["base_source_dir"; "destination_dir"].

(** The loop over the two parameters that checks the types. *)
Fixpoint check_strings (config : gmap string json) (params : list string)
  : option error :=
  match params with
  | [] => None
  | param :: rest =>
      match config !! param with
      | None => Some (KeyError param)
      | Some v =>
          if negb (is_str v)
          then Some (ConfigurationError
                       ("Parameter '" +:+ param +:+ "' must be a string"))
          else check_strings config rest
      end
  end.

(** [validate_config]: [None] for a normal return, otherwise the exception
    raised. *)
Definition validate_config (config : gmap string json) : option error :=
  let missing_params :=
    List.filter (fun param => negb (bool_decide (is_Some (config !! param))))
                required_params in
  match missing_params with
  | _ :: _ =>
      Some (ConfigurationError
              ("Missing required parameters: " +:+ String.concat ", " missing_params))
  | [] => check_strings config ["base_source_dir"; "destination_dir"]
  end.

End config.

(** * Concurrent deliveries to one handler

    Several threads run [_handle_file_event] on the same handler object.
    The statements of the method are the steps of a thread; any thread may
    take the next step.  [_copy_file] is one step here: whether a copy is in
    flight depends only on where the thread is. *)

Module Interleaving.

Inductive pc : Type :=
| AtCheck     (* if source_path in self.processing_files: return *)
| AtAdd       (* self.processing_files.add(source_path) *)
| AtCopy      (* self._copy_file(source_path) *)
| AtRemove    (* finally: self.processing_files.remove(source_path) *)
| Returned
| RaisedKeyError.

#[global] Instance pc_eq_dec : EqDecision pc.
Proof. solve_decision. Defined.

Record thread := mkThread {
  t_path : path;
  t_pc : pc
}.

Record state := mkState {
  shared_set : gset path;         (* self.processing_files *)
  threads : list thread
}.

(** Thread [i] executes its next statement. *)
Definition step (i : nat) (st : state) : state :=
  match threads st !! i with
  | None => st
  | Some t =>
      let p := t_path t in
      match t_pc t with
      | AtCheck =>
          if bool_decide (p ∈ shared_set st)
          then mkState (shared_set st) (<[i := mkThread p Returned]> (threads st))
          else mkState (shared_set st) (<[i := mkThread p AtAdd]> (threads st))
      | AtAdd =>
          mkState (shared_set st ∪ {[p]}) (<[i := mkThread p AtCopy]> (threads st))
      | AtCopy =>
          mkState (shared_set st) (<[i := mkThread p AtRemove]> (threads st))
      | AtRemove =>
          if bool_decide (p ∈ shared_set st)
          then mkState (shared_set st ∖ {[p]}) (<[i := mkThread p Returned]> (threads st))
          else mkState (shared_set st) (<[i := mkThread p RaisedKeyError]> (threads st))
      | Returned | RaisedKeyError => st
      end
  end.

(** A schedule names the thread that takes each successive step. *)
Definition run (sched : list nat) (st : state) : state :=
  foldl (fun st i => step i st) st sched.

(** One delivery per path of the list, none started yet. *)
Definition deliveries (ps : list path) : state :=
  mkState ∅ ((fun p => mkThread p AtCheck) <$> ps).

(** No two threads are copying the same path. *)
Definition one_copy_per_path (st : state) : Prop :=
  forall i j ti tj,
    threads st !! i = Some ti -> threads st !! j = Some tj ->
    t_pc ti = AtCopy -> t_pc tj = AtCopy -> t_path ti = t_path tj -> i = j.

(** The thread that has made its check and not yet its insertion, if any. *)
Definition pending (st : state) : option nat :=
  fst <$> list_find (fun t => t_pc t = AtAdd) (threads st).

(** In an undivided schedule, nothing happens between the check of a thread
    and its insertion. *)
Fixpoint undivided (sched : list nat) (st : state) : Prop :=
  match sched with
  | [] => True
  | i :: rest =>
      match pending st with
      | Some j => i = j
      | None => True
      end /\ undivided rest (step i st)
  end.

End Interleaving.

(** * Reasoning about computations *)

(** ** What a computation may do: an invariant, a step relation, and the
    exceptions it may raise.  [Hang] is never allowed. *)

Definition ok {A} (E : exn -> Prop) (r : outcome A) : Prop :=
  match r with
  | Return _ => True
  | Raise e => E e
  | Hang => False
  end.

Definition spec {St A} (I : St -> Prop) (R : relation St) (E : exn -> Prop)
    (m : M St A) : Prop :=
  forall s, I s -> I (m s).2 /\ R s (m s).2 /\ ok E (m s).1.

Section SpecRules.

Context {St : Type} (I : St -> Prop) (R : relation St) `{!PreOrder R}.

Lemma spec_ret {A} E (a : A) : spec I R E (ret a).
Proof. intros s Hs. cbn. split_and!; [done | reflexivity | done]. Qed.

Lemma spec_raise {A} (E : exn -> Prop) e : E e -> spec I R E (@raise St A e).
Proof. intros He s Hs. cbn. split_and!; [done | reflexivity | done]. Qed.

Lemma spec_bind {A B} E (m : M St A) (k : A -> M St B) :
  spec I R E m -> (forall a, spec I R E (k a)) -> spec I R E (bind m k).
Proof.
  intros Hm Hk s Hs. unfold bind.
  destruct (Hm s Hs) as (HI & HR & Hok).
  destruct (m s) as [[a | e |] s1]; cbn in *; try done.
  destruct (Hk a s1 HI) as (HI' & HR' & Hok').
  split_and!; [done | by etrans | done].
Qed.

Lemma spec_weaken {A} (E E' : exn -> Prop) (m : M St A) :
  (forall e, E e -> E' e) -> spec I R E m -> spec I R E' m.
Proof.
  intros HE Hm s Hs. destruct (Hm s Hs) as (HI & HR & Hok).
  split_and!; [done | done |].
  destruct (m s).1; cbn in *; auto.
Qed.

Lemma spec_try_except {A} E0 E (body : M St A) handler :
  spec I R E0 body ->
  (forall e, E0 e -> is_Exception e = true -> spec I R E (handler e)) ->
  (forall e, E0 e -> is_Exception e = false -> E e) ->
  spec I R E (try_except body handler).
Proof.
  intros Hb Hh HE s Hs. unfold try_except.
  destruct (Hb s Hs) as (HI & HR & Hok).
  destruct (body s) as [[a | e |] s1]; cbn in *; try done.
  destruct (is_Exception e) eqn:Hexc.
  - destruct (Hh e Hok Hexc s1 HI) as (HI' & HR' & Hok').
    split_and!; [done | by etrans | done].
  - cbn. split_and!; [done | done | by apply HE].
Qed.

Lemma spec_try_finally {A} E (body : M St A) cleanup :
  spec I R E body -> spec I R E cleanup ->
  spec I R E (try_finally body cleanup).
Proof.
  intros Hb Hc s Hs. unfold try_finally.
  destruct (Hb s Hs) as (HI & HR & Hok).
  destruct (body s) as [[a | e |] s1]; cbn in *; try done;
    destruct (Hc s1 HI) as (HI' & HR' & Hok');
    destruct (cleanup s1) as [[[] | e' |] s2]; cbn in *; try done;
    split_and!; try done; by etrans.
Qed.

Lemma spec_if {A} E (b : bool) (m1 m2 : M St A) :
  spec I R E m1 -> spec I R E m2 -> spec I R E (if b then m1 else m2).
Proof. by destruct b. Qed.

End SpecRules.

(** ** The instance used for the world *)

(** Every scripted failure satisfies [F]. *)
Definition good_faults (F : exn -> Prop) (w : World) : Prop :=
  Forall (fun o => forall e, o = Some e -> F e) (faults w).

(** What may be raised: a scripted failure, or an error of the call itself
    (always of class Exception). *)
Definition allowed (F : exn -> Prop) (e : exn) : Prop :=
  F e \/ is_Exception e = true.

(** The trace only grows, by actions satisfying [P]. *)
Definition extends (P : action -> Prop) (w w' : World) : Prop :=
  exists tr, trace w' = trace w ++ tr /\ Forall P tr.

#[global] Instance extends_preorder P : PreOrder (extends P).
Proof.
  split.
  - intros w. exists []. by rewrite app_nil_r.
  - intros w1 w2 w3 (t1 & H1 & F1) (t2 & H2 & F2).
    exists (t1 ++ t2). rewrite H2, H1, <- app_assoc. split; [done |].
    by apply Forall_app.
Qed.

(** A method leaves its instance as it is. *)
Definition same_self {Self} (R : relation World) : relation (Self * World) :=
  fun s s' => s'.1 = s.1 /\ R s.2 s'.2.

#[global] Instance same_self_preorder {Self} (R : relation World) `{!PreOrder R} :
  PreOrder (@same_self Self R).
Proof.
  split.
  - intros s. split; [done | reflexivity].
  - intros s1 s2 s3 [E1 R1] [E2 R2]. split; [congruence | by etrans].
Qed.

Definition wspec {A} (F : exn -> Prop) (P : action -> Prop) (E : exn -> Prop)
    (m : M World A) : Prop :=
  spec (good_faults F) (extends P) E m.

Definition ospec {Self A} (F : exn -> Prop) (P : action -> Prop) (E : exn -> Prop)
    (m : M (Self * World) A) : Prop :=
  spec (fun s => good_faults F s.2) (same_self (extends P)) E m.

Lemma spec_io {Self A} F P E (m : M World A) :
  wspec F P E m -> @ospec Self A F P E (io m).
Proof.
  intros Hm [self w] Hs. unfold io. cbn in *.
  destruct (Hm w Hs) as (HI & HR & Hok).
  destruct (m w) as [r w']. cbn in *. done.
Qed.

Lemma spec_get_self {Self} F P E : @ospec Self Self F P E get_self.
Proof. intros s Hs. cbn. split_and!; [done | reflexivity | done]. Qed.

Lemma wspec_emit F (P : action -> Prop) E a : P a -> wspec F P E (emit a).
Proof.
  intros Ha w Hw. cbn. split_and!; [done | | done].
  exists [a]. split; [done | by constructor].
Qed.

Lemma good_faults_pop F w : good_faults F w -> good_faults F (pop_fault w).
Proof.
  unfold good_faults, pop_fault. cbn.
  destruct (faults w); [done |]. by intros [_ ?]%Forall_cons.
Qed.

Lemma good_faults_next F w e : good_faults F w -> next_fault w = Some e -> F e.
Proof.
  unfold good_faults, next_fault.
  destruct (faults w) as [| [e' |] fs]; try done.
  intros [He _]%Forall_cons [= <-]. by apply He.
Qed.

(** Actions of the operating system and the console. *)
Definition sys_action (a : action) : Prop :=
  match a with
  | Sleep _ | Mkdir _ | Stat _ _ | GetSize _ _ | OpenRead _ | OpenWrite _
  | Read _ _ | Write _ _ | Close _ | CopyStat _ _
  | Print _ | LogInfo _ | LogError _ | Input _ => True
  | _ => False
  end.

(** Everything but the bookkeeping of the in-flight set. *)
Definition io_action (a : action) : Prop :=
  match a with
  | SetAdd _ | SetRemove _ => False
  | _ => True
  end.

(** Errors that the system calls themselves report. *)
Definition os_error (e : exn) : Prop :=
  match e with
  | OSError _ | EOFError | RuntimeError _ => True
  | _ => False
  end.

(** A trace predicate that allows the actions of system calls, and an
    exception predicate that allows what system calls raise. *)
Class SysOk (P : action -> Prop) : Prop :=
  sys_ok : forall a, sys_action a -> P a.

Class ErrOk (F E : exn -> Prop) : Prop :=
  err_ok : forall e, F e \/ os_error e -> E e.

#[global] Instance sys_action_ok : SysOk sys_action.
Proof. by intros a. Qed.

#[global] Instance io_action_ok : SysOk io_action.
Proof. by intros []. Qed.

#[global] Instance allowed_ok F : ErrOk F (allowed F).
Proof. intros e [He | He]; [by left | right; by destruct e]. Qed.

Lemma wspec_syscall {A} F P E `{!ErrOk F E} (op : M World A) :
  wspec F P E op -> wspec F P E (syscall op).
Proof.
  intros Hop w Hw. unfold syscall.
  destruct (next_fault w) as [e |] eqn:Hf.
  - cbn. split_and!.
    + by apply good_faults_pop.
    + exists []. cbn. by rewrite app_nil_r.
    + apply err_ok. left. by eapply good_faults_next.
  - destruct (Hop _ (good_faults_pop _ _ Hw)) as (HI & (tr & Htr & HP) & Hok).
    split_and!; [done | by exists tr | done].
Qed.

Lemma extends_here P w w' a :
  trace w' = trace w ++ [a] -> P a -> extends P w w'.
Proof. intros Ht Ha. exists [a]. split; [done | by constructor]. Qed.

Lemma extends_same P w w' : trace w' = trace w -> extends P w w'.
Proof. intros Ht. exists []. by rewrite app_nil_r. Qed.

Lemma extends_mono (P Q : action -> Prop) w w' :
  (forall a, P a -> Q a) -> extends P w w' -> extends Q w w'.
Proof.
  intros HPQ (tr & Htr & HP). exists tr. split; [done |].
  eapply Forall_impl; [exact HP | exact HPQ].
Qed.

Lemma allowed_Exception F e : is_Exception e = true -> allowed F e.
Proof. by right. Qed.

Create HintDb py discriminated.

#[global] Hint Resolve extends_same allowed_Exception : py.
#[global] Hint Extern 1 (extends _ _ _) =>
  (eapply extends_here; [reflexivity | apply sys_ok; exact Logic.I]) : py.
#[global] Hint Extern 1 (ok _ (Raise _)) =>
  (apply err_ok; right; exact Logic.I) : py.

(** Unfolds a primitive whose body is a single step on the world. *)
Ltac prim_step :=
  let w := fresh "w" in
  let Hw := fresh "Hw" in
  intros w Hw; cbn;
  repeat (case_match; cbn);
  (split_and!;
   [exact Hw | auto with py
   | first [exact Logic.I | apply err_ok; right; exact Logic.I]]).

Section Primitives.

Context (F : exn -> Prop) {P : action -> Prop} {E : exn -> Prop}.
Context `{!SysOk P} `{!ErrOk F E}.

Lemma wspec_time_sleep ms : wspec F P E (time_sleep ms).
Proof. apply wspec_syscall; [exact _ | prim_step]. Qed.

Lemma wspec_path_mkdir d : wspec F P E (path_mkdir d).
Proof. apply wspec_syscall; [exact _ | prim_step]. Qed.

Lemma wspec_path_stat_size p : wspec F P E (path_stat_size p).
Proof. apply wspec_syscall; [exact _ | prim_step]. Qed.

Lemma wspec_os_path_getsize p : wspec F P E (os_path_getsize p).
Proof. apply wspec_syscall; [exact _ | prim_step]. Qed.

Lemma wspec_open_rb p : wspec F P E (open_rb p).
Proof. apply wspec_syscall; [exact _ | prim_step]. Qed.

Lemma wspec_open_wb p : wspec F P E (open_wb p).
Proof. apply wspec_syscall; [exact _ | prim_step]. Qed.

Lemma wspec_file_read f n : wspec F P E (file_read f n).
Proof. apply wspec_syscall; [exact _ | prim_step]. Qed.

Lemma wspec_file_write f chunk : wspec F P E (file_write f chunk).
Proof. apply wspec_syscall; [exact _ | prim_step]. Qed.

Lemma wspec_file_close f : wspec F P E (file_close f).
Proof. by apply wspec_emit, sys_ok. Qed.

Lemma wspec_shutil_copystat src dst : wspec F P E (shutil_copystat src dst).
Proof. apply wspec_syscall; [exact _ | prim_step]. Qed.

Lemma wspec_print line : wspec F P E (print line).
Proof. by apply wspec_emit, sys_ok. Qed.

Lemma wspec_logging_info msg : wspec F P E (logging_info msg).
Proof. by apply wspec_emit, sys_ok. Qed.

Lemma wspec_logging_error msg : wspec F P E (logging_error msg).
Proof. by apply wspec_emit, sys_ok. Qed.

Lemma wspec_input prompt : wspec F P E (input prompt).
Proof. apply wspec_syscall; [exact _ | prim_step]. Qed.

Lemma wspec_now_strftime : wspec F P E now_strftime.
Proof. prim_step. Qed.

Lemma wspec_get_world : wspec F P E get_world.
Proof. prim_step. Qed.

Lemma wspec_path_exists p : wspec F P E (path_exists p).
Proof. prim_step. Qed.

End Primitives.

(** * copy_with_progress *)

(** Bytes of the source that the file object has not read yet. *)
Definition remaining (w : World) (f : fileobj) : nat :=
  match files w !! f_path f with
  | Some fl => List.length (content fl) - f_pos f
  | None => 0
  end.

Lemma take_nil_length {A} n (l : list A) :
  take n l = [] -> n = 0 \/ l = [].
Proof. destruct n, l; cbn; auto; done. Qed.

Section CopyLoop.

Import file_handler.

Variable F : exn -> Prop.

(** The loop ends within [fuel] rounds when fewer than [fuel] bytes remain:
    every round but the last reads at least one byte, and writing to the
    destination leaves the source as it is. *)
(** The world after a successful [read], [write] and [update]. *)
Definition read_data (w : World) (f : fileobj) (n : nat) : list byte :=
  match files w !! f_path f with
  | Some fl => take n (drop (f_pos f) (content fl))
  | None => []
  end.

Definition after_read (w : World) (f : fileobj) (n : nat) : World :=
  set_trace (trace w ++ [Read (f_path f) (List.length (read_data w f n))])
            (pop_fault w).

Definition after_write (w : World) (f : fileobj) (chunk : list byte) : World :=
  set_trace (trace w ++ [Write (f_path f) chunk])
    (set_files
       match files w !! f_path f with
       | Some fl => <[f_path f := mkFile (content fl ++ chunk) (clock w) (mode fl)]> (files w)
       | None => files w
       end (pop_fault w)).

Definition after_update (w : World) (current_size total : nat) : World :=
  set_trace (trace w ++ [Progress current_size total]) w.

Lemma copy_loop_step fuel fsrc fdst n progress copied w :
  copy_loop (S fuel) fsrc fdst n progress copied w =
  match next_fault w with
  | Some e => (Raise e, pop_fault w)
  | None =>
      let w1 := after_read w fsrc n in
      match read_data w fsrc n with
      | [] => (Return tt, w1)
      | b :: l =>
          let data := b :: l in
          match next_fault w1 with
          | Some e => (Raise e, pop_fault w1)
          | None =>
              let w2 := after_write w1 fdst data in
              let copied' := copied + List.length data in
              if (total_size progress =? 0)%nat
              then (Raise ZeroDivisionError, w2)
              else copy_loop fuel
                     (mkFileobj (f_path fsrc) (f_pos fsrc + List.length data))
                     (mkFileobj (f_path fdst) (f_pos fdst + List.length data))
                     n progress copied' (after_update w2 copied' (total_size progress))
          end
      end
  end.
Proof.
  cbn [copy_loop]. unfold bind at 1. unfold file_read at 1, syscall at 1.
  destruct (next_fault w); [done |].
  cbn -[copy_loop take drop]. fold (read_data w fsrc n).
  fold (after_read w fsrc n).
  destruct (read_data w fsrc n) as [| b l] eqn:Hd; [done |].
  unfold bind at 1. unfold file_write at 1, syscall at 1.
  destruct (next_fault (after_read w fsrc n)); [done |].
  cbn -[copy_loop take drop after_read].
  fold (after_write (after_read w fsrc n) fdst (b :: l)).
  unfold bind at 1, update at 1.
  destruct (total_size progress =? 0)%nat; [done |].
  reflexivity.
Qed.

Lemma read_data_length w f n :
  List.length (read_data w f n) <= remaining w f.
Proof.
  unfold read_data, remaining.
  destruct (files w !! f_path f); [| done].
  rewrite length_take, length_drop. lia.
Qed.

(** What a copy of a source of [total] bytes may do: system calls, and
    progress reports only when there is something to copy. *)
Definition copy_action (total : nat) (a : action) : Prop :=
  sys_action a \/ (total <> 0 /\ exists c t, a = Progress c t).

(** What it may raise: what system calls raise, and the division error of
    the progress bar only when there is something to copy. *)
Definition copy_error (total : nat) (e : exn) : Prop :=
  F e \/ os_error e \/ (total <> 0 /\ e = ZeroDivisionError).

#[global] Instance copy_action_ok total : SysOk (copy_action total).
Proof. intros a Ha. by left. Qed.

#[global] Instance copy_error_ok total : ErrOk F (copy_error total).
Proof. intros e [He | He]; [by left | right; by left]. Qed.

(** The loop ends within [fuel] rounds when fewer than [fuel] bytes remain:
    every round but the last reads at least one byte, and writing to the
    destination leaves the source as it is. *)
Lemma copy_loop_spec total fuel :
  forall fsrc fdst chunk_size progress copied_size w r w',
    good_faults F w ->
    remaining w fsrc < fuel ->
    remaining w fsrc <= total ->
    (remaining w fsrc <> 0 -> f_path fsrc <> f_path fdst) ->
    copy_loop fuel fsrc fdst chunk_size progress copied_size w = (r, w') ->
    good_faults F w' /\ extends (copy_action total) w w' /\ ok (copy_error total) r.
Proof.
  induction fuel as [| fuel IH];
    intros fsrc fdst n progress copied w r w' Hw Hlt Htot Hne Hrun; [lia |].
  rewrite copy_loop_step in Hrun.
  destruct (next_fault w) as [e |] eqn:Hf.
  { injection Hrun as <- <-.
    split_and!; [by apply good_faults_pop | auto with py |].
    left. by eapply good_faults_next. }
  pose proof (read_data_length w fsrc n) as Hlen.
  destruct (read_data w fsrc n) as [| b l] eqn:Hd; cbn zeta in Hrun.
  { injection Hrun as <- <-.
    split_and!; [by apply good_faults_pop | auto with py | done]. }
  assert (Hw1 : good_faults F (after_read w fsrc n)) by by apply good_faults_pop.
  cbn [List.length] in Hlen.
  assert (Htotal : total <> 0) by lia.
  destruct (next_fault (after_read w fsrc n)) as [e |] eqn:Hf1.
  { injection Hrun as <- <-.
    split_and!; [by apply good_faults_pop | auto with py |].
    left. by eapply good_faults_next. }
  assert (Hw2 : good_faults F (after_write (after_read w fsrc n) fdst (b :: l)))
    by by apply good_faults_pop.
  destruct (total_size progress =? 0)%nat.
  { injection Hrun as <- <-.
    split_and!; [done | | by (right; right)].
    exists [Read (f_path fsrc) (List.length (b :: l)); Write (f_path fdst) (b :: l)].
    split; [unfold after_write, after_read; cbn; by rewrite Hd, <- app_assoc
           | apply Forall_cons; split; [by left |];
             apply Forall_cons; split; [by left | constructor]]. }
  assert (Hpath : f_path fsrc <> f_path fdst) by (apply Hne; lia).
  assert (Hrem : remaining
            (after_update (after_write (after_read w fsrc n) fdst (b :: l))
               (copied + List.length (b :: l)) (total_size progress))
            (mkFileobj (f_path fsrc) (f_pos fsrc + List.length (b :: l)))
          < Nat.min fuel (S total)).
  { unfold remaining in *. cbn. destruct (files w !! f_path fdst); cbn.
    - rewrite lookup_insert_ne by done.
      destruct (files w !! f_path fsrc); cbn in *; lia.
    - destruct (files w !! f_path fsrc); cbn in *; lia. }
  apply IH in Hrun as (HI & (tr & Htr & HP) & Hok); [| done | lia | lia | done].
  split_and!; [done | | done].
    exists ([Read (f_path fsrc) (List.length (b :: l)); Write (f_path fdst) (b :: l);
             Progress (copied + List.length (b :: l)) (total_size progress)] ++ tr).
    split; [| apply Forall_app; split; [| done]].
    + rewrite Htr. unfold after_update, after_write, after_read. cbn.
      by rewrite Hd, <- !app_assoc.
    + apply Forall_cons; split; [by left |].
      apply Forall_cons; split; [by left |].
      apply Forall_cons; split; [right; eauto | constructor].
Qed.

End CopyLoop.

(** ** Inversion of the monad's combinators *)

Lemma bind_inv {St A B} (m : M St A) (k : A -> M St B) s r s' :
  bind m k s = (r, s') ->
  (exists a s1, m s = (Return a, s1) /\ k a s1 = (r, s')) \/
  (exists e, m s = (Raise e, s') /\ r = Raise e) \/
  (m s = (Hang, s') /\ r = Hang).
Proof.
  unfold bind. destruct (m s) as [[a | e |] s1]; intros H.
  - left. by exists a, s1.
  - right; left. injection H as <- <-. by exists e.
  - right; right. by injection H as <- <-.
Qed.

Lemma bind_Return_inv {St A B} (m : M St A) (k : A -> M St B) s b s' :
  bind m k s = (Return b, s') ->
  exists a s1, m s = (Return a, s1) /\ k a s1 = (Return b, s').
Proof.
  intros [H | [(e & _ & [=]) | [_ [=]]]]%bind_inv. done.
Qed.

Lemma try_finally_close_inv {A} (body : M World A) f w r w' :
  try_finally body (file_close f) w = (r, w') ->
  exists w1, body w = (r, w1) /\
    (r = Hang -> w' = w1) /\
    (r <> Hang -> w' = set_trace (trace w1 ++ [Close (f_path f)]) w1).
Proof.
  unfold try_finally, file_close, emit.
  destruct (body w) as [[a | e |] w1]; intros [= <- <-]; by exists w1.
Qed.

(** ** What the system calls return *)

Lemma syscall_Return_inv {A} (op : M World A) w a w' :
  syscall op w = (Return a, w') ->
  next_fault w = None /\ op (pop_fault w) = (Return a, w').
Proof. unfold syscall. by destruct (next_fault w). Qed.

Lemma os_path_getsize_Return p w n w' :
  os_path_getsize p w = (Return n, w') ->
  w' = set_trace (trace w ++ [GetSize p n]) (pop_fault w) /\
  next_fault w = None /\
  match files w !! p with
  | Some f => n = List.length (content f)
  | None => dir_exists w p = true
  end.
Proof.
  intros [Hf H]%syscall_Return_inv. cbn in H.
  destruct (files w !! p) as [f |]; cbn in H.
  - by injection H as <- <-.
  - change (dir_exists (pop_fault w) p) with (dir_exists w p) in H.
    destruct (dir_exists w p); cbn in H; [| done].
    by injection H as <- <-.
Qed.

Lemma open_rb_Return p w fo w' :
  open_rb p w = (Return fo, w') ->
  fo = mkFileobj p 0 /\ is_Some (files w !! p) /\ next_fault w = None /\
  w' = set_trace (trace w ++ [OpenRead p]) (pop_fault w).
Proof.
  intros [Hf H]%syscall_Return_inv. cbn in H.
  destruct (files w !! p) as [f |]; cbn in H.
  - by injection H as <- <-.
  - by repeat case_match.
Qed.

Lemma open_wb_Return p w fo w' :
  open_wb p w = (Return fo, w') ->
  fo = mkFileobj p 0 /\ next_fault w = None /\
  dir_exists w (parent p) = true /\
  w' = set_trace (trace w ++ [OpenWrite p])
         (set_files (<[p := mkFile [] (clock w)
                              match files w !! p with
                              | Some f => mode f
                              | None => default_mode
                              end]> (files w)) (pop_fault w)).
Proof.
  intros [Hf H]%syscall_Return_inv. cbn in H.
  change (dir_exists (pop_fault w) (parent p)) with (dir_exists w (parent p)) in H.
  destruct (bool_decide (p ∈ dirs w) || bool_decide (p = [])); [done |].
  destruct (dir_exists w (parent p)); cbn in H; [| done].
  by injection H as <- <-.
Qed.

Lemma shutil_copystat_Return src dst w w' :
  shutil_copystat src dst w = (Return tt, w') ->
  exists s d, files w !! src = Some s /\ files w !! dst = Some d /\
    next_fault w = None /\
    w' = set_trace (trace w ++ [CopyStat src dst])
           (set_files (<[dst := mkFile (content d) (mtime s) (mode s)]> (files w))
                      (pop_fault w)).
Proof.
  intros [Hf H]%syscall_Return_inv. cbn in H.
  destruct (files w !! src) as [s |]; [| done].
  destruct (files w !! dst) as [d |]; [| done].
  cbn in H. injection H as <-. by exists s, d.
Qed.

(** ** copy_with_progress never hangs and raises only what a system call
    raises (or ZeroDivisionError from the progress bar) *)

Definition good {A} (F : exn -> Prop) (P : action -> Prop) (E : exn -> Prop)
    (w : World) (r : outcome A) (w' : World) : Prop :=
  good_faults F w' /\ extends P w w' /\ ok E r.

Lemma wspec_run {A} F P E (m : M World A) w r w' :
  wspec F P E m -> good_faults F w -> m w = (r, w') -> good F P E w r w'.
Proof. intros Hm Hw Hrun. specialize (Hm w Hw). by rewrite Hrun in Hm. Qed.

Lemma good_trans {A B} F P E w (r1 : outcome A) w1 (r : outcome B) w' :
  good F P E w r1 w1 -> good F P E w1 r w' -> good F P E w r w'.
Proof.
  intros (_ & H1 & _) (HI & H2 & Hok). split_and!; [done | by etrans | done].
Qed.

Lemma good_close {A} F P E `{!SysOk P} w (r : outcome A) w1 f :
  good F P E w r w1 ->
  good F P E w r (set_trace (trace w1 ++ [Close (f_path f)]) w1).
Proof.
  intros (HI & H1 & Hok). split_and!; [done | | done].
  etrans; [done |]. auto with py.
Qed.

Lemma good_cast {A B} F P E w (r : outcome A) (r' : outcome B) w' :
  good F P E w r w' -> (ok E r -> ok E r') -> good F P E w r' w'.
Proof. intros (HI & H1 & Hok) H. split_and!; auto. Qed.

Section CopyWithProgress.

Import file_handler.

Variable F : exn -> Prop.

(** The [with open(src, 'rb') as fsrc, open(dst, 'wb') as fdst] block. *)
Lemma with_block_good src dst chunk_size total progress w r w' :
  good_faults F w ->
  match files w !! src with
  | Some f => total = List.length (content f)
  | None => True
  end ->
  (fsrc <- open_rb src;;
   try_finally
     (fdst <- open_wb dst;;
      try_finally
        (copy_loop (S total) fsrc fdst chunk_size progress 0)
        (file_close fdst))
     (file_close fsrc)) w = (r, w') ->
  good F (copy_action total) (copy_error F total) w r w'.
Proof.
  intros Hw Hsize Hrun.
  apply bind_inv in Hrun as [(fsrc & w1 & H1 & Hrun) | [(e & H1 & ->) | (H1 & ->)]];
    pose proof (wspec_run F (copy_action total) (copy_error F total) _ _ _ _
                  (wspec_open_rb F src) Hw H1) as G1;
    [| by eapply good_cast ..].
  eapply good_trans; [exact G1 |]. destruct G1 as (Hw1 & _ & _).
  apply open_rb_Return in H1 as (-> & [f Hf] & _ & Ew1).
  rewrite Hf in Hsize.
  apply try_finally_close_inv in Hrun as (w4 & Hrun & Hhang & Hclose).
  assert (G : good F (copy_action total) (copy_error F total) w1 r w4); last first.
  { destruct r; [rewrite Hclose by done; apply good_close; [exact _ | done] ..
                | by rewrite Hhang]. }
  clear Hhang Hclose w'.
  apply bind_inv in Hrun as [(fdst & w2 & H2 & Hrun) | [(e & H2 & ->) | (H2 & ->)]];
    pose proof (wspec_run F (copy_action total) (copy_error F total) _ _ _ _
                  (wspec_open_wb F dst) Hw1 H2) as G2;
    [| by eapply good_cast ..].
  eapply good_trans; [exact G2 |]. destruct G2 as (Hw2 & _ & _).
  apply open_wb_Return in H2 as (-> & _ & _ & Ew2).
  apply try_finally_close_inv in Hrun as (w3 & Hrun & Hhang & Hclose).
  assert (G : good F (copy_action total) (copy_error F total) w2 r w3); last first.
  { destruct r; [rewrite Hclose by done; apply good_close; [exact _ | done] ..
                | by rewrite Hhang]. }
  assert (Hrem : remaining w2 (mkFileobj src 0)
                 = if decide (dst = src) then 0 else total).
  { unfold remaining. rewrite Ew2, Ew1. cbn.
    destruct (decide (dst = src)) as [-> |].
    - by rewrite lookup_insert_eq.
    - rewrite lookup_insert_ne, Hf by done. lia. }
  eapply copy_loop_spec; [done | | | | exact Hrun].
  - rewrite Hrem. case_decide; lia.
  - rewrite Hrem. case_decide; lia.
  - rewrite Hrem. by case_decide.
Qed.

(** The size that [os.path.getsize] reports for [src], when it is a file. *)
Definition size_of (w : World) (src : path) : nat :=
  match files w !! src with
  | Some f => List.length (content f)
  | None => 0
  end.

Lemma copy_with_progress_good src dst chunk_size w r w' :
  good_faults F w ->
  copy_with_progress src dst chunk_size w = (r, w') ->
  good F (copy_action (size_of w src)) (copy_error F (size_of w src)) w r w'.
Proof.
  intros Hw Hrun. unfold copy_with_progress in Hrun.
  set (P := copy_action (size_of w src)). set (E := copy_error F (size_of w src)).
  (* total_size = os.path.getsize(src) *)
  apply bind_inv in Hrun as [(total & w1 & H1 & Hrun) | [(e & H1 & ->) | (H1 & ->)]];
    pose proof (wspec_run F P E _ _ _ _ (wspec_os_path_getsize F src) Hw H1) as G1;
    [| by eapply good_cast ..].
  eapply good_trans; [exact G1 |]. destruct G1 as (Hw1 & _ & _).
  apply os_path_getsize_Return in H1 as (Ew1 & _ & Hsize).
  (* the [with] block, then copystat *)
  destruct (files w !! src) as [f |] eqn:Hf.
  - assert (Hsize1 : match files w1 !! src with
                     | Some f => total = List.length (content f)
                     | None => True
                     end).
    { rewrite Ew1. cbn. by rewrite Hf. }
    assert (HPE : P = copy_action total /\ E = copy_error F total).
    { unfold P, E, size_of. by rewrite Hf, Hsize. }
    destruct HPE as [-> ->].
    apply bind_inv in Hrun as [([] & w2 & H2 & Hrun) | [(e & H2 & ->) | (H2 & ->)]];
      pose proof (with_block_good _ _ _ _ _ _ _ _ Hw1 Hsize1 H2) as G2;
      [| by eapply good_cast ..].
    eapply good_trans; [exact G2 |]. destruct G2 as (Hw2 & _ & _).
    eapply wspec_run; [apply wspec_shutil_copystat; exact _ | done | done].
  - (* not a regular file: [open] fails *)
    apply bind_inv in Hrun as [([] & w2 & H2 & Hrun) | [(e & H2 & ->) | (H2 & ->)]].
    + apply bind_Return_inv in H2 as (fsrc & w3 & H3 & _).
      apply open_rb_Return in H3 as (_ & [f' Hf'] & _).
      rewrite Ew1 in Hf'. cbn in Hf'. congruence.
    + apply bind_inv in H2 as [(fsrc & w3 & H3 & _) | [(e' & H3 & [= ->]) | (_ & [=])]].
      * apply open_rb_Return in H3 as (_ & [f' Hf'] & _).
        rewrite Ew1 in Hf'. cbn in Hf'. congruence.
      * eapply good_cast;
          [exact (wspec_run F P E _ _ _ _ (wspec_open_rb F src) Hw1 H3) | done].
    + apply bind_inv in H2 as [(fsrc & w3 & H3 & _) | [(e' & _ & [=]) | (H3 & _)]].
      * apply open_rb_Return in H3 as (_ & [f' Hf'] & _).
        rewrite Ew1 in Hf'. cbn in Hf'. congruence.
      * eapply good_cast;
          [exact (wspec_run F P E _ _ _ _ (wspec_open_rb F src) Hw1 H3) | done].
Qed.

Lemma copy_action_io total a : copy_action total a -> io_action a.
Proof. intros [Ha | (_ & c & t & ->)]; [by destruct a | done]. Qed.

Lemma copy_error_allowed total e : copy_error F total e -> allowed F e.
Proof.
  intros [He | [He | [_ ->]]]; [by left | right; by destruct e | by right].
Qed.

Lemma wspec_copy_with_progress src dst chunk_size :
  wspec F io_action (allowed F) (copy_with_progress src dst chunk_size).
Proof.
  intros w Hw. destruct (copy_with_progress src dst chunk_size w) as [r w'] eqn:Hrun.
  destruct (copy_with_progress_good _ _ _ _ _ _ Hw Hrun) as (HI & HR & Hok).
  split_and!; [done | |].
  - eapply extends_mono; [apply copy_action_io | exact HR].
  - destruct r; cbn in *; [done | by eapply copy_error_allowed | done].
Qed.

End CopyWithProgress.

(** * The event handler *)

Lemma ospec_emit {Self} F (P : action -> Prop) E a :
  P a -> @ospec Self unit F P E (io (emit a)).
Proof.
  intros Ha [self w] Hw. cbn. split_and!; [done | | done].
  split; [done |]. by eapply extends_here.
Qed.

Lemma ospec_now_strftime {Self} F P E : @ospec Self string F P E (io now_strftime).
Proof. intros [self w] Hw. cbn. split_and!; [done | reflexivity | done]. Qed.

Section ObjectRules.

Context {Self : Type} (F : exn -> Prop) (P : action -> Prop).

Lemma ospec_ret {A} E (a : A) : @ospec Self A F P E (ret a).
Proof. apply spec_ret. apply _. Qed.

Lemma ospec_bind {A B} E (m : M (Self * World) A) (k : A -> M (Self * World) B) :
  ospec F P E m -> (forall a, ospec F P E (k a)) -> ospec F P E (bind m k).
Proof. apply spec_bind. apply _. Qed.

Lemma ospec_if {A} E (b : bool) (m1 m2 : M (Self * World) A) :
  ospec F P E m1 -> ospec F P E m2 -> ospec F P E (if b then m1 else m2).
Proof. apply spec_if. Qed.

Lemma ospec_weaken {A} (E E' : exn -> Prop) (m : M (Self * World) A) :
  (forall e, E e -> E' e) -> ospec F P E m -> ospec F P E' m.
Proof. apply spec_weaken. Qed.

Lemma ospec_try_except {A} E0 E (body : M (Self * World) A) handler :
  ospec F P E0 body ->
  (forall e, E0 e -> is_Exception e = true -> ospec F P E (handler e)) ->
  (forall e, E0 e -> is_Exception e = false -> E e) ->
  ospec F P E (try_except body handler).
Proof. apply spec_try_except. apply _. Qed.

Lemma ospec_try_finally {A} E (body : M (Self * World) A) cleanup :
  ospec F P E body -> ospec F P E cleanup ->
  ospec F P E (try_finally body cleanup).
Proof. apply spec_try_finally. apply _. Qed.

End ObjectRules.

Lemma ospec_log_success F E t n s d : ospec F io_action E (_log_success t n s d).
Proof.
  unfold _log_success, print.
  repeat (apply ospec_bind; [| intros ?]); by apply ospec_emit.
Qed.

Lemma ospec_log_error F E t n err : ospec F io_action E (_log_error t n err).
Proof. by apply ospec_emit. Qed.

(** Composes the rules along the structure of a method body. *)
Ltac ospec_step :=
  first
    [ apply ospec_bind; [| intros ?]
    | apply ospec_if
    | apply ospec_ret
    | apply ospec_log_success
    | apply spec_io;
      first [ apply wspec_time_sleep | apply wspec_path_mkdir
            | apply wspec_path_stat_size | apply wspec_print
            | apply wspec_logging_info | apply wspec_logging_error
            | apply wspec_copy_with_progress | apply wspec_input ];
      try exact _ ].

Section CopyFile.

Variable F : exn -> Prop.

(** Exceptions that pass through [except Exception]. *)
Definition escapes (e : exn) : Prop := F e /\ is_Exception e = false.

Lemma ospec_copy_file_try self p t :
  ospec F io_action (allowed F) (file_handler._copy_file_try self p t).
Proof. unfold file_handler._copy_file_try. repeat ospec_step. Qed.

Lemma ospec_copy_file_except E p t e :
  ospec F io_action E (file_handler._copy_file_except p t e).
Proof.
  unfold file_handler._copy_file_except.
  apply ospec_bind; [apply ospec_log_error | intros _; by apply ospec_emit].
Qed.

Lemma ospec_copy_file p : ospec F io_action escapes (file_handler._copy_file p).
Proof.
  unfold file_handler._copy_file.
  apply ospec_bind; [apply spec_get_self | intros self].
  apply ospec_bind; [apply ospec_now_strftime | intros t].
  eapply ospec_try_except.
  - apply ospec_copy_file_try.
  - intros e _ _. apply ospec_copy_file_except.
  - intros e [He | He] Hexc; [done | congruence].
Qed.

End CopyFile.

(** ** _handle_file_event *)

Definition mark (p : path) (self : FileHandler) : FileHandler :=
  mkFileHandler (source_dir self) (destination_dir self) (processing_files self ∪ {[p]}).

Section HandleFileEventFacts.

Variable _copy_file : path -> M (FileHandler * World) unit.

(** An event for a path that is in flight is dropped. *)
Lemma handle_dropped p et self w :
  p ∈ processing_files self ->
  handle_file_event_with _copy_file p et (self, w) = (Return tt, (self, w)).
Proof.
  intros Hin. unfold handle_file_event_with, bind, get_self. cbn.
  by rewrite bool_decide_eq_true_2.
Qed.

(** Otherwise [_copy_file] runs with the path marked, and the mark is taken
    off again whatever the outcome of [_copy_file] is. *)
Lemma handle_run p et self w r w1 :
  p ∉ processing_files self ->
  _copy_file p (mark p self, emitted (SetAdd p) w) = (r, (mark p self, w1)) ->
  r <> Hang ->
  handle_file_event_with _copy_file p et (self, w)
  = (r, (self, emitted (SetRemove p) w1)).
Proof.
  intros Hin Hrun Hr. unfold handle_file_event_with, bind at 1, get_self. cbn.
  rewrite bool_decide_eq_false_2 by done.
  unfold bind at 1, processing_files_add, bind at 1, set_self, io. cbn.
  fold (mark p self). fold (emitted (SetAdd p) w).
  unfold try_finally. rewrite Hrun.
  assert (Hrm : processing_files_remove p (mark p self, w1)
                = (Return tt, (self, emitted (SetRemove p) w1))).
  { unfold processing_files_remove, bind, get_self, set_self, io. cbn.
    rewrite bool_decide_eq_true_2
      by (apply elem_of_union; right; by apply elem_of_singleton).
    cbn. do 3 f_equal. destruct self as [sd dd pf]. cbn in *. f_equal.
    apply set_eq. intros q.
    rewrite elem_of_difference, elem_of_union, elem_of_singleton.
    split; [by intros [[? | ?] ?] |].
    intros Hq. split; [by left | by intros ->]. }
  destruct r; [by rewrite Hrm .. | done].
Qed.

Variables (F : exn -> Prop) (E : exn -> Prop).
Hypothesis copy_file_ospec : forall p, ospec F io_action E (_copy_file p).

Lemma handle_not_in_flight p et self w :
  good_faults F w ->
  p ∉ processing_files self ->
  exists r w1 tr,
    _copy_file p (mark p self, emitted (SetAdd p) w) = (r, (mark p self, w1)) /\
    handle_file_event_with _copy_file p et (self, w)
    = (r, (self, emitted (SetRemove p) w1)) /\
    ok E r /\
    good_faults F (emitted (SetRemove p) w1) /\
    trace (emitted (SetRemove p) w1) = trace w ++ [SetAdd p] ++ tr ++ [SetRemove p] /\
    Forall io_action tr.
Proof.
  intros Hw Hin.
  destruct (_copy_file p (mark p self, emitted (SetAdd p) w)) as [r [self1 w1]] eqn:Hrun.
  destruct (copy_file_ospec p (mark p self, emitted (SetAdd p) w) Hw)
    as (HI & [Hself (tr & Htr & HP)] & Hok).
  rewrite Hrun in *. cbn in *. subst self1.
  exists r, w1, tr. split_and!; try done.
  - apply (handle_run p et); [done | done |]. by destruct r.
  - rewrite Htr. by rewrite <- !app_assoc.
Qed.

End HandleFileEventFacts.

(** ** The older [_copy_file] *)

Section WorldRules.

Context (F : exn -> Prop) (P : action -> Prop) (E : exn -> Prop).

Lemma wspec_ret {A} (a : A) : wspec F P E (ret a).
Proof. apply spec_ret. apply _. Qed.

Lemma wspec_bind {A B} (m : M World A) (k : A -> M World B) :
  wspec F P E m -> (forall a, wspec F P E (k a)) -> wspec F P E (bind m k).
Proof. apply spec_bind. apply _. Qed.

Lemma wspec_try_finally {A} (body : M World A) cleanup :
  wspec F P E body -> wspec F P E cleanup -> wspec F P E (try_finally body cleanup).
Proof. apply spec_try_finally. apply _. Qed.

Lemma wspec_raise {A} e : E e -> wspec F P E (@raise World A e).
Proof. intros He. apply spec_raise; [apply _ | done]. Qed.

End WorldRules.

Section LegacyCopyFile.

Variable F : exn -> Prop.

Lemma wspec_shutil_copy2 src dst :
  wspec F io_action (allowed F) (file_copier.shutil_copy2 src dst).
Proof.
  unfold file_copier.shutil_copy2.
  apply wspec_bind; [intros w Hw; cbn; split_and!; [done | reflexivity | done] | intros isdir].
  cbn zeta.
  apply wspec_bind; [| intros _; apply wspec_shutil_copystat; exact _].
  unfold file_copier.shutil_copyfile.
  apply wspec_bind; [intros w Hw; cbn; split_and!; [done | reflexivity | done] | intros same].
  destruct same; [apply wspec_raise; by right |].
  apply wspec_bind; [apply wspec_open_rb; exact _ | intros fsrc].
  apply wspec_try_finally; [| apply wspec_file_close; exact _].
  apply wspec_bind; [apply wspec_open_wb; exact _ | intros fdst].
  apply wspec_try_finally; [| apply wspec_file_close; exact _].
  apply wspec_bind; [apply wspec_get_world; exact _ | intros w].
  apply wspec_bind; [apply wspec_file_read; exact _ | intros r].
  destruct (r.1); [apply wspec_ret |].
  apply wspec_bind; [apply wspec_file_write; exact _ | intros _; apply wspec_ret].
Qed.

Lemma ospec_legacy_copy_file_try self p t :
  ospec F io_action (allowed F) (file_copier._copy_file_try self p t).
Proof.
  unfold file_copier._copy_file_try.
  repeat first [ospec_step | apply spec_io; apply wspec_shutil_copy2].
Qed.

Lemma ospec_legacy_copy_file p :
  ospec F io_action (allowed F) (file_copier._copy_file p).
Proof.
  unfold file_copier._copy_file.
  apply ospec_bind; [apply spec_get_self | intros self].
  apply ospec_bind; [apply ospec_now_strftime | intros t].
  apply ospec_bind; [apply spec_io, wspec_time_sleep; exact _ | intros _].
  eapply ospec_try_except.
  - apply ospec_legacy_copy_file_try.
  - intros e _ _. unfold file_copier._copy_file_except.
    apply ospec_bind; [apply ospec_log_error | intros _; by apply ospec_emit].
  - intros e [He | He] Hexc; [by left | congruence].
Qed.

End LegacyCopyFile.

(** In both versions an event for a path that is not in flight is
    processed: bracketed by the two bookkeeping steps, with the instance
    unchanged at the end. *)
Lemma handle_processed (handle : path -> string -> M (FileHandler * World) unit) :
  handle = file_handler._handle_file_event \/
  handle = file_copier._handle_file_event ->
  forall (self : FileHandler) w p et,
    p ∉ processing_files self ->
    exists r w' tr,
      handle p et (self, w) = (r, (self, w')) /\ r <> Hang /\
      trace w' = trace w ++ [SetAdd p] ++ tr ++ [SetRemove p] /\
      Forall io_action tr.
Proof.
  intros [-> | ->] self w p et Hin.
  - destruct (handle_not_in_flight _ _ _ (ospec_copy_file (fun _ => True))
                p et self w) as (r & w1 & tr & _ & Hrun & Hok & _ & Htr & HP);
      [by apply Forall_forall | done |].
    exists r, (emitted (SetRemove p) w1), tr. split_and!; try done. by destruct r.
  - destruct (handle_not_in_flight _ _ _ (ospec_legacy_copy_file (fun _ => True))
                p et self w) as (r & w1 & tr & _ & Hrun & Hok & _ & Htr & HP);
      [by apply Forall_forall | done |].
    exists r, (emitted (SetRemove p) w1), tr. split_and!; try done. by destruct r.
Qed.

(** * Example inputs *)

Definition example_png : path := ["output"; "01-04"; "a.png"].

Definition example_world : World :=
  mkWorld (<[example_png := mkFile [x89; x50; x4e; x47] 7 420]> ∅)
          {[ ["output"]; ["output"; "01-04"] ]}
          0 [] [] [] ∅ [].

Definition example_handler : FileHandler :=
  FileHandler_init ["output"; "01-04"] ["inbox"].

(** * Claims about the event handler *)

(** C1. For an event on a non-directory path, in either version of the
    class: when the path is in the processing set the event is dropped and
    nothing changes; otherwise the path is added before any I/O, and
    [_copy_file] of the class runs on the instance that has the path in its
    set, from the world in which the insertion is the only thing that has
    happened; the set stays so while [_copy_file] runs, so that an event
    for the same path delivered in the meantime is dropped; and the path is
    removed exactly once at the end, whatever the outcome of [_copy_file]
    (normal return, unstable return, or an exception passing through), so
    that the set is what it was and a later event for the same path is
    processed again.  The bookkeeping does not depend on what [_copy_file]
    does: the handler of either class is the shared method applied to the
    [_copy_file] of the class, and for any [_copy_file] whatever that
    leaves the instance as it is, the shared method gives the result of its
    run on the instance with the path in the set, followed by the
    removal. *)
Theorem handle_file_event_marks_and_releases :
  forall (handle : path -> string -> M (FileHandler * World) unit)
         (_copy_file : path -> M (FileHandler * World) unit),
    (handle = file_handler._handle_file_event /\
     _copy_file = file_handler._copy_file) \/
    (handle = file_copier._handle_file_event /\
     _copy_file = file_copier._copy_file) ->
  forall (self : FileHandler) (w : World) (p : path) (et : string),
    (p ∈ processing_files self ->
       handle p et (self, w) = (Return tt, (self, w))) /\
    (p ∉ processing_files self ->
       exists r w1 w' tr,
         processing_files (mark p self) = processing_files self ∪ {[p]} /\
         _copy_file p (mark p self, emitted (SetAdd p) w) = (r, (mark p self, w1)) /\
         w' = emitted (SetRemove p) w1 /\
         handle p et (self, w) = (r, (self, w')) /\
         r <> Hang /\
         trace w1 = trace w ++ [SetAdd p] ++ tr /\
         trace w' = trace w ++ [SetAdd p] ++ tr ++ [SetRemove p] /\
         Forall io_action tr /\
         (forall et2 w2,
            handle p et2 (mark p self, w2) = (Return tt, (mark p self, w2))) /\
         (forall et2, exists r2 w2 tr2,
            handle p et2 (self, w') = (r2, (self, w2)) /\
            trace w2 = trace w' ++ [SetAdd p] ++ tr2 ++ [SetRemove p])) /\
    handle = handle_file_event_with _copy_file /\
    (forall (callee : path -> M (FileHandler * World) unit) r w1,
       p ∉ processing_files self ->
       callee p (mark p self, emitted (SetAdd p) w) = (r, (mark p self, w1)) ->
       r <> Hang ->
       handle_file_event_with callee p et (self, w)
       = (r, (self, emitted (SetRemove p) w1))).
Proof.
  intros handle copy Hh self w p et.
  assert (Hh' : handle = file_handler._handle_file_event \/
                handle = file_copier._handle_file_event)
    by (destruct Hh as [[-> _] | [-> _]]; auto).
  assert (Hmark : p ∈ processing_files (mark p self))
    by (apply elem_of_union; right; by apply elem_of_singleton).
  split_and!.
  - intros Hin. destruct Hh as [[-> _] | [-> _]]; by apply handle_dropped.
  - intros Hin.
    assert (Hrun : exists r w1 tr,
              copy p (mark p self, emitted (SetAdd p) w) = (r, (mark p self, w1)) /\
              handle p et (self, w) = (r, (self, emitted (SetRemove p) w1)) /\
              r <> Hang /\
              trace (emitted (SetRemove p) w1)
              = trace w ++ [SetAdd p] ++ tr ++ [SetRemove p] /\
              Forall io_action tr).
    { destruct Hh as [[-> ->] | [-> ->]].
      - destruct (handle_not_in_flight _ _ _ (ospec_copy_file (fun _ => True))
                    p et self w) as (r & w1 & tr & Hc & Hrun & Hok & _ & Htr & HP);
          [by apply Forall_forall | done |].
        exists r, w1, tr. split_and!; try done. by destruct r.
      - destruct (handle_not_in_flight _ _ _ (ospec_legacy_copy_file (fun _ => True))
                    p et self w) as (r & w1 & tr & Hc & Hrun & Hok & _ & Htr & HP);
          [by apply Forall_forall | done |].
        exists r, w1, tr. split_and!; try done. by destruct r. }
    destruct Hrun as (r & w1 & tr & Hc & Hrun & Hok & Htr & HP).
    exists r, w1, (emitted (SetRemove p) w1), tr. split_and!; try done.
    + destruct (app_inj_tail (trace w1) (trace w ++ [SetAdd p] ++ tr)
                  (SetRemove p) (SetRemove p)) as [H _]; [| exact H].
      rewrite <- !app_assoc. exact Htr.
    + intros et2 w2. destruct Hh as [[-> _] | [-> _]]; by apply handle_dropped.
    + intros et2.
      destruct (handle_processed handle Hh' self (emitted (SetRemove p) w1) p et2 Hin)
        as (r2 & w2 & tr2 & Hrun2 & _ & Htr2 & _).
      by exists r2, w2, tr2.
  - by destruct Hh as [[-> ->] | [-> ->]].
  - intros callee r w1 Hin Hc Hr. by apply handle_run.
Qed.

Lemma handle_file_event_marks_and_releases_witness :
  (example_png ∈ processing_files example_handler ->
     file_handler._handle_file_event example_png "modified"
       (example_handler, example_world)
     = (Return tt, (example_handler, example_world))) /\
  (exists r w1 w' tr,
    processing_files (mark example_png example_handler)
    = processing_files example_handler ∪ {[example_png]} /\
    file_handler._copy_file example_png
      (mark example_png example_handler, emitted (SetAdd example_png) example_world)
    = (r, (mark example_png example_handler, w1)) /\
    w' = emitted (SetRemove example_png) w1 /\
    file_handler._handle_file_event example_png "modified"
      (example_handler, example_world) = (r, (example_handler, w')) /\
    r <> Hang /\
    trace w1 = trace example_world ++ [SetAdd example_png] ++ tr /\
    trace w' = trace example_world ++ [SetAdd example_png] ++ tr ++ [SetRemove example_png] /\
    Forall io_action tr /\
    (forall et2 w2,
       file_handler._handle_file_event example_png et2
         (mark example_png example_handler, w2)
       = (Return tt, (mark example_png example_handler, w2))) /\
    (forall et2, exists r2 w2 tr2,
       file_handler._handle_file_event example_png et2 (example_handler, w')
       = (r2, (example_handler, w2)) /\
       trace w2 = trace w' ++ [SetAdd example_png] ++ tr2 ++ [SetRemove example_png])) /\
  file_handler._handle_file_event = handle_file_event_with file_handler._copy_file /\
  (forall (callee : path -> M (FileHandler * World) unit) r w1,
     example_png ∉ processing_files example_handler ->
     callee example_png
       (mark example_png example_handler, emitted (SetAdd example_png) example_world)
     = (r, (mark example_png example_handler, w1)) ->
     r <> Hang ->
     handle_file_event_with callee example_png "modified"
       (example_handler, example_world)
     = (r, (example_handler, emitted (SetRemove example_png) w1))).
Proof.
  destruct (handle_file_event_marks_and_releases
              file_handler._handle_file_event file_handler._copy_file
              (or_introl (conj eq_refl eq_refl))
              example_handler example_world example_png "modified")
    as (Hdrop & Hrun & Heq & Hany).
  split_and!; [exact Hdrop | | exact Heq | exact Hany].
  apply Hrun. cbn. apply not_elem_of_empty.
Defined.

Lemma bind_io_Return {Self A B} (m : M World A) (k : A -> M (Self * World) B)
    self w a w' :
  m w = (Return a, w') -> bind (io m) k (self, w) = k a (self, w').
Proof. intros H. unfold bind, io. cbn. by rewrite H. Qed.

Lemma bind_io_Raise {Self A B} (m : M World A) (k : A -> M (Self * World) B)
    self w e w' :
  m w = (Raise e, w') -> bind (io m) k (self, w) = (Raise e, (self, w')).
Proof. intros H. unfold bind, io. cbn. by rewrite H. Qed.

Lemma time_sleep_Return ms w w' :
  time_sleep ms w = (Return tt, w') ->
  trace w' = trace w ++ [Sleep ms] /\ clock w' = clock w + ms /\
  dirs w' = dirs w /\
  files w' = match others w with
             | [] => files w
             | change :: _ => change (files w)
             end.
Proof.
  intros [_ H]%syscall_Return_inv. cbn in H.
  destruct (others w); cbn in H; by injection H as <-.
Qed.

Lemma path_mkdir_Return d w w' :
  path_mkdir d w = (Return tt, w') ->
  trace w' = trace w ++ [Mkdir d] /\ files w' = files w /\ clock w' = clock w /\
  dirs w' = dirs w ∪ list_to_set (ancestors d).
Proof.
  intros [_ H]%syscall_Return_inv. cbn in H.
  destruct (existsb _ _); [done |]. by injection H as <-.
Qed.

Lemma path_stat_size_Return p w n w' :
  path_stat_size p w = (Return n, w') ->
  trace w' = trace w ++ [Stat p n] /\ files w' = files w /\ dirs w' = dirs w /\
  clock w' = clock w /\
  match files w !! p with
  | Some f => n = List.length (content f)
  | None => dir_exists w p = true
  end.
Proof.
  intros [_ H]%syscall_Return_inv. cbn in H.
  destruct (files w !! p) as [f |]; cbn in H.
  - by injection H as <- <-.
  - change (dir_exists (pop_fault w) p) with (dir_exists w p) in H.
    destruct (dir_exists w p); cbn in H; [| done].
    by injection H as <- <-.
Qed.

(** Actions that put something at the destination or report a copy. *)
Definition copies_or_reports (a : action) : Prop :=
  match a with
  | OpenWrite _ | Write _ _ | CopyStat _ _ | Print _ | LogInfo _ | Progress _ _ => True
  | _ => False
  end.

(** C3. When the size observed before the 0.5 second sleep differs from the
    size observed after it, the handler (of either version) returns
    normally without copying: between the two bookkeeping steps the trace
    holds the first sleep, the mkdir, and the two observations only (no
    file is opened or written, nothing is printed or logged), the files are
    what they were when the second size was observed, and the path is out
    of the processing set, so that a later event for it is processed. *)
Theorem unstable_file_is_not_copied :
  forall handle : path -> string -> M (FileHandler * World) unit,
    handle = file_handler._handle_file_event \/
    handle = file_copier._handle_file_event ->
  forall (self : FileHandler) (w : World) (p : path) (et : string)
         (w1 w2 w3 w4 w5 : World) (size_before size_after : nat),
    p ∉ processing_files self ->
    time_sleep 1000 (emitted (SetAdd p) w) = (Return tt, w1) ->
    path_mkdir (destination_dir self) w1 = (Return tt, w2) ->
    path_stat_size p w2 = (Return size_before, w3) ->
    time_sleep 500 w3 = (Return tt, w4) ->
    path_stat_size p w4 = (Return size_after, w5) ->
    size_before <> size_after ->
    exists w' tr,
      handle p et (self, w) = (Return tt, (self, w')) /\
      trace w' = trace w ++ [SetAdd p] ++ tr ++ [SetRemove p] /\
      tr = [Sleep 1000; Mkdir (destination_dir self); Stat p size_before;
            Sleep 500; Stat p size_after] /\
      Forall (fun a => ~ copies_or_reports a) tr /\
      files w' = files w4 /\
      (forall et2, exists r2 w2' tr2,
         handle p et2 (self, w') = (r2, (self, w2')) /\
         trace w2' = trace w' ++ [SetAdd p] ++ tr2 ++ [SetRemove p]).
Proof.
  intros handle Hh self w p et w1 w2 w3 w4 w5 s1 s2 Hin H1 H2 H3 H4 H5 Hne.
  exists (emitted (SetRemove p) w5),
         [Sleep 1000; Mkdir (destination_dir self); Stat p s1; Sleep 500; Stat p s2].
  assert (Hneq : negb (s1 =? s2)%nat = true)
    by by apply negb_true_iff, Nat.eqb_neq.
  assert (Hrun : handle p et (self, w) = (Return tt, (self, emitted (SetRemove p) w5))).
  { destruct Hh as [-> | ->]; apply handle_run; try done.
    - unfold file_handler._copy_file, bind at 1, get_self. cbn [fst snd].
      unfold bind at 1, io at 1, now_strftime. cbn [fst snd].
      unfold try_except, file_handler._copy_file_try.
      change (destination_dir (mark p self)) with (destination_dir self).
      rewrite (bind_io_Return _ _ _ _ _ _ H1), (bind_io_Return _ _ _ _ _ _ H2),
        (bind_io_Return _ _ _ _ _ _ H3), (bind_io_Return _ _ _ _ _ _ H4),
        (bind_io_Return _ _ _ _ _ _ H5).
      by rewrite Hneq.
    - unfold file_copier._copy_file, bind at 1, get_self. cbn [fst snd].
      unfold bind at 1, io at 1, now_strftime. cbn [fst snd].
      rewrite (bind_io_Return _ _ _ _ _ _ H1).
      unfold try_except, file_copier._copy_file_try.
      change (destination_dir (mark p self)) with (destination_dir self).
      rewrite (bind_io_Return _ _ _ _ _ _ H2),
        (bind_io_Return _ _ _ _ _ _ H3), (bind_io_Return _ _ _ _ _ _ H4),
        (bind_io_Return _ _ _ _ _ _ H5).
      by rewrite Hneq. }
  apply time_sleep_Return in H1 as (T1 & _).
  apply path_mkdir_Return in H2 as (T2 & _).
  apply path_stat_size_Return in H3 as (T3 & _).
  apply time_sleep_Return in H4 as (T4 & _).
  apply path_stat_size_Return in H5 as (T5 & F5 & _).
  split_and!; try done.
  - cbn. rewrite T5, T4, T3, T2, T1. cbn. by rewrite <- !app_assoc.
  - repeat constructor; by intros [].
  - intros et2.
    destruct (handle_processed handle Hh self
                (emitted (SetRemove p) w5) p et2 Hin) as (r2 & w2' & tr2 & ? & ? & ? & ?).
    by exists r2, w2', tr2.
Qed.

(** A producer that appends two bytes to the file during the second sleep. *)
Definition example_world_growing : World :=
  set_others
    [ (fun fs => fs);
      (fun fs => <[example_png := mkFile [x89; x50; x4e; x47; x0d; x0a] 8 420]> fs) ]
    example_world.


(** The world a computation leaves behind. *)
Definition world_after {A} (m : M World A) (w : World) : World := (m w).2.

Definition growing_w1 : World :=
  world_after (time_sleep 1000) (emitted (SetAdd example_png) example_world_growing).
Definition growing_w2 : World :=
  world_after (path_mkdir (destination_dir example_handler)) growing_w1.
Definition growing_w3 : World := world_after (path_stat_size example_png) growing_w2.
Definition growing_w4 : World := world_after (time_sleep 500) growing_w3.
Definition growing_w5 : World := world_after (path_stat_size example_png) growing_w4.


Lemma run_eq {A} (m : M World A) w r : (m w).1 = r -> m w = (r, world_after m w).
Proof. intros <-. unfold world_after. by destruct (m w). Qed.

Lemma unstable_file_is_not_copied_witness :
  exists w' tr,
    file_handler._handle_file_event example_png "modified"
      (example_handler, example_world_growing) = (Return tt, (example_handler, w')) /\
    trace w' = trace example_world_growing
               ++ [SetAdd example_png] ++ tr ++ [SetRemove example_png] /\
    tr = [Sleep 1000; Mkdir (destination_dir example_handler); Stat example_png 4;
          Sleep 500; Stat example_png 6] /\
    Forall (fun a => ~ copies_or_reports a) tr /\
    files w' = files growing_w4 /\
    (forall et2, exists r2 w2' tr2,
       file_handler._handle_file_event example_png et2 (example_handler, w')
       = (r2, (example_handler, w2')) /\
       trace w2' = trace w' ++ [SetAdd example_png] ++ tr2 ++ [SetRemove example_png]).
Proof.
  apply (unstable_file_is_not_copied file_handler._handle_file_event
           (or_introl eq_refl) example_handler example_world_growing
           example_png "modified"
           growing_w1 growing_w2 growing_w3 growing_w4 growing_w5 4 6).
  - cbn. apply not_elem_of_empty.
  - apply run_eq. reflexivity.
  - apply run_eq. reflexivity.
  - apply run_eq. reflexivity.
  - apply run_eq. reflexivity.
  - apply run_eq. reflexivity.
  - cbn. lia.
Defined.

(** ** Failures during a copy *)

(** What [_copy_file] does when its [try] block raises an exception of class
    Exception: the error is printed and logged, and [_copy_file] returns. *)
Lemma copy_file_of_failed_try self p w e s1 :
  file_handler._copy_file_try self p (strftime_IMSp (clock w)) (self, w)
  = (Raise e, s1) ->
  is_Exception e = true ->
  file_handler._copy_file p (self, w)
  = (Return tt,
     (s1.1, emitted (LogError ("Error copying " +:+ name p +:+ ": " +:+ str_exn e))
              (emitted (Print (error_line (strftime_IMSp (clock w)) (name p) (str_exn e)))
                 s1.2))).
Proof.
  intros Htry Hexc.
  unfold file_handler._copy_file, bind at 1, get_self. cbn [fst snd].
  unfold bind at 1, io at 1, now_strftime. cbn [fst snd].
  unfold try_except. rewrite Htry, Hexc. by destruct s1.
Qed.


(** The destination volume fills up at the first write. *)
Definition example_world_disk_full : World :=
  set_faults (replicate 9 None ++ [Some (OSError "No space left on device")])
             example_world.


(** The run on that world, spelled out. *)
Example disk_full_run :
  (file_handler._handle_file_event example_png "modified"
     (example_handler, example_world_disk_full)).1 = Return tt /\
  trace (file_handler._handle_file_event example_png "modified"
           (example_handler, example_world_disk_full)).2.2
  = [SetAdd example_png; Sleep 1000; Mkdir ["inbox"]; Stat example_png 4;
     Sleep 500; Stat example_png 4;
     Print (Fore.GREEN +:+ "[12:00:00 AM] Copying a.png:" +:+ Style.RESET_ALL);
     GetSize example_png 4; OpenRead example_png; OpenWrite ["inbox"; "a.png"];
     Read example_png 4; Close ["inbox"; "a.png"]; Close example_png;
     Print (error_line "12:00:00 AM" "a.png" "No space left on device");
     LogError "Error copying a.png: No space left on device";
     SetRemove example_png].
Proof. split; reflexivity. Qed.

(** The older version has the first sleep outside its [try]: once that
    sleep has returned, the same holds there; a failure of the kinds claimed
    (stat, read, write, metadata) is raised inside the [try]. *)
Lemma legacy_copy_failure_is_caught self w p et w1 :
  good_faults (fun e => is_Exception e = true) w ->
  p ∉ processing_files self ->
  time_sleep 1000 (emitted (SetAdd p) w) = (Return tt, w1) ->
  exists w' tr,
    file_copier._handle_file_event p et (self, w) = (Return tt, (self, w')) /\
    trace w' = trace w ++ [SetAdd p; Sleep 1000] ++ tr ++ [SetRemove p] /\
    Forall io_action tr.
Proof.
  set (F := fun e => is_Exception e = true).
  intros Hw Hin H1.
  assert (Hw1 : good_faults F w1).
  { destruct (@wspec_time_sleep F io_action (allowed F) _ _ 1000
                (emitted (SetAdd p) w) Hw) as (HI & _ & _).
    by rewrite H1 in HI. }
  assert (Hguard : ospec F io_action (escapes F)
            (try_except
               (file_copier._copy_file_try (mark p self) p (strftime_IMSp (clock w)))
               (file_copier._copy_file_except p (strftime_IMSp (clock w))))).
  { eapply ospec_try_except.
    - apply ospec_legacy_copy_file_try.
    - intros e _ _. unfold file_copier._copy_file_except.
      apply ospec_bind; [apply ospec_log_error | intros _; by apply ospec_emit].
    - intros e [He | He] Hexc; [done | congruence]. }
  destruct (Hguard (mark p self, w1) Hw1) as (_ & [Hself (tr & Htr & HP)] & Hok).
  destruct (try_except _ _ (mark p self, w1)) as [r [self2 w2]] eqn:Hrun.
  cbn in Hself, Htr, Hok. subst self2.
  destruct r as [[] | e |]; [| destruct Hok; unfold F in *; congruence | done].
  exists (emitted (SetRemove p) w2), tr. split_and!; [| | done].
  - apply handle_run; [done | | done].
    unfold file_copier._copy_file, bind at 1, get_self. cbn [fst snd].
    unfold bind at 1, io at 1, now_strftime. cbn [fst snd].
    rewrite (bind_io_Return _ _ _ _ _ _ H1). exact Hrun.
  - apply time_sleep_Return in H1 as (T1 & _).
    cbn. rewrite Htr, T1. cbn. by rewrite <- !app_assoc.
Qed.

(** * The copy engine *)

(** The effects of one round of the loop for each chunk: the read, the write,
    and the progress report with the cumulative count. *)
Fixpoint chunk_trace (src dst : path) (total copied : nat) (cs : list (list byte))
  : list action :=
  match cs with
  | [] => []
  | c :: rest =>
      [Read src (List.length c); Write dst c; Progress (copied + List.length c) total]
      ++ chunk_trace src dst total (copied + List.length c) rest
  end.

(** Every chunk but the last has exactly [n] bytes; the last has between 1
    and [n]. *)
Fixpoint chunked (n : nat) (cs : list (list byte)) : Prop :=
  match cs with
  | [] => True
  | c :: rest =>
      match rest with
      | [] => 0 < List.length c <= n
      | _ :: _ => List.length c = n /\ chunked n rest
      end
  end.

Lemma chunked_nonempty n c cs : chunked n (c :: cs) -> 0 < n -> List.concat (c :: cs) <> [].
Proof.
  destruct cs; cbn; intros H Hn; destruct c; cbn in *; try done; lia.
Qed.

(** ** Runs without failures *)

Lemma syscall_quiet {A} (op : M World A) w :
  faults w = [] -> syscall op w = op (pop_fault w).
Proof. intros H. unfold syscall, next_fault. by rewrite H. Qed.

Lemma bind_eq_Return {St A B} (m : M St A) (k : A -> M St B) s a s1 :
  m s = (Return a, s1) -> bind m k s = k a s1.
Proof. intros H. unfold bind. by rewrite H. Qed.

Lemma try_finally_close_Return {A} (body : M World A) f w a w1 :
  body w = (Return a, w1) ->
  try_finally body (file_close f) w = (Return a, emitted (Close (f_path f)) w1).
Proof. intros H. unfold try_finally. by rewrite H. Qed.

Lemma os_path_getsize_quiet p w f :
  faults w = [] -> files w !! p = Some f ->
  os_path_getsize p w
  = (Return (List.length (content f)),
     emitted (GetSize p (List.length (content f))) (pop_fault w)).
Proof.
  intros Hq Hf. unfold os_path_getsize. rewrite syscall_quiet by done.
  cbn. by rewrite Hf.
Qed.

Lemma open_rb_quiet p w f :
  faults w = [] -> files w !! p = Some f ->
  open_rb p w = (Return (mkFileobj p 0), emitted (OpenRead p) (pop_fault w)).
Proof.
  intros Hq Hf. unfold open_rb. rewrite syscall_quiet by done.
  cbn. by rewrite Hf.
Qed.

(** The world after a successful [open(p, 'wb')]. *)
Definition after_open_wb (p : path) (w : World) : World :=
  emitted (OpenWrite p)
    (set_files (<[p := mkFile [] (clock w)
                         match files w !! p with
                         | Some f => mode f
                         | None => default_mode
                         end]> (files w)) (pop_fault w)).

Lemma open_wb_quiet p w :
  faults w = [] -> p ∉ dirs w -> p <> [] -> dir_exists w (parent p) = true ->
  open_wb p w = (Return (mkFileobj p 0), after_open_wb p w).
Proof.
  intros Hq Hdir Hroot Hparent. unfold open_wb. rewrite syscall_quiet by done.
  cbn. rewrite !bool_decide_eq_false_2 by done. cbn.
  change (dir_exists (pop_fault w) (parent p)) with (dir_exists w (parent p)).
  by rewrite Hparent.
Qed.

Lemma shutil_copystat_quiet src dst w s d :
  faults w = [] -> files w !! src = Some s -> files w !! dst = Some d ->
  shutil_copystat src dst w
  = (Return tt,
     emitted (CopyStat src dst)
       (set_files (<[dst := mkFile (content d) (mtime s) (mode s)]> (files w))
                  (pop_fault w))).
Proof.
  intros Hq Hs Hd. unfold shutil_copystat. rewrite syscall_quiet by done.
  cbn. by rewrite Hs, Hd.
Qed.

Lemma copy_loop_nothing_left fuel fsrc fdst n progress copied w :
  faults w = [] -> read_data w fsrc n = [] ->
  file_handler.copy_loop (S fuel) fsrc fdst n progress copied w
  = (Return tt, after_read w fsrc n).
Proof.
  intros Hq Hd. rewrite copy_loop_step. unfold next_fault. by rewrite Hq, Hd.
Qed.

Lemma faults_pop_quiet w : faults w = [] -> faults (pop_fault w) = [].
Proof. intros H. cbn. by rewrite H. Qed.

(** Without failures the loop runs to its end: every round but the last
    moves the position forward, so the rounds allotted are enough. *)
Lemma copy_loop_quiet fuel :
  forall fsrc fdst n progress copied w sf,
    faults w = [] ->
    f_path fsrc <> f_path fdst ->
    files w !! f_path fsrc = Some sf ->
    file_handler.total_size progress = List.length (content sf) ->
    List.length (content sf) - f_pos fsrc < fuel ->
    exists w',
      file_handler.copy_loop fuel fsrc fdst n progress copied w = (Return tt, w') /\
      faults w' = [] /\
      files w' !! f_path fsrc = Some sf /\
      (is_Some (files w !! f_path fdst) -> is_Some (files w' !! f_path fdst)).
Proof.
  induction fuel as [| fuel IH];
    intros fsrc fdst n progress copied w sf Hq Hne Hsf Htot Hfuel; [lia |].
  rewrite copy_loop_step. unfold next_fault at 1. rewrite Hq.
  assert (Hdata : read_data w fsrc n = take n (drop (f_pos fsrc) (content sf)))
    by (unfold read_data; by rewrite Hsf).
  destruct (read_data w fsrc n) as [| b l] eqn:Hd; cbn zeta.
  - exists (after_read w fsrc n). split_and!; try done.
    by apply faults_pop_quiet.
  - assert (Hlen : 0 < List.length (b :: l) <= List.length (content sf) - f_pos fsrc).
    { rewrite Hdata, length_take, length_drop.
      assert (0 < List.length (b :: l)) by (cbn; lia).
      rewrite Hdata, length_take, length_drop in *. lia. }
    unfold next_fault at 1.
    assert (Hq1 : faults (after_read w fsrc n) = []) by by apply faults_pop_quiet.
    rewrite Hq1.
    destruct (file_handler.total_size progress =? 0)%nat eqn:Hz.
    { apply Nat.eqb_eq in Hz. lia. }
    set (w3 := after_update _ _ _).
    destruct (IH (mkFileobj (f_path fsrc) (f_pos fsrc + List.length (b :: l)))
                 (mkFileobj (f_path fdst) (f_pos fdst + List.length (b :: l)))
                 n progress (copied + List.length (b :: l)) w3 sf)
      as (w' & Hrun & Hq' & Hsf' & Hdf'); try done.
    + unfold w3, after_update, after_write. cbn. by rewrite Hq.
    + unfold w3, after_update, after_write. cbn.
      destruct (files w !! f_path fdst); [by rewrite lookup_insert_ne | done].
    + cbn [f_pos]. lia.
    + exists w'. split_and!; try done.
      intros [df Hdf]. apply Hdf'. unfold w3, after_update, after_write. cbn.
      rewrite Hdf, lookup_insert_eq. by eexists.
Qed.

Section CopyLoopReturn.

Import file_handler.

Lemma copy_loop_Return fuel : forall fsrc fdst n progress copied w w' sf df,
  0 < n ->
  f_path fsrc <> f_path fdst ->
  files w !! f_path fsrc = Some sf ->
  files w !! f_path fdst = Some df ->
  copy_loop fuel fsrc fdst n progress copied w = (Return tt, w') ->
  exists cs df',
    List.concat cs = drop (f_pos fsrc) (content sf) /\
    chunked n cs /\
    trace w' = trace w
               ++ chunk_trace (f_path fsrc) (f_path fdst) (total_size progress) copied cs
               ++ [Read (f_path fsrc) 0] /\
    files w' !! f_path fsrc = Some sf /\
    files w' !! f_path fdst = Some df' /\
    content df' = content df ++ List.concat cs /\
    mode df' = mode df /\
    (cs <> [] -> total_size progress <> 0).
Proof.
  induction fuel as [| fuel IH];
    intros fsrc fdst n progress copied w w' sf df Hn Hne Hsf Hdf Hrun; [done |].
  rewrite copy_loop_step in Hrun.
  destruct (next_fault w); [done |].
  assert (Hdata : read_data w fsrc n = take n (drop (f_pos fsrc) (content sf)))
    by (unfold read_data; by rewrite Hsf).
  destruct (read_data w fsrc n) as [| b l] eqn:Hd; cbn zeta in Hrun.
  - injection Hrun as <-. exists [], df. cbn.
    symmetry in Hdata. apply take_nil_length in Hdata as [-> | Hdata]; [lia |].
    unfold after_read. rewrite Hd. cbn. by rewrite Hdata, app_nil_r.
  - destruct (next_fault (after_read w fsrc n)); [done |].
    destruct (total_size progress =? 0)%nat eqn:Htot; [done |].
    apply Nat.eqb_neq in Htot.
    eapply IH in Hrun as (cs & df' & Hcat & Hch & Htr & Hsf' & Hdf' & Hcont & Hmode & _);
      [| done | done | |].
    2:{ cbn. rewrite Hdf. by rewrite lookup_insert_ne. }
    2:{ cbn. rewrite Hdf. by rewrite lookup_insert_eq. }
    cbn [f_path f_pos content mode] in *.
    exists ((b :: l) :: cs), df'.
    assert (Hsplit : (b :: l) ++ drop (f_pos fsrc + List.length (b :: l)) (content sf)
                     = drop (f_pos fsrc) (content sf)).
    { rewrite Hdata, length_take, length_drop.
      rewrite <- drop_drop.
      destruct (decide (n <= List.length (content sf) - f_pos fsrc)).
      - rewrite Nat.min_l by done. apply take_drop.
      - rewrite Nat.min_r by lia.
        rewrite (drop_ge (drop _ _)) by (rewrite length_drop; lia).
        rewrite take_ge by (rewrite length_drop; lia). by rewrite app_nil_r. }
    split_and!; try done.
    + cbn [List.concat]. by rewrite Hcat.
    + cbn [chunked]. destruct cs as [| c cs'].
      * assert (Hpos : 0 < List.length (b :: l)) by (cbn; lia).
        rewrite Hdata, length_take in *. lia.
      * split; [| done].
        pose proof (chunked_nonempty _ _ _ Hch Hn) as Hnz. rewrite Hcat in Hnz.
        rewrite Hdata, length_take, length_drop.
        destruct (decide (n <= List.length (content sf) - f_pos fsrc)); [lia |].
        exfalso. apply Hnz. rewrite Hdata, length_take, length_drop.
        apply drop_ge. lia.
    + rewrite Htr. unfold after_update, after_write, after_read. cbn.
      rewrite Hd. cbn. by rewrite <- !app_assoc.
    + rewrite Hcont. cbn [List.concat]. by rewrite <- app_assoc.
Qed.

End CopyLoopReturn.

Lemma copy_with_progress_Return src dst n w w' :
  0 < n ->
  file_handler.copy_with_progress src dst n w = (Return tt, w') ->
  exists sf cs sf',
    files w !! src = Some sf /\
    List.concat cs = (if decide (src = dst) then [] else content sf) /\
    chunked n cs /\
    trace w' = trace w
               ++ [GetSize src (List.length (content sf)); OpenRead src; OpenWrite dst]
               ++ chunk_trace src dst (List.length (content sf)) 0 cs
               ++ [Read src 0; Close dst; Close src; CopyStat src dst] /\
    files w' !! dst = Some sf' /\
    files w' !! src = Some sf' /\
    content sf' = List.concat cs /\
    mode sf' = mode sf /\
    (src <> dst -> sf' = sf).
Proof.
  intros Hn Hrun. unfold file_handler.copy_with_progress in Hrun.
  apply bind_Return_inv in Hrun as (total & w1 & H1 & Hrun).
  apply os_path_getsize_Return in H1 as (Ew1 & _ & Hsize).
  apply bind_Return_inv in Hrun as ([] & w5 & Hblock & Hstat).
  apply bind_Return_inv in Hblock as (fsrc & w2 & H2 & Hblock).
  apply open_rb_Return in H2 as (-> & [sf Hsf] & _ & Ew2).
  apply try_finally_close_inv in Hblock as (w4' & Hblock & _ & Ew5).
  specialize (Ew5 ltac:(done)).
  apply bind_Return_inv in Hblock as (fdst & w3 & H3 & Hloop).
  apply open_wb_Return in H3 as (-> & _ & _ & Ew3).
  apply try_finally_close_inv in Hloop as (w4 & Hloop & _ & Ew4').
  specialize (Ew4' ltac:(done)).
  cbn [f_path] in *.
  assert (Hsf0 : files w !! src = Some sf) by (by rewrite Ew1 in Hsf).
  rewrite Hsf0 in Hsize. subst total.
  assert (Htr3 : trace w3 = trace w ++ [GetSize src (List.length (content sf));
                                        OpenRead src; OpenWrite dst]).
  { rewrite Ew3, Ew2, Ew1. cbn. by rewrite <- !app_assoc. }
  assert (Hf3 : files w3 = <[dst := mkFile [] (clock w)
                               match files w !! dst with
                               | Some f => mode f
                               | None => default_mode
                               end]> (files w)).
  { rewrite Ew3, Ew2, Ew1. done. }
  exists sf.
  destruct (decide (src = dst)) as [<- | Hne].
  - (* the source is its own destination: it was truncated on opening *)
    rewrite Hsf0 in Hf3.
    rewrite copy_loop_step in Hloop.
    destruct (next_fault w3); [done |].
    assert (Hd : read_data w3 (mkFileobj src 0) n = []).
    { unfold read_data. cbn. rewrite Hf3, lookup_insert_eq. cbn. by rewrite take_nil. }
    rewrite Hd in Hloop. cbn zeta in Hloop. injection Hloop as <-.
    apply shutil_copystat_Return in Hstat as (s & d & Hs & Hd' & _ & ->).
    rewrite Ew5, Ew4' in Hs. cbn in Hs. rewrite Hf3, lookup_insert_eq in Hs.
    injection Hs as <-.
    rewrite Ew5, Ew4' in Hd'. cbn in Hd'. rewrite Hf3, lookup_insert_eq in Hd'.
    injection Hd' as <-.
    exists [], (mkFile [] (clock w) (mode sf)). cbn.
    rewrite lookup_insert_eq. split_and!; try done.
    rewrite Ew5, Ew4'. unfold after_read. cbn. rewrite Hd, Htr3. cbn.
    by rewrite <- !app_assoc.
  - eapply (copy_loop_Return _ _ _ _ _ _ _ _ sf) in Hloop
      as (cs & df' & Hcat & Hch & Htr & Hsf' & Hdf' & Hcont & Hmode & _);
      [| done | done | |].
    2:{ cbn. by rewrite Hf3, lookup_insert_ne. }
    2:{ cbn. by rewrite Hf3, lookup_insert_eq. }
    cbn [f_path f_pos content mode file_handler.total_size] in *.
    rewrite drop_0 in Hcat.
    apply shutil_copystat_Return in Hstat as (s & d & Hs & Hd & _ & ->).
    rewrite Ew5, Ew4' in Hs, Hd. cbn in Hs, Hd.
    rewrite Hsf' in Hs. injection Hs as <-.
    rewrite Hdf' in Hd. injection Hd as <-.
    exists cs, sf. cbn.
    rewrite lookup_insert_eq, lookup_insert_ne by done.
    rewrite Ew5, Ew4'. cbn. rewrite Hsf', Htr, Htr3, Hcont, Hcat.
    split_and!; try done.
    + by rewrite <- !app_assoc.
    + by destruct sf.
Qed.

(** When no system call fails, the source is a regular file and the
    destination can be opened for writing, the copy returns normally. *)
Lemma copy_with_progress_quiet src dst n w sf :
  files w !! src = Some sf ->
  faults w = [] ->
  dst ∉ dirs w -> dst <> [] -> dir_exists w (parent dst) = true ->
  exists w', file_handler.copy_with_progress src dst n w = (Return tt, w').
Proof.
  intros Hsf Hq Hdir Hroot Hparent.
  unfold file_handler.copy_with_progress.
  rewrite (bind_eq_Return _ _ _ _ _ (os_path_getsize_quiet _ _ _ Hq Hsf)).
  set (w1 := emitted _ (pop_fault w)).
  assert (Hq1 : faults w1 = []) by by apply faults_pop_quiet.
  assert (Hsf1 : files w1 !! src = Some sf) by done.
  set (w2 := emitted (OpenRead src) (pop_fault w1)).
  assert (Hq2 : faults w2 = []) by by apply faults_pop_quiet.
  set (w3 := after_open_wb dst w2).
  assert (Hq3 : faults w3 = []) by by apply faults_pop_quiet.
  assert (Hdst3 : is_Some (files w3 !! dst)).
  { unfold w3, after_open_wb. cbn. rewrite lookup_insert_eq. by eexists. }
  assert (Hloop : exists w4,
    file_handler.copy_loop (S (List.length (content sf))) (mkFileobj src 0)
      (mkFileobj dst 0) n (file_handler.mkProgressBar (List.length (content sf)) 50) 0 w3
    = (Return tt, w4) /\ faults w4 = [] /\
    is_Some (files w4 !! src) /\ is_Some (files w4 !! dst)).
  { destruct (decide (src = dst)) as [<- | Hne].
    - exists (after_read w3 (mkFileobj src 0) n).
      assert (Hd : read_data w3 (mkFileobj src 0) n = []).
      { unfold read_data, w3, after_open_wb. cbn [f_path f_pos].
        cbn. rewrite lookup_insert_eq. cbn. by rewrite take_nil. }
      split_and!; [by apply copy_loop_nothing_left | by apply faults_pop_quiet | done ..].
    - destruct (copy_loop_quiet (S (List.length (content sf))) (mkFileobj src 0)
                  (mkFileobj dst 0) n
                  (file_handler.mkProgressBar (List.length (content sf)) 50) 0 w3 sf)
        as (w4 & Hrun & Hq4 & Hsf4 & Hdf4); try done.
      + unfold w3, after_open_wb. cbn. by rewrite lookup_insert_ne.
      + cbn. lia.
      + exists w4. split_and!; [done | done | by eexists | by apply Hdf4]. }
  destruct Hloop as (w4 & Hloop & Hq4 & [s4 Hs4] & [d4 Hd4]).
  set (w6 := emitted (Close src) (emitted (Close dst) w4)).
  assert (Hblock :
    (fsrc <- open_rb src;;
     try_finally
       (fdst <- open_wb dst;;
        try_finally
          (file_handler.copy_loop (S (List.length (content sf))) fsrc fdst n
             (file_handler.mkProgressBar (List.length (content sf)) 50) 0)
          (file_close fdst))
       (file_close fsrc)) w1 = (Return tt, w6)).
  { rewrite (bind_eq_Return _ _ _ _ _ (open_rb_quiet _ _ _ Hq1 Hsf1)).
    fold w2.
    apply (try_finally_close_Return _ (mkFileobj src 0)).
    rewrite (bind_eq_Return _ _ _ _ _
               (open_wb_quiet dst w2 Hq2 Hdir Hroot Hparent)).
    fold w3.
    by apply (try_finally_close_Return _ (mkFileobj dst 0)). }
  rewrite (bind_eq_Return _ _ _ _ _ Hblock).
  assert (Hq6 : faults w6 = []) by done.
  assert (Hs6 : files w6 !! src = Some s4) by done.
  assert (Hd6 : files w6 !! dst = Some d4) by done.
  rewrite (shutil_copystat_quiet _ _ _ _ _ Hq6 Hs6 Hd6). by eexists.
Qed.

(** C4. With the chunk size of 8192 bytes: when no system call fails, the
    source is a regular file and the destination can be opened, the copy
    succeeds; and a copy that succeeds read the source in chunks of 8192
    bytes (the last one possibly shorter), wrote each chunk to the
    destination and reported the cumulative count after it, and only then,
    with both files closed, propagated modification time and permission
    bits; at the end the destination has the content of the source (and,
    when they are different files, is equal to it in content, time and
    mode). *)
Theorem copy_with_progress_streams_in_chunks :
  forall (src dst : path) (w : World),
    (forall sf,
       files w !! src = Some sf -> faults w = [] ->
       dst ∉ dirs w -> dst <> [] -> dir_exists w (parent dst) = true ->
       exists w', file_handler.copy_with_progress src dst 8192 w = (Return tt, w')) /\
    (forall w',
       file_handler.copy_with_progress src dst 8192 w = (Return tt, w') ->
       exists sf cs sf',
         files w !! src = Some sf /\
         List.concat cs = (if decide (src = dst) then [] else content sf) /\
         chunked 8192 cs /\
         trace w' = trace w
                    ++ [GetSize src (List.length (content sf)); OpenRead src; OpenWrite dst]
                    ++ chunk_trace src dst (List.length (content sf)) 0 cs
                    ++ [Read src 0; Close dst; Close src; CopyStat src dst] /\
         files w' !! dst = Some sf' /\
         files w' !! src = Some sf' /\
         content sf' = List.concat cs /\
         mode sf' = mode sf /\
         (src <> dst -> sf' = sf)).
Proof.
  intros src dst w. split.
  - intros sf Hsf Hq Hdir Hroot Hparent. by eapply copy_with_progress_quiet.
  - intros w' Hrun. apply copy_with_progress_Return; [| done].
    apply Nat.ltb_lt. reflexivity.
Qed.

(** A file of 10000 bytes, one full chunk and a shorter one. *)
Definition example_world_big : World :=
  mkWorld (<[example_png := mkFile (replicate 10000 x00) 7 420]> ∅)
          {[ ["inbox"] ]} 0 [] [] [] ∅ [].

Lemma copy_with_progress_streams_in_chunks_witness :
  (exists w',
     file_handler.copy_with_progress example_png ["inbox"; "a.png"] 8192 example_world_big
     = (Return tt, w')) /\
  exists sf cs sf',
    files example_world_big !! example_png = Some sf /\
    List.concat cs = (if decide (example_png = ["inbox"; "a.png"]) then [] else content sf) /\
    chunked 8192 cs /\
    trace (world_after (file_handler.copy_with_progress example_png ["inbox"; "a.png"] 8192)
             example_world_big)
    = trace example_world_big
      ++ [GetSize example_png (List.length (content sf)); OpenRead example_png;
          OpenWrite ["inbox"; "a.png"]]
      ++ chunk_trace example_png ["inbox"; "a.png"] (List.length (content sf)) 0 cs
      ++ [Read example_png 0; Close ["inbox"; "a.png"]; Close example_png;
          CopyStat example_png ["inbox"; "a.png"]] /\
    files (world_after (file_handler.copy_with_progress example_png ["inbox"; "a.png"] 8192)
             example_world_big) !! ["inbox"; "a.png"] = Some sf' /\
    files (world_after (file_handler.copy_with_progress example_png ["inbox"; "a.png"] 8192)
             example_world_big) !! example_png = Some sf' /\
    content sf' = List.concat cs /\
    mode sf' = mode sf /\
    (example_png <> ["inbox"; "a.png"] -> sf' = sf).
Proof.
  destruct (copy_with_progress_streams_in_chunks example_png ["inbox"; "a.png"]
              example_world_big) as [Hruns Hshape].
  split.
  - apply (Hruns (mkFile (replicate 10000 x00) 7 420)).
    + reflexivity.
    + reflexivity.
    + intros Hin. cbn in Hin. apply elem_of_singleton in Hin. discriminate Hin.
    + discriminate.
    + reflexivity.
  - apply Hshape. apply run_eq. reflexivity.
Defined.

(** ** Zero-byte sources *)

Lemma zero_byte_copy_quiet src dst n w sf :
  files w !! src = Some sf ->
  content sf = [] ->
  faults w = [] ->
  dst ∉ dirs w -> dst <> [] -> dir_exists w (parent dst) = true ->
  exists w' df,
    file_handler.copy_with_progress src dst n w = (Return tt, w') /\
    files w' !! dst = Some df /\ content df = [].
Proof.
  intros Hsf Hempty Hq Hdir Hroot Hparent.
  unfold file_handler.copy_with_progress.
  rewrite (bind_eq_Return _ _ _ _ _ (os_path_getsize_quiet _ _ _ Hq Hsf)).
  set (w1 := emitted _ (pop_fault w)).
  assert (Hq1 : faults w1 = []) by by apply faults_pop_quiet.
  assert (Hsf1 : files w1 !! src = Some sf) by done.
  set (w2 := emitted (OpenRead src) (pop_fault w1)).
  assert (Hq2 : faults w2 = []) by by apply faults_pop_quiet.
  set (w3 := after_open_wb dst w2).
  assert (Hq3 : faults w3 = []) by by apply faults_pop_quiet.
  assert (Hsf3 : exists sf3, files w3 !! src = Some sf3 /\ content sf3 = []).
  { unfold w3, after_open_wb. cbn. destruct (decide (dst = src)) as [-> |].
    - rewrite lookup_insert_eq. by eexists.
    - rewrite lookup_insert_ne by done. by exists sf. }
  destruct Hsf3 as (sf3 & Hsf3 & Hempty3).
  assert (Hd : read_data w3 (mkFileobj src 0) n = []).
  { unfold read_data. cbn [f_path f_pos]. rewrite Hsf3, Hempty3.
    by rewrite drop_nil, take_nil. }
  set (w4 := after_read w3 (mkFileobj src 0) n).
  set (w6 := emitted (Close src) (emitted (Close dst) w4)).
  assert (Hq6 : faults w6 = []) by by apply faults_pop_quiet.
  assert (Hblock :
    (fsrc <- open_rb src;;
     try_finally
       (fdst <- open_wb dst;;
        try_finally
          (file_handler.copy_loop (S (List.length (content sf))) fsrc fdst n
             (file_handler.mkProgressBar (List.length (content sf)) 50) 0)
          (file_close fdst))
       (file_close fsrc)) w1 = (Return tt, w6)).
  { rewrite (bind_eq_Return _ _ _ _ _ (open_rb_quiet _ _ _ Hq1 Hsf1)).
    fold w2.
    apply (try_finally_close_Return _ (mkFileobj src 0)).
    rewrite (bind_eq_Return _ _ _ _ _
               (open_wb_quiet dst w2 Hq2 Hdir Hroot Hparent)).
    fold w3.
    apply (try_finally_close_Return _ (mkFileobj dst 0)).
    by apply copy_loop_nothing_left. }
  rewrite (bind_eq_Return _ _ _ _ _ Hblock).
  assert (Hdst6 : exists d, files w6 !! dst = Some d /\ content d = []).
  { unfold w6, w4, after_read, w3, after_open_wb. cbn. rewrite lookup_insert_eq.
    by eexists. }
  destruct Hdst6 as (d & Hdst6 & Hd6).
  assert (Hsf6 : files w6 !! src = Some sf3) by done.
  rewrite (shutil_copystat_quiet _ _ _ _ _ Hq6 Hsf6 Hdst6).
  eexists _, _. split; [done |]. cbn. by rewrite lookup_insert_eq.
Qed.

(** C10. For a zero-byte source file, [copy_with_progress] never hangs and
    never calls [ProgressBar.update]: no progress report appears in the
    trace, and the division by [total_size] (which is 0 here) is never
    reached, so ZeroDivisionError can only come from outside; and when no
    system call fails and the destination can be opened, it returns normally
    and leaves a zero-byte destination file. *)
Theorem zero_byte_copy_never_updates_progress :
  forall (src dst : path) (chunk_size : nat) (w : World) (sf : file)
         (r : outcome unit) (w' : World),
    files w !! src = Some sf ->
    content sf = [] ->
    file_handler.copy_with_progress src dst chunk_size w = (r, w') ->
    r <> Hang /\
    (exists tr, trace w' = trace w ++ tr /\
                Forall (fun a => forall c t, a <> Progress c t) tr) /\
    (good_faults (fun e => e <> ZeroDivisionError) w -> r <> Raise ZeroDivisionError) /\
    (faults w = [] -> dst ∉ dirs w -> dst <> [] -> dir_exists w (parent dst) = true ->
     r = Return tt /\ exists df, files w' !! dst = Some df /\ content df = []).
Proof.
  intros src dst n w sf r w' Hsf Hempty Hrun.
  assert (Hsize : size_of w src = 0) by (unfold size_of; by rewrite Hsf, Hempty).
  split_and!.
  - destruct (copy_with_progress_good (fun _ => True) _ _ _ _ _ _
                ltac:(by apply Forall_forall) Hrun) as (_ & _ & Hok).
    by destruct r.
  - destruct (copy_with_progress_good (fun _ => True) _ _ _ _ _ _
                ltac:(by apply Forall_forall) Hrun) as (_ & (tr & Htr & HP) & _).
    exists tr. split; [done |]. rewrite Hsize in HP.
    eapply Forall_impl; [exact HP |].
    intros a [Ha | [Hz _]] c t ->; [done | by apply Hz].
  - intros Hw ->.
    destruct (copy_with_progress_good _ _ _ _ _ _ _ Hw Hrun) as (_ & _ & Hok).
    rewrite Hsize in Hok. cbn in Hok.
    destruct Hok as [He | [He | [Hz _]]]; [by apply He | done | by apply Hz].
  - intros Hq Hdir Hroot Hparent.
    destruct (zero_byte_copy_quiet src dst n w sf Hsf Hempty Hq Hdir Hroot Hparent)
      as (w2 & df & Hrun2 & Hdf & Hcont).
    rewrite Hrun in Hrun2. injection Hrun2 as -> ->.
    split; [done |]. by exists df.
Qed.

(** An empty file next to an existing inbox. *)
Definition example_world_empty : World :=
  mkWorld (<[example_png := mkFile [] 7 420]> ∅)
          {[ ["inbox"] ]} 0 [] [] [] ∅ [].

Lemma zero_byte_copy_never_updates_progress_witness :
  (file_handler.copy_with_progress example_png ["inbox"; "a.png"] 8192
     example_world_empty).1 = Return tt /\
  (exists tr,
     trace (world_after
              (file_handler.copy_with_progress example_png ["inbox"; "a.png"] 8192)
              example_world_empty)
     = trace example_world_empty ++ tr /\
     Forall (fun a => forall c t, a <> Progress c t) tr) /\
  exists df,
    files (world_after
             (file_handler.copy_with_progress example_png ["inbox"; "a.png"] 8192)
             example_world_empty) !! ["inbox"; "a.png"] = Some df /\
    content df = [].
Proof.
  destruct (zero_byte_copy_never_updates_progress
              example_png ["inbox"; "a.png"] 8192 example_world_empty
              (mkFile [] 7 420) (Return tt)
              (world_after
                 (file_handler.copy_with_progress example_png ["inbox"; "a.png"] 8192)
                 example_world_empty))
    as (_ & Htrace & _ & Hquiet).
  - reflexivity.
  - reflexivity.
  - apply run_eq. reflexivity.
  - split_and!.
    + reflexivity.
    + exact Htrace.
    + apply Hquiet.
      * reflexivity.
      * intros Hin. cbn in Hin. apply elem_of_singleton in Hin. discriminate Hin.
      * discriminate.
      * reflexivity.
Defined.

(** * Claims about folder names *)

Example strip_example : strip "  01-04 " = "01-04".
Proof. reflexivity. Qed.

(** The strings of the form two digits, hyphen, two digits. *)
Definition DD_DD (s : string) : Prop :=
  exists d1 d2 d3 d4,
    is_digit d1 = true /\ is_digit d2 = true /\
    is_digit d3 = true /\ is_digit d4 = true /\
    s = String d1 (String d2 (String "-" (String d3 (String d4 EmptyString)))).

Definition format_error : exn :=
  ValidationError "Folder name must be in format XX-XX (e.g., 01-04)".

Lemma nat_of_ascii_10 c : (nat_of_ascii c =? 10)%nat = true -> String c EmptyString = NL.
Proof.
  intros H%Nat.eqb_eq. unfold NL. f_equal.
  by rewrite <- (ascii_nat_embedding c), H.
Qed.

(** What [re.match(r'^\d{2}-\d{2}$', s)] accepts: the form DD-DD, also when
    one newline follows it. *)
Lemma re_match_pattern s :
  re_match utils.pattern s = true <-> DD_DD s \/ exists s0, DD_DD s0 /\ s = s0 +:+ NL.
Proof.
  unfold re_match, utils.pattern. split.
  - cbn [match_here andb].
    destruct s as [| c1 [| c2 [| c3 [| c4 [| c5 s]]]]];
      cbn -[Ascii.eqb is_digit Nat.eqb nat_of_ascii]; try done;
      rewrite ?andb_false_r; try done.
    intros H.
    apply andb_prop in H as [D1 H]. apply andb_prop in H as [D2 H].
    apply andb_prop in H as [E3 H]. apply andb_prop in H as [D4 H].
    apply andb_prop in H as [D5 H].
    apply Ascii.eqb_eq in E3 as <-.
    destruct s as [| c6 [| c7 s]]; [| | done].
    + left. by exists c1, c2, c4, c5.
    + right. apply andb_prop in H as [H _]. apply nat_of_ascii_10 in H.
      exists (String c1 (String c2 (String "-" (String c4 (String c5 EmptyString))))).
      split; [by exists c1, c2, c4, c5 |]. cbv [String.append]. by rewrite H.
  - intros [(d1 & d2 & d3 & d4 & H1 & H2 & H3 & H4 & ->)
           | (s0 & (d1 & d2 & d3 & d4 & H1 & H2 & H3 & H4 & ->) & ->)];
      cbv [NL String.append]; cbn -[is_digit]; by rewrite H1, H2, H3, H4.
Qed.

Lemma validate_folder_name_cases s :
  (utils.validate_folder_name s = Return true /\ re_match utils.pattern s = true) \/
  (utils.validate_folder_name s = Raise format_error /\ re_match utils.pattern s = false).
Proof.
  unfold utils.validate_folder_name. destruct (re_match utils.pattern s); auto.
Qed.

Lemma append_nil_l (s : string) : EmptyString +:+ s = s.
Proof. reflexivity. Qed.

Lemma append_cons_l (a : ascii) (s t : string) : String a s +:+ t = String a (s +:+ t).
Proof. reflexivity. Qed.

Lemma append_assoc' (s t u : string) : (s +:+ t) +:+ u = s +:+ (t +:+ u).
Proof.
  induction s as [| a s IH]; [by rewrite !append_nil_l |].
  by rewrite !append_cons_l, IH.
Qed.

(** What [rstrip] keeps does not end in whitespace. *)
Lemma rstrip_not_space_end s c s0 :
  rstrip s = s0 +:+ String c EmptyString -> is_space c = false.
Proof.
  revert s0. induction s as [| a s IH]; intros s0.
  - cbn [rstrip]. destruct s0; [rewrite append_nil_l | rewrite append_cons_l]; done.
  - cbn [rstrip]. destruct (rstrip s) as [| k kept] eqn:Hr.
    + destruct (is_space a) eqn:Ha.
      * destruct s0; [rewrite append_nil_l | rewrite append_cons_l]; done.
      * destruct s0 as [| b s0]; [rewrite append_nil_l | rewrite append_cons_l].
        -- by intros [= <-].
        -- intros [= -> H]. destruct s0; [rewrite append_nil_l in H
                                         | rewrite append_cons_l in H]; done.
    + destruct s0 as [| b s0]; [rewrite append_nil_l | rewrite append_cons_l].
      * done.
      * intros [= -> H]. by eapply IH.
Qed.

Lemma lstrip_suffix s : exists pre, s = pre +:+ lstrip s.
Proof.
  induction s as [| a s [pre IH]]; [by exists EmptyString |]. cbn [lstrip].
  destruct (is_space a).
  - exists (String a pre). by rewrite append_cons_l, <- IH.
  - by exists EmptyString.
Qed.

Lemma strip_not_space_end s c s0 :
  strip s = s0 +:+ String c EmptyString -> is_space c = false.
Proof.
  unfold strip. destruct (lstrip_suffix (rstrip s)) as [pre Hpre]. intros H.
  rewrite H, <- append_assoc' in Hpre. by eapply rstrip_not_space_end.
Qed.

(** After [strip()], the pattern accepts the form DD-DD only. *)
Lemma re_match_strip line :
  re_match utils.pattern (strip line) = true <-> DD_DD (strip line).
Proof.
  rewrite re_match_pattern. split; [| by left].
  intros [H | (s0 & _ & H)]; [done |].
  apply strip_not_space_end in H. done.
Qed.

Definition format_error_line : string :=
  Fore.RED +:+ "Error: " +:+ "Folder name must be in format XX-XX (e.g., 01-04)"
  +:+ Style.RESET_ALL.

(** What the operator sees for a list of rejected lines: a prompt and an
    error for each. *)
Definition reprompts (bad : list string) : list action :=
  flat_map (fun _ => [Input utils.prompt; Print format_error_line]) bad.

Lemma input_quiet prompt w line rest :
  faults w = [] -> stdin w = line :: rest ->
  input prompt w = (Return line, set_stdin rest (emitted (Input prompt) (pop_fault w))).
Proof.
  intros Hq Hin. unfold input. rewrite syscall_quiet by done. cbn. by rewrite Hin.
Qed.

Lemma get_valid_folder_name_loop_spec bad :
  forall fuel w good rest,
    faults w = [] ->
    Forall (fun l => re_match utils.pattern (strip l) = false) bad ->
    re_match utils.pattern (strip good) = true ->
    stdin w = bad ++ good :: rest ->
    List.length bad < fuel ->
    exists w',
      utils.get_valid_folder_name_loop fuel w = (Return (strip good), w') /\
      stdin w' = rest /\ faults w' = [] /\
      trace w' = trace w ++ reprompts bad ++ [Input utils.prompt] /\
      files w' = files w /\ dirs w' = dirs w /\ observers w' = observers w /\
      clock w' = clock w.
Proof.
  induction bad as [| l bad IH]; intros fuel w good rest Hq Hbad Hgood Hin Hfuel;
    (destruct fuel as [| fuel]; [cbn in Hfuel; lia |]); cbn [utils.get_valid_folder_name_loop].
  - rewrite (bind_eq_Return _ _ _ _ _ (input_quiet _ _ _ _ Hq Hin)).
    unfold utils.validate_folder_name. rewrite Hgood. cbn.
    eexists. split; [done |]. split_and!; cbn; rewrite ?Hq; done.
  - apply Forall_cons in Hbad as [Hl Hbad].
    rewrite (bind_eq_Return _ _ _ _ _ (input_quiet _ _ _ _ Hq Hin)).
    unfold utils.validate_folder_name. rewrite Hl. cbn [negb].
    set (w1 := set_stdin _ _).
    rewrite (bind_eq_Return _ _ w1 tt (emitted (Print format_error_line) w1))
      by done.
    destruct (IH fuel (emitted (Print format_error_line) w1) good rest)
      as (w' & Hrun & Hin' & Hq' & Htr & Hf & Hd & Ho & Hc); try done.
    + cbn. by rewrite Hq.
    + cbn in Hfuel. lia.
    + exists w'. split_and!; try done.
      rewrite Htr. cbn. by rewrite <- !app_assoc.
Qed.

Lemma validate_folder_name_true s :
  utils.validate_folder_name s = Return true <-> re_match utils.pattern s = true.
Proof.
  unfold utils.validate_folder_name. by destruct (re_match utils.pattern s).
Qed.




(** * Claims about the monitor *)

Definition example_monitor : FileMonitor :=
  mkFileMonitor ["output"] ["inbox"] None None true false.

Definition example_world_menu : World :=
  set_stdin ["1"; "01-04"; "2"] example_world.

(** ** The watch session *)

(** No thread came to life between [w] and [w']: the same observers, and one
    that is alive in [w'] was alive in [w]. *)
Definition calmer (w w' : World) : Prop :=
  dom (observers w') = dom (observers w) /\
  forall id o', observers w' !! id = Some o' ->
    exists o, observers w !! id = Some o /\
              (alive (status o') = true -> alive (status o) = true).

#[global] Instance calmer_preorder : PreOrder calmer.
Proof.
  split.
  - intros w. split; [done |]. intros id o Ho. by exists o.
  - intros w1 w2 w3 [D12 H12] [D23 H23]. split; [congruence |].
    intros id o3 Ho3.
    destruct (H23 id o3 Ho3) as (o2 & Ho2 & Ha2).
    destruct (H12 id o2 Ho2) as (o1 & Ho1 & Ha1).
    exists o1. split; [done | auto].
Qed.

Lemma calmer_same w w' : observers w' = observers w -> calmer w w'.
Proof. intros H. split; [by rewrite H |]. intros id o Ho. rewrite H in Ho. by exists o. Qed.

Lemma calmer_update w id o st :
  observers w !! id = Some o ->
  (alive st = true -> alive (status o) = true) ->
  calmer w (set_observers (<[id := mkObserver st (watches o)]> (observers w))
                          (pop_fault w)).
Proof.
  intros Ho Hst. split.
  - cbn. by apply dom_insert_lookup_L.
  - intros j o' Hj. cbn in Hj. destruct (decide (id = j)) as [<- |].
    + rewrite lookup_insert_eq in Hj. injection Hj as <-. by exists o.
    + rewrite lookup_insert_ne in Hj by done. by exists o'.
Qed.

Lemma syscall_inv {A} (op : M World A) w r w' :
  syscall op w = (r, w') ->
  (exists e, next_fault w = Some e /\ r = Raise e /\ w' = pop_fault w) \/
  (next_fault w = None /\ op (pop_fault w) = (r, w')).
Proof.
  unfold syscall. destruct (next_fault w) as [e |]; intros H.
  - left. injection H as <- <-. by exists e.
  - by right.
Qed.

Lemma observer_stop_run id w r w' :
  observer_stop id w = (r, w') ->
  r <> Hang /\ calmer w w' /\
  (r = Return tt ->
     trace w' = trace w ++ [ObserverStop id] /\
     exists o, observers w' !! id = Some o /\ status o <> Running) /\
  (forall e, r = Raise e -> trace w' = trace w /\ observers w' = observers w).
Proof.
  intros [(e & _ & -> & ->) | [_ H]]%syscall_inv.
  { split_and!; [done | by apply calmer_same | done | done]. }
  cbn in H. destruct (observers w !! id) as [o |] eqn:Ho.
  - injection H as <- <-. split_and!; [done | | | done].
    + apply (calmer_update w id o); [done |]. by destruct (status o).
    + intros _. split; [done |]. cbn. rewrite lookup_insert_eq.
      eexists. split; [done |]. cbn. by destruct (status o).
  - injection H as <- <-. split_and!; [done | by apply calmer_same | done | done].
Qed.

Lemma observer_join_run id w r w' :
  observer_join id w = (r, w') ->
  ((forall o, observers w !! id = Some o -> status o <> Running) -> r <> Hang) /\
  calmer w w' /\
  (r = Return tt ->
     trace w' = trace w ++ [ObserverJoin id] /\
     exists o, observers w' !! id = Some o /\ status o = Exited) /\
  (forall e, r = Raise e -> trace w' = trace w /\ observers w' = observers w).
Proof.
  intros [(e & _ & -> & ->) | [_ H]]%syscall_inv.
  { split_and!; [done | by apply calmer_same | done | done]. }
  cbn in H. destruct (observers w !! id) as [o |] eqn:Ho.
  - assert (Hcalm : calmer w (set_observers
                                (<[id := mkObserver Exited (watches o)]> (observers w))
                                (pop_fault w))).
    { by apply (calmer_update w id o). }
    destruct (status o) eqn:Hst; injection H as <- <-.
    + split_and!; [done | by apply calmer_same | done | done].
    + split_and!; [| by apply calmer_same | done | done].
      intros Hnr. by specialize (Hnr o eq_refl).
    + split_and!; [done | done | | done].
      intros _. split; [done |]. cbn. rewrite lookup_insert_eq. by eexists.
    + split_and!; [done | done | | done].
      intros _. split; [done |]. cbn. rewrite lookup_insert_eq. by eexists.
  - injection H as <- <-. split_and!; [done | by apply calmer_same | done | done].
Qed.

(** [observer.stop()] followed by [observer.join()], as both
    [change_source_folder] versions do it. *)
Lemma stop_join_run {Self} id (self : Self) w r s' :
  (io (observer_stop id);;; io (observer_join id)) (self, w) = (r, s') ->
  s'.1 = self /\ r <> Hang /\ calmer w s'.2 /\
  exists tr, trace s'.2 = trace w ++ tr /\
    (r = Return tt ->
       tr = [ObserverStop id; ObserverJoin id] /\
       exists o, observers s'.2 !! id = Some o /\ status o = Exited) /\
    (r <> Return tt -> tr = [] \/ tr = [ObserverStop id]).
Proof.
  intros H. unfold bind, io in H. cbn [fst snd] in H.
  destruct (observer_stop id w) as [r1 w1] eqn:H1.
  apply observer_stop_run in H1 as (Hh1 & Hc1 & Hr1 & He1).
  destruct r1 as [[] | e |]; [| | done].
  - destruct (Hr1 eq_refl) as (Ht1 & o1 & Ho1 & Hs1).
    cbn in H. destruct (observer_join id w1) as [r2 w2] eqn:H2.
    apply observer_join_run in H2 as (Hh2 & Hc2 & Hr2 & He2).
    injection H as <- <-. cbn. split_and!; [done | | by etrans |].
    + apply Hh2. intros o Ho. by simplify_eq.
    + destruct r2 as [[] | e |].
      * destruct (Hr2 eq_refl) as (Ht2 & Ho2).
        exists [ObserverStop id; ObserverJoin id].
        split; [by rewrite Ht2, Ht1, <- app_assoc |]. done.
      * destruct (He2 e eq_refl) as (Ht2 & _).
        exists [ObserverStop id]. split; [by rewrite Ht2, Ht1 |].
        split; [done | by right].
      * exfalso. apply Hh2; [| done]. intros o Ho. by simplify_eq.
  - cbn in H. injection H as <- <-. destruct (He1 e eq_refl) as (Ht1 & _). cbn.
    split_and!; [done | done | done |].
    exists []. rewrite app_nil_r. split; [done |]. split; [done | by left].
Qed.

Lemma input_run prompt w r w' :
  input prompt w = (r, w') ->
  r <> Hang /\ observers w' = observers w /\
  (exists tr, trace w' = trace w ++ tr /\ Forall sys_action tr) /\
  (forall line, r = Return line -> stdin w = line :: stdin w').
Proof.
  intros [(e & _ & -> & ->) | [_ H]]%syscall_inv.
  { split_and!; [done | done | | done]. exists []. by rewrite app_nil_r. }
  cbn in H. destruct (stdin w) as [| line rest]; injection H as <- <-.
  - split_and!; [done | done | | done]. exists [Input prompt]. by repeat constructor.
  - split_and!; [done | done | | by intros ? [= <-]].
    exists [Input prompt]. by repeat constructor.
Qed.

Lemma get_valid_folder_name_loop_run fuel : forall w r w',
  List.length (stdin w) < fuel ->
  utils.get_valid_folder_name_loop fuel w = (r, w') ->
  r <> Hang /\ observers w' = observers w /\
  exists tr, trace w' = trace w ++ tr /\ Forall sys_action tr.
Proof.
  induction fuel as [| fuel IH]; intros w r w' Hlen H; [lia |].
  cbn [utils.get_valid_folder_name_loop] in H.
  apply bind_inv in H as [(line & w1 & H1 & H) | [(e & H1 & ->) | (H1 & ->)]];
    apply input_run in H1 as (Hh & Ho & (tr1 & Ht1 & HP1) & Hline); try done.
  2:{ split_and!; [done | done | by exists tr1]. }
  specialize (Hline line eq_refl).
  destruct (validate_folder_name_cases (strip line)) as [[Hv _] | [Hv _]];
    rewrite Hv in H.
  - injection H as <- <-. split_and!; [done | done | by exists tr1].
  - cbn in H. apply IH in H as (Hh2 & Ho2 & (tr2 & Ht2 & HP2)).
    + split_and!; [done | by rewrite Ho2 |].
      exists (tr1 ++ [Print format_error_line] ++ tr2).
      split; [rewrite Ht2; cbn; by rewrite Ht1, <- !app_assoc |].
      apply Forall_app. split; [done |]. by constructor.
    + cbn. rewrite Hline in Hlen. cbn in Hlen. lia.
Qed.

Lemma get_valid_folder_name_run w r w' :
  utils.get_valid_folder_name w = (r, w') ->
  r <> Hang /\ observers w' = observers w /\
  exists tr, trace w' = trace w ++ tr /\ Forall sys_action tr.
Proof. apply get_valid_folder_name_loop_run. lia. Qed.

(** No observer thread is alive. *)
Definition all_dead (w : World) : Prop :=
  forall id o, observers w !! id = Some o -> alive (status o) = false.

(** At most one observer thread is alive, and it is the one the monitor
    holds. *)
Definition one_session (self : FileMonitor) (w : World) : Prop :=
  forall id o, observers w !! id = Some o -> alive (status o) = true ->
               observer_of self = Some id.

Lemma all_dead_one_session self w : all_dead w -> one_session self w.
Proof. intros Hd id o Ho Ha. rewrite (Hd id o Ho) in Ha. done. Qed.

Lemma io_inv {Self A} (m : M World A) (self : Self) w r s' :
  io m (self, w) = (r, s') -> exists w', m w = (r, w') /\ s' = (self, w').
Proof.
  unfold io. cbn. destruct (m w) as [r0 w0]. intros [= <- <-]. by exists w0.
Qed.

Lemma observer_schedule_run id dir w r w' :
  observer_schedule id dir w = (r, w') ->
  r <> Hang /\
  (r = Return tt ->
     exists o, observers w !! id = Some o /\
       observers w' = <[id := mkObserver (status o) (dir :: watches o)]> (observers w) /\
       trace w' = trace w ++ [ObserverSchedule id dir]) /\
  (forall e, r = Raise e -> trace w' = trace w /\ observers w' = observers w).
Proof.
  intros [(e & _ & -> & ->) | [_ H]]%syscall_inv; [done |].
  cbn in H. destruct (observers w !! id) as [o |] eqn:Ho; injection H as <- <-.
  - split_and!; [done | | done]. intros _. by exists o.
  - done.
Qed.

Lemma observer_start_run id w r w' :
  observer_start id w = (r, w') ->
  r <> Hang /\
  (r = Return tt ->
     exists o, observers w !! id = Some o /\
       observers w' = <[id := mkObserver Running (watches o)]> (observers w) /\
       trace w' = trace w ++ [ObserverStart id]) /\
  (forall e, r = Raise e -> trace w' = trace w /\ observers w' = observers w).
Proof.
  intros [(e & _ & -> & ->) | [_ H]]%syscall_inv; [done |].
  cbn in H. destruct (observers w !! id) as [o |] eqn:Ho.
  - destruct (status o); try (injection H as <- <-; done).
    destruct (forallb _ _); injection H as <- <-; [| done].
    split_and!; [done | | done]. intros _. by exists o.
  - injection H as <- <-. done.
Qed.

Lemma start_monitoring_try_run self0 self w r s' :
  file_monitor.start_monitoring_try self0 (self, w) = (r, s') ->
  r <> Hang /\ (all_dead w -> one_session s'.1 s'.2) /\
  menu_active s'.1 = menu_active self /\
  exists tr, trace s'.2 = trace w ++ ObserverNew (fresh (dom (observers w))) :: tr /\
    (fresh (dom (observers w)) ∉ dom (observers w)) /\
    (forall new, ObserverStart new ∈ tr -> new = fresh (dom (observers w))).
Proof.
  intros H. unfold file_monitor.start_monitoring_try in H.
  set (id := fresh (dom (observers w))) in *.
  assert (Hfresh : id ∉ dom (observers w)) by apply is_fresh.
  assert (Hnone : observers w !! id = None) by by apply not_elem_of_dom.
  unfold bind at 1, io at 1, Observer_new in H. cbn [fst snd] in H. fold id in H.
  unfold bind at 1, set_self in H. cbn [fst snd] in H.
  set (self1 := set_observer (Some id) self) in *.
  set (w1 := emitted (ObserverNew id) _) in *.
  assert (Hone : forall w2 st ws,
             observers w2 = <[id := mkObserver st ws]> (observers w) ->
             all_dead w -> one_session self1 w2).
  { intros w2 st ws Ho Hdead j o Hj Ha. rewrite Ho in Hj.
    destruct (decide (id = j)) as [<- | Hne]; [done |].
    rewrite lookup_insert_ne in Hj by done. by rewrite (Hdead j o Hj) in Ha. }
  assert (Ho1 : observers w1 = <[id := mkObserver Created []]> (observers w)) by done.
  assert (Ht1 : trace w1 = trace w ++ [ObserverNew id]) by done.
  assert (Hm1 : menu_active self1 = menu_active self) by done.
  clearbody w1 self1.
  (* schedule *)
  apply bind_inv in H as [([] & s2 & H2 & H) | [(e & H2 & ->) | (H2 & ->)]];
    apply io_inv in H2 as (w2 & H2 & ->);
    apply observer_schedule_run in H2 as (Hh2 & Hr2 & He2); [| | done].
  2:{ destruct (He2 e eq_refl) as (Ht2 & Ho2). cbn.
      split_and!; [done | eapply Hone; by rewrite Ho2 | done |].
      exists []. rewrite Ht2, Ht1. split_and!; [done | done |].
      intros new Hin. by apply elem_of_nil in Hin. }
  destruct (Hr2 eq_refl) as (o2 & Ho2 & Hobs2 & Ht2).
  rewrite Ho1, lookup_insert_eq in Ho2. injection Ho2 as <-.
  rewrite Ho1, insert_insert_eq in Hobs2. cbn in Hobs2.
  (* start *)
  apply bind_inv in H as [([] & s3 & H3 & H) | [(e & H3 & ->) | (H3 & ->)]];
    apply io_inv in H3 as (w3 & H3 & ->);
    apply observer_start_run in H3 as (Hh3 & Hr3 & He3); [| | done].
  2:{ destruct (He3 e eq_refl) as (Ht3 & Ho3). cbn.
      split_and!; [done | eapply Hone; by rewrite Ho3 | done |].
      exists [ObserverSchedule id (default [] (current_source_dir self0))].
      rewrite Ht3, Ht2, Ht1, <- app_assoc. split_and!; [done | done |].
      intros new Hin. apply list_elem_of_singleton in Hin. done. }
  destruct (Hr3 eq_refl) as (o3 & Ho3 & Hobs3 & Ht3).
  rewrite Hobs2, lookup_insert_eq in Ho3. injection Ho3 as <-.
  rewrite Hobs2, insert_insert_eq in Hobs3. cbn in Hobs3.
  (* the report *)
  cbn in H. injection H as <- <-. cbn.
  split_and!; [done | by eapply Hone | done |].
  eexists. rewrite Ht3, Ht2, Ht1. rewrite <- !app_assoc. cbn.
  split_and!; [done | done |].
  intros new Hin. repeat (apply elem_of_cons in Hin as [Hin | Hin]; [by simplify_eq |]).
  by apply elem_of_nil in Hin.
Qed.

Lemma start_monitoring_run self w r s' :
  file_monitor.start_monitoring (self, w) = (r, s') ->
  r <> Hang /\ (all_dead w -> one_session s'.1 s'.2) /\
  menu_active s'.1 = menu_active self /\
  exists tr, trace s'.2 = trace w ++ tr /\
    forall new, ObserverStart new ∈ tr ->
      (new ∉ dom (observers w)) /\ exists post, tr = ObserverNew new :: post.
Proof.
  intros H. unfold file_monitor.start_monitoring in H.
  unfold bind at 1, get_self in H. cbn [fst snd] in H.
  assert (Hno : forall r0 s0,
            io (print (Fore.RED +:+ "Error: Source directory does not exist: "
                       +:+ str_opt_path (current_source_dir self) +:+ Style.RESET_ALL))
               (self, w) = (r0, s0) ->
            r0 <> Hang /\ (all_dead w -> one_session s0.1 s0.2) /\
            menu_active s0.1 = menu_active self /\
            exists tr, trace s0.2 = trace w ++ tr /\
              forall new, ObserverStart new ∈ tr ->
                (new ∉ dom (observers w)) /\ exists post, tr = ObserverNew new :: post).
  { intros r0 s0 [= <- <-]. cbn.
    split_and!; [done | intros Hd; apply all_dead_one_session; exact Hd | done |].
    eexists. split; [done |]. intros new Hin.
    apply list_elem_of_singleton in Hin. done. }
  destruct (current_source_dir self) as [d |] eqn:Hd; [| by apply Hno].
  unfold bind at 1, io at 1, path_exists in H. cbn [fst snd] in H.
  destruct (is_file w d || dir_exists w d); cbn [negb] in H; [| by apply Hno].
  clear Hno. unfold try_except in H.
  destruct (file_monitor.start_monitoring_try self (self, w)) as [rb sb] eqn:Hb.
  apply start_monitoring_try_run in Hb
    as (Hh & Hone & Hm & (tr & Htr & Hfresh & Hnew)).
  assert (Hdone : r = rb -> s' = sb ->
            r <> Hang /\ (all_dead w -> one_session s'.1 s'.2) /\
            menu_active s'.1 = menu_active self /\
            exists tr, trace s'.2 = trace w ++ tr /\
              forall new, ObserverStart new ∈ tr ->
                (new ∉ dom (observers w)) /\ exists post, tr = ObserverNew new :: post).
  { intros -> ->. split_and!; [done | done | done |].
    eexists. split; [exact Htr |]. intros new Hin.
    apply elem_of_cons in Hin as [Hin | Hin]; [done |].
    rewrite (Hnew new Hin). eauto. }
  destruct rb as [[] | e |]; [injection H as <- <-; by apply Hdone | | done].
  destruct (is_Exception e); [| injection H as <- <-; by apply Hdone].
  clear Hdone. cbn in H. injection H as <- <-. cbn.
  split_and!; [done | done | done |].
  eexists. rewrite Htr, <- !app_assoc. split; [done |]. intros new Hin.
  cbn in Hin. apply elem_of_cons in Hin as [Hin | Hin]; [done |].
  apply elem_of_app in Hin as [Hin | Hin].
  - rewrite (Hnew new Hin). eauto.
  - repeat (apply elem_of_cons in Hin as [Hin | Hin]; [done |]).
    by apply elem_of_nil in Hin.
Qed.

Definition stop_join_trace (o : option nat) : list action :=
  match o with
  | Some old => [ObserverStop old; ObserverJoin old]
  | None => []
  end.

Lemma calmer_one_session self w w' :
  calmer w w' -> one_session self w -> one_session self w'.
Proof.
  intros [_ Hc] Hone id o' Ho' Ha.
  destruct (Hc id o' Ho') as (o & Ho & Hal). eapply Hone; eauto.
Qed.

(** The first statement of [change_source_folder]. *)
Lemma stop_current_run self w r s' :
  match observer_of self with
  | Some id => io (observer_stop id);;; io (observer_join id)
  | None => ret tt
  end (self, w) = (r, s') ->
  s'.1 = self /\ r <> Hang /\ calmer w s'.2 /\
  exists tr, trace s'.2 = trace w ++ tr /\
    (r = Return tt ->
       tr = stop_join_trace (observer_of self) /\
       (one_session self w -> all_dead s'.2)) /\
    (r <> Return tt -> forall new, ObserverStart new ∉ tr).
Proof.
  intros H. destruct (observer_of self) as [old |] eqn:Hold.
  - apply stop_join_run in H as (Hs & Hh & Hc & (tr & Htr & Hret & Hexc)).
    split_and!; [done | done | done |]. exists tr. split_and!; [done | |].
    + intros Hr. destruct (Hret Hr) as (-> & o & Ho & Hst). split; [done |].
      intros Hone j o' Hj. destruct (alive (status o')) eqn:Ha; [| done].
      destruct Hc as [_ Hc]. destruct (Hc j o' Hj) as (o0 & Ho0 & Hal).
      specialize (Hone j o0 Ho0 (Hal Ha)). rewrite Hold in Hone.
      injection Hone as <-. rewrite Ho in Hj. injection Hj as <-.
      by rewrite Hst in Ha.
    + intros Hr new Hin. destruct (Hexc Hr) as [-> | ->].
      * by apply elem_of_nil in Hin.
      * by apply list_elem_of_singleton in Hin.
  - injection H as <- <-. cbn. split_and!; [done | done | done |].
    exists []. rewrite app_nil_r. split_and!; [done | | done].
    intros _. split; [done |]. intros Hone j o Hj.
    destruct (alive (status o)) eqn:Ha; [| done].
    specialize (Hone j o Hj Ha). by rewrite Hold in Hone.
Qed.

(** [change_source_folder], whatever the state it starts in. *)
Lemma change_source_folder_run self w r s' :
  file_monitor.change_source_folder (self, w) = (r, s') ->
  r <> Hang /\
  (one_session self w -> one_session s'.1 s'.2) /\
  exists tr, trace s'.2 = trace w ++ tr /\
    forall new, ObserverStart new ∈ tr ->
      (new ∉ dom (observers w)) /\
      exists mid post,
        tr = stop_join_trace (observer_of self) ++ mid ++ ObserverNew new :: post /\
        Forall sys_action mid.
Proof.
  intros H. unfold file_monitor.change_source_folder in H.
  unfold bind at 1, get_self in H. cbn [fst snd] in H.
  apply bind_inv in H as [([] & s1 & H1 & H) | [(e & H1 & ->) | (H1 & ->)]];
    apply stop_current_run in H1 as (Hs1 & Hh1 & Hc1 & (tr1 & Htr1 & Hret1 & Hexc1));
    try done.
  2:{ split_and!; [done | rewrite Hs1; by apply calmer_one_session |].
      exists tr1. split; [done |]. intros new Hin. by destruct (Hexc1 ltac:(done) new). }
  destruct s1 as [self1 w1]. cbn [fst snd] in *. subst self1.
  destruct (Hret1 eq_refl) as (-> & Hdead1). clear Hret1 Hexc1.
  (* folder_name = get_valid_folder_name() *)
  apply bind_inv in H as [(folder & s2 & H2 & H) | [(e & H2 & ->) | (H2 & ->)]];
    apply io_inv in H2 as (w2 & H2 & ->);
    apply get_valid_folder_name_run in H2 as (Hh2 & Ho2 & (tr2 & Htr2 & HP2));
    try done.
  2:{ cbn. split_and!; [done | |].
      - intros Hone. apply all_dead_one_session. intros j o Hj.
        rewrite Ho2 in Hj. by eapply Hdead1.
      - exists (stop_join_trace (observer_of self) ++ tr2).
        split; [by rewrite Htr2, Htr1, <- app_assoc |].
        intros new Hin. exfalso. apply elem_of_app in Hin as [Hin | Hin].
        + destruct (observer_of self); cbn in Hin;
            repeat (apply elem_of_cons in Hin as [Hin | Hin]; [done |]);
            by apply elem_of_nil in Hin.
        + rewrite Forall_forall in HP2. by apply HP2 in Hin. }
  (* self.current_source_dir = ...; self.start_monitoring() *)
  unfold bind at 1, set_self in H. cbn [fst snd] in H.
  apply start_monitoring_run in H as (Hh3 & Hone3 & _ & (tr3 & Htr3 & Hnew3)).
  split_and!; [done | |].
  { intros Hone. apply Hone3. intros j o Hj. rewrite Ho2 in Hj. by eapply Hdead1. }
  exists (stop_join_trace (observer_of self) ++ tr2 ++ tr3).
  split; [by rewrite Htr3, Htr2, Htr1, <- !app_assoc |].
  intros new Hin.
  assert (Hin3 : ObserverStart new ∈ tr3).
  { apply elem_of_app in Hin as [Hin | Hin].
    - exfalso. destruct (observer_of self); cbn in Hin;
        repeat (apply elem_of_cons in Hin as [Hin | Hin]; [done |]);
        by apply elem_of_nil in Hin.
    - apply elem_of_app in Hin as [Hin | Hin]; [| done].
      exfalso. rewrite Forall_forall in HP2. by apply HP2 in Hin. }
  destruct (Hnew3 new Hin3) as (Hfresh & post & ->).
  split.
  - rewrite Ho2 in Hfresh. destruct Hc1 as [Hdom _]. by rewrite Hdom in Hfresh.
  - by exists tr2, post.
Qed.

(** C7. In [change_source_folder], started with at most one observer thread
    alive (the monitor's own): the call never blocks for ever; afterwards
    again at most one observer thread is alive and it is the monitor's;
    and whenever a new observer is started during the call, the trace of
    the call begins with the stop and the join of the previous observer (if
    there was one), continues with the prompts for the folder name, and
    only then creates the new observer, whose identity is fresh. *)
Theorem change_source_folder_joins_before_start :
  forall (self : FileMonitor) (w : World) (r : outcome unit) (s' : FileMonitor * World),
    one_session self w ->
    file_monitor.change_source_folder (self, w) = (r, s') ->
    r <> Hang /\
    one_session s'.1 s'.2 /\
    exists tr, trace s'.2 = trace w ++ tr /\
      forall new, ObserverStart new ∈ tr ->
        (new ∉ dom (observers w)) /\
        exists mid post,
          tr = stop_join_trace (observer_of self) ++ mid ++ ObserverNew new :: post /\
          Forall sys_action mid.
Proof.
  intros self w r s' Hone H.
  destruct (change_source_folder_run self w r s' H) as (Hh & Hkeep & Htr).
  split_and!; [done | by apply Hkeep | done].
Qed.

(** A monitor watching output/01-04 while the operator asks for 02-05. *)
Definition example_monitor_running : FileMonitor :=
  mkFileMonitor ["output"] ["inbox"] (Some 0) (Some ["output"; "01-04"]) true false.

Definition example_world_running : World :=
  mkWorld ∅ {[ ["output"]; ["output"; "01-04"]; ["output"; "02-05"] ]} 0 [] []
          ["02-05"]
          {[ 0 := mkObserver Running [["output"; "01-04"]] ]} [].

Definition example_switch : outcome unit * (FileMonitor * World) :=
  file_monitor.change_source_folder (example_monitor_running, example_world_running).

Lemma change_source_folder_joins_before_start_witness :
  example_switch.1 <> Hang /\
  one_session example_switch.2.1 example_switch.2.2 /\
  exists tr, trace example_switch.2.2 = trace example_world_running ++ tr /\
    forall new, ObserverStart new ∈ tr ->
      (new ∉ dom (observers example_world_running)) /\
      exists mid post,
        tr = stop_join_trace (observer_of example_monitor_running)
             ++ mid ++ ObserverNew new :: post /\
        Forall sys_action mid.
Proof.
  apply (change_source_folder_joins_before_start
           example_monitor_running example_world_running
           example_switch.1 example_switch.2).
  - intros id o Ho Ha. cbn in Ho.
    apply lookup_singleton_Some in Ho as [<- _]. reflexivity.
  - unfold example_switch. by destruct (file_monitor.change_source_folder _).
Defined.

(** The switch, spelled out: the old observer is stopped and joined, then
    the new one is created, scheduled and started. *)
Example example_switch_run :
  example_switch.1 = Return tt /\
  observer_of example_switch.2.1 = Some 1 /\
  status <$> observers example_switch.2.2 !! 0 = Some Exited /\
  status <$> observers example_switch.2.2 !! 1 = Some Running /\
  take 6 (trace example_switch.2.2)
  = [ObserverStop 0; ObserverJoin 0; Input utils.prompt;
     ObserverNew 1; ObserverSchedule 1 ["output"; "02-05"]; ObserverStart 1].
Proof. split_and!; reflexivity. Qed.

(** ** The menu *)


Lemma print_menu_run self w :
  print_menu (self, w) = (Return tt, (self, set_trace (trace w ++ menu_lines) w)).
Proof.
  unfold print_menu, bind, io, print, emit, menu_lines. cbn.
  by rewrite <- !app_assoc.
Qed.




(** The operator chooses "1" and then closes the input. *)
Definition example_world_eof : World := set_stdin ["1"] example_world.


(** On that input the chosen action raises EOFError: the version with
    [finally] resets the flag, the older version leaves it set and drops
    every later signal. *)
Example show_menu_after_exception :
  (file_monitor.show_menu (example_monitor, example_world_eof)).1 = Raise EOFError /\
  menu_active (file_monitor.show_menu (example_monitor, example_world_eof)).2.1 = false /\
  (file_copier_monitor.show_menu (example_monitor, example_world_eof)).1 = Raise EOFError /\
  menu_active (file_copier_monitor.show_menu (example_monitor, example_world_eof)).2.1
  = true.
Proof. split_and!; reflexivity. Qed.

(** * Created events *)

(** C6 (evaluation of the code). The class of src/file_handler.py overrides
    [on_modified] only: a created event for a file reaches the inherited
    [on_created], which does nothing, whereas a modified event is handled;
    the class of file_copier.py handles both. *)
Theorem created_event_is_not_handled :
  forall (self : FileHandler) (w : World) (p : path),
    dispatch file_handler.FileHandler_class (mkEvent created p false) (self, w)
    = (Return tt, (self, w)) /\
    dispatch file_handler.FileHandler_class (mkEvent modified p false) (self, w)
    = file_handler._handle_file_event p "modified" (self, w) /\
    dispatch file_copier.FileHandler_class (mkEvent created p false) (self, w)
    = file_copier._handle_file_event p "created" (self, w) /\
    dispatch file_copier.FileHandler_class (mkEvent modified p false) (self, w)
    = file_copier._handle_file_event p "modified" (self, w).
Proof. intros self w p. split_and!; reflexivity. Qed.

(** A new file appears in the watched directory: nothing is copied by the
    current class, the older class copies it. *)
Example created_event_on_new_file :
  trace (dispatch file_handler.FileHandler_class (mkEvent created example_png false)
           (example_handler, example_world)).2.2 = [] /\
  files (dispatch file_handler.FileHandler_class (mkEvent created example_png false)
           (example_handler, example_world)).2.2 !! ["inbox"; "a.png"] = None /\
  files (dispatch file_copier.FileHandler_class (mkEvent created example_png false)
           (example_handler, example_world)).2.2 !! ["inbox"; "a.png"]
  = Some (mkFile [x89; x50; x4e; x47] 7 420).
Proof. split_and!; reflexivity. Qed.

(** * Claims about concurrent deliveries *)

Example two_deliveries_interleaved :
  Interleaving.threads
    (Interleaving.run [0; 1; 0; 1] (Interleaving.deliveries [example_png; example_png]))
  = [Interleaving.mkThread example_png Interleaving.AtCopy;
     Interleaving.mkThread example_png Interleaving.AtCopy].
Proof. reflexivity. Qed.

Section InterleavingFacts.

Import Interleaving.

(** The thread holds the mark of its path: it has inserted it and not yet
    removed it. *)
Definition holding (t : thread) : Prop := t_pc t = AtCopy \/ t_pc t = AtRemove.

Record marks_consistent (st : state) : Prop := mkConsistent {
  held_in_set : forall i t,
    threads st !! i = Some t -> holding t -> t_path t ∈ shared_set st;
  held_once : forall i j ti tj,
    threads st !! i = Some ti -> threads st !! j = Some tj ->
    holding ti -> holding tj -> t_path ti = t_path tj -> i = j;
  pending_absent : forall i t,
    threads st !! i = Some t -> t_pc t = AtAdd -> t_path t ∉ shared_set st;
  pending_once : forall i j ti tj,
    threads st !! i = Some ti -> threads st !! j = Some tj ->
    t_pc ti = AtAdd -> t_pc tj = AtAdd -> i = j
}.

Lemma pending_Some st j :
  pending st = Some j -> exists t, threads st !! j = Some t /\ t_pc t = AtAdd.
Proof.
  unfold pending. destruct (list_find _ _) as [[k t] |] eqn:Hf; [| done].
  intros [= <-]. apply list_find_Some in Hf as (Hk & Ht & _). by exists t.
Qed.

Lemma pending_None st i t :
  pending st = None -> threads st !! i = Some t -> t_pc t <> AtAdd.
Proof.
  unfold pending. destruct (list_find _ _) as [[k t'] |] eqn:Hf; [done |].
  intros _ Hi. apply list_find_None in Hf. rewrite Forall_forall in Hf.
  apply Hf. by eapply list_elem_of_lookup_2.
Qed.

Lemma lookup_update (ts : list thread) i t t' k tk :
  ts !! i = Some t -> <[i := t']> ts !! k = Some tk ->
  (k = i /\ tk = t') \/ (k <> i /\ ts !! k = Some tk).
Proof.
  intros Hi Hk. destruct (decide (k = i)) as [-> | Hne].
  - left. rewrite list_lookup_insert_eq in Hk by by eapply lookup_lt_Some.
    by injection Hk as <-.
  - right. by rewrite list_lookup_insert_ne in Hk.
Qed.

Lemma deliveries_consistent ps : marks_consistent (deliveries ps).
Proof.
  assert (Hpc : forall i t, threads (deliveries ps) !! i = Some t -> t_pc t = AtCheck).
  { intros i t Hi. cbn in Hi. apply list_lookup_fmap_Some_1 in Hi as (p & -> & _).
    done. }
  split.
  - intros i t Hi [H | H]; apply Hpc in Hi; congruence.
  - intros i j ti tj Hi _ [H | H]; apply Hpc in Hi; congruence.
  - intros i t Hi H; apply Hpc in Hi; congruence.
  - intros i j ti tj Hi _ H; apply Hpc in Hi; congruence.
Qed.

(** Thread [i] moves on and the set becomes [S']: what has to be checked. *)
Lemma update_consistent st i t t' S' :
  marks_consistent st ->
  threads st !! i = Some t ->
  (holding t' -> t_path t' ∈ S') ->
  (t_pc t' = AtAdd -> (t_path t' ∉ S')) ->
  (forall k tk, k <> i -> threads st !! k = Some tk -> holding tk -> t_path tk ∈ S') ->
  (forall k tk, k <> i -> threads st !! k = Some tk -> t_pc tk = AtAdd ->
                (t_path tk ∉ S') /\ t_pc t' <> AtAdd) ->
  (forall k tk, k <> i -> threads st !! k = Some tk -> holding tk -> holding t' ->
                t_path tk <> t_path t') ->
  marks_consistent (mkState S' (<[i := t']> (threads st))).
Proof.
  intros [Hin Honce Habs Hpend] Hi Hnew_in Hnew_abs Hold_in Hold_abs Hdistinct.
  split; cbn.
  - intros k tk Hk Hh.
    apply (lookup_update _ _ _ _ _ _ Hi) in Hk as [[-> ->] | [Hne Hk]]; eauto.
  - intros k j tk tj Hk Hj Hhk Hhj Hp.
    apply (lookup_update _ _ _ _ _ _ Hi) in Hk as [[-> ->] | [Hnk Hk]];
      apply (lookup_update _ _ _ _ _ _ Hi) in Hj as [[-> ->] | [Hnj Hj]].
    + done.
    + exfalso. by eapply (Hdistinct j tj).
    + exfalso. by eapply (Hdistinct k tk).
    + by eapply Honce.
  - intros k tk Hk Hpc.
    apply (lookup_update _ _ _ _ _ _ Hi) in Hk as [[-> ->] | [Hne Hk]]; [eauto |].
    by destruct (Hold_abs k tk Hne Hk Hpc).
  - intros k j tk tj Hk Hj Hpk Hpj.
    apply (lookup_update _ _ _ _ _ _ Hi) in Hk as [[-> ->] | [Hnk Hk]];
      apply (lookup_update _ _ _ _ _ _ Hi) in Hj as [[-> ->] | [Hnj Hj]].
    + done.
    + exfalso. by destruct (Hold_abs j tj Hnj Hj Hpj).
    + exfalso. by destruct (Hold_abs k tk Hnk Hk Hpk).
    + by eapply Hpend.
Qed.

Lemma step_consistent i st :
  marks_consistent st ->
  (forall j, pending st = Some j -> i = j) ->
  marks_consistent (step i st).
Proof.
  intros Hc Hturn. pose proof Hc as [Hin Honce Habs Hpend]. unfold step.
  destruct (threads st !! i) as [t |] eqn:Hi; [| done].
  assert (Hothers : t_pc t <> AtAdd ->
                    forall k tk, threads st !! k = Some tk -> t_pc tk <> AtAdd).
  { intros Ht k tk Hk Hpc. destruct (pending st) as [j |] eqn:Hp.
    - specialize (Hturn j eq_refl). subst j.
      apply pending_Some in Hp as (t' & Hi' & Hpc'). congruence.
    - by eapply pending_None. }
  destruct (t_pc t) eqn:Hpc.
  - (* the membership test *)
    specialize (Hothers ltac:(done)).
    case_bool_decide as Hmem; apply (update_consistent st i t _ _ Hc Hi); cbn.
    + by intros [? | ?].
    + done.
    + intros k tk _ Hk. by apply (Hin k).
    + intros k tk _ Hk Hpk. by destruct (Hothers k tk Hk).
    + by intros k tk _ _ _ [? | ?].
    + by intros [? | ?].
    + done.
    + intros k tk _ Hk. by apply (Hin k).
    + intros k tk _ Hk Hpk. by destruct (Hothers k tk Hk).
    + by intros k tk _ _ _ [? | ?].
  - (* the insertion *)
    apply (update_consistent st i t _ _ Hc Hi); cbn.
    + intros _. apply elem_of_union. right. by apply elem_of_singleton.
    + done.
    + intros k tk _ Hk Hh. apply elem_of_union. left. by eapply Hin.
    + intros k tk Hne Hk Hpk. exfalso. apply Hne. by eapply Hpend.
    + intros k tk _ Hk Hh _ Hp. apply (Habs i t Hi Hpc). rewrite <- Hp. by eapply Hin.
  - (* the copy *)
    specialize (Hothers ltac:(done)).
    apply (update_consistent st i t _ _ Hc Hi); cbn.
    + intros _. apply (Hin i t Hi). by left.
    + done.
    + intros k tk _ Hk. by apply (Hin k).
    + intros k tk _ Hk Hpk. by destruct (Hothers k tk Hk).
    + intros k tk Hne Hk Hh _ Hp. apply Hne.
      eapply (Honce k i tk t); [done | done | done | by left | done].
  - (* the removal *)
    specialize (Hothers ltac:(done)).
    assert (Hheld : holding t) by by right.
    case_bool_decide as Hmem; [| by destruct Hmem; eapply Hin].
    apply (update_consistent st i t _ _ Hc Hi); cbn.
    + by intros [? | ?].
    + done.
    + intros k tk Hne Hk Hh. apply elem_of_difference. split; [by eapply Hin |].
      intros Hp%elem_of_singleton. apply Hne. by eapply (Honce k i tk t).
    + intros k tk _ Hk Hpk. by destruct (Hothers k tk Hk).
    + by intros k tk _ _ _ [? | ?].
  - done.
  - done.
Qed.

(** Along an undivided schedule the marks stay consistent. *)
Lemma run_consistent sched : forall st,
  marks_consistent st -> undivided sched st -> marks_consistent (run sched st).
Proof.
  induction sched as [| i sched IH]; intros st Hc Hu; [done |].
  destruct Hu as [Hturn Hu]. cbn. apply IH; [| done].
  apply step_consistent; [done |]. intros j Hj. by rewrite Hj in Hturn.
Qed.

End InterleavingFacts.

(** C2, as stated, fails on the code: the membership test and the insertion
    are two statements with nothing to keep another delivery from running
    between them.  Two deliveries for the same path, interleaved test, test,
    insertion, insertion, both find the path absent and both copy. *)
Lemma interleaved_deliveries_both_copy :
  ~ (forall (ps : list path) (sched : list nat),
       Interleaving.one_copy_per_path
         (Interleaving.run sched (Interleaving.deliveries ps))).
Proof.
  intros H.
  specialize (H [example_png; example_png] [0; 1; 0; 1] 0 1
                (Interleaving.mkThread example_png Interleaving.AtCopy)
                (Interleaving.mkThread example_png Interleaving.AtCopy)
                eq_refl eq_refl eq_refl eq_refl eq_refl).
  discriminate H.
Qed.

(** C2, amended. When no step of another delivery falls between the
    membership test and the insertion of a delivery (as when one thread
    handles the deliveries one after the other), no two deliveries are ever
    copying the same path. *)
Theorem undivided_deliveries_one_copy :
  forall (ps : list path) (sched : list nat),
    Interleaving.undivided sched (Interleaving.deliveries ps) ->
    Interleaving.one_copy_per_path
      (Interleaving.run sched (Interleaving.deliveries ps)).
Proof.
  intros ps sched Hu.
  pose proof (run_consistent sched _ (deliveries_consistent ps) Hu) as Hc.
  intros i j ti tj Hi Hj Hci Hcj Hp.
  eapply (held_once _ Hc i j ti tj); [done | done | by left | by left | done].
Qed.

(** Two deliveries for one path; the second makes its test while the first
    is copying, and is dropped. *)
Lemma undivided_deliveries_one_copy_witness :
  Interleaving.one_copy_per_path
    (Interleaving.run [0; 0; 1; 0; 0] (Interleaving.deliveries [ ["a"]; ["a"] ])).
Proof.
  apply (undivided_deliveries_one_copy [ ["a"]; ["a"] ] [0; 0; 1; 0; 0]).
  cbn [Interleaving.undivided]. repeat split; reflexivity.
Defined.

Example duplicate_delivery_dropped :
  Interleaving.threads
    (Interleaving.run [0; 0; 1] (Interleaving.deliveries [ ["a"]; ["a"] ]))
  = [Interleaving.mkThread ["a"] Interleaving.AtCopy;
     Interleaving.mkThread ["a"] Interleaving.Returned].
Proof. reflexivity. Qed.

(** * Further properties of the copy and of the handler *)

(** ** What a computation leaves as it is *)

(** Every run of [m] relates the state before to the state after, whatever
    the outcome. *)
Definition keeps {St A} (R : relation St) (m : M St A) : Prop :=
  forall s, R s (m s).2.

Section Keeps.

Context {St : Type} (R : relation St) `{!PreOrder R}.

Lemma keeps_ret {A} (a : A) : keeps R (ret a).
Proof. intros s. reflexivity. Qed.

Lemma keeps_raise {A} e : keeps R (@raise St A e).
Proof. intros s. reflexivity. Qed.

Lemma keeps_hang {A} : keeps R (@hang St A).
Proof. intros s. reflexivity. Qed.

Lemma keeps_bind {A B} (m : M St A) (k : A -> M St B) :
  keeps R m -> (forall a, keeps R (k a)) -> keeps R (bind m k).
Proof.
  intros Hm Hk s. unfold bind. specialize (Hm s).
  destruct (m s) as [[a | e |] s1]; cbn in *; [| done | done].
  etrans; [exact Hm | apply Hk].
Qed.

Lemma keeps_if {A} (b : bool) (m1 m2 : M St A) :
  keeps R m1 -> keeps R m2 -> keeps R (if b then m1 else m2).
Proof. by destruct b. Qed.

Lemma keeps_try_except {A} (body : M St A) handler :
  keeps R body -> (forall e, keeps R (handler e)) -> keeps R (try_except body handler).
Proof.
  intros Hb Hh s. unfold try_except. specialize (Hb s).
  destruct (body s) as [[a | e |] s1]; cbn in *; [done | | done].
  destruct (is_Exception e); [| done].
  etrans; [exact Hb | apply Hh].
Qed.

Lemma keeps_try_finally {A} (body : M St A) cleanup :
  keeps R body -> keeps R cleanup -> keeps R (try_finally body cleanup).
Proof.
  intros Hb Hc s. unfold try_finally. specialize (Hb s).
  destruct (body s) as [[a | e |] s1]; cbn in *; [| | done].
  all: specialize (Hc s1); destruct (cleanup s1) as [[[] | e' |] s2]; cbn in *;
    by etrans.
Qed.

End Keeps.

(** A relation on worlds, seen on an instance together with the world. *)
Definition on_world {Self} (R : relation World) : relation (Self * World) :=
  fun s s' => R s.2 s'.2.

#[global] Instance on_world_preorder {Self} (R : relation World) `{!PreOrder R} :
  PreOrder (@on_world Self R).
Proof.
  split.
  - intros s. unfold on_world. reflexivity.
  - intros s1 s2 s3 H12 H23. unfold on_world in *. by etrans.
Qed.

Lemma keeps_io {Self A} (R : relation World) (m : M World A) :
  keeps R m -> keeps (@on_world Self R) (io m).
Proof.
  intros Hm [self w]. unfold on_world, io. cbn. specialize (Hm w).
  by destruct (m w).
Qed.

Lemma keeps_get_self {Self} (R : relation World) `{!PreOrder R} :
  keeps (@on_world Self R) get_self.
Proof. intros [self w]. unfold on_world. cbn. reflexivity. Qed.

Lemma keeps_set_self {Self} (R : relation World) `{!PreOrder R} (f : Self -> Self) :
  keeps (@on_world Self R) (set_self f).
Proof. intros [self w]. unfold on_world. cbn. reflexivity. Qed.

(** A system call keeps what the call proper keeps, when the relation does
    not look at the failure script. *)
Lemma keeps_syscall {A} (R : relation World) `{!PreOrder R} (op : M World A) :
  (forall w, R w (pop_fault w)) -> keeps R op -> keeps R (syscall op).
Proof.
  intros Hpop Hop w. unfold syscall.
  destruct (next_fault w); cbn; [apply Hpop |].
  etrans; [apply Hpop | apply Hop].
Qed.

Lemma keeps_bind_post {St A B} (R : relation St) `{!PreOrder R} (Q : A -> Prop)
    (m : M St A) (k : A -> M St B) :
  (forall s a, (m s).1 = Return a -> Q a) ->
  keeps R m -> (forall a, Q a -> keeps R (k a)) -> keeps R (bind m k).
Proof.
  intros HQ Hm Hk s. unfold bind. specialize (Hm s). specialize (HQ s).
  destruct (m s) as [[a | e |] s1]; cbn in *; [| done | done].
  etrans; [exact Hm | by apply Hk, HQ].
Qed.

(** ** copy_with_progress touches the destination only *)

(** Between [w] and [w'] nothing changed but the trace, the failure script
    and the file at [dst]. *)
Definition only_file (dst : path) (w w' : World) : Prop :=
  dirs w' = dirs w /\ clock w' = clock w /\ others w' = others w /\
  stdin w' = stdin w /\ observers w' = observers w /\
  forall q, q <> dst -> files w' !! q = files w !! q.

#[global] Instance only_file_preorder dst : PreOrder (only_file dst).
Proof.
  split.
  - intros w. by split_and!.
  - intros w1 w2 w3 (D1 & C1 & O1 & I1 & B1 & F1) (D2 & C2 & O2 & I2 & B2 & F2).
    split_and!; try congruence. intros q Hq. by rewrite F2, F1.
Qed.

Lemma only_file_same dst w w' :
  dirs w' = dirs w -> clock w' = clock w -> others w' = others w ->
  stdin w' = stdin w -> observers w' = observers w -> files w' = files w ->
  only_file dst w w'.
Proof. intros. split_and!; try done. intros q _. congruence. Qed.

Lemma only_file_pop dst w : only_file dst w (pop_fault w).
Proof. by apply only_file_same. Qed.

Lemma only_file_emitted dst a w : only_file dst w (emitted a w).
Proof. by apply only_file_same. Qed.

Lemma keeps_emit dst a : keeps (only_file dst) (emit a).
Proof. intros w. apply only_file_emitted. Qed.

Lemma keeps_os_path_getsize dst p : keeps (only_file dst) (os_path_getsize p).
Proof.
  apply keeps_syscall; [exact _ | apply only_file_pop |]. intros w.
  destruct (files w !! p); cbn; [by apply only_file_same |].
  destruct (dir_exists w p); cbn; [by apply only_file_same | reflexivity].
Qed.

Lemma keeps_open_rb dst p : keeps (only_file dst) (open_rb p).
Proof.
  apply keeps_syscall; [exact _ | apply only_file_pop |]. intros w.
  destruct (files w !! p); cbn; [by apply only_file_same |].
  destruct (dir_exists w p); cbn; reflexivity.
Qed.

Lemma keeps_open_wb dst : keeps (only_file dst) (open_wb dst).
Proof.
  apply keeps_syscall; [exact _ | apply only_file_pop |]. intros w.
  destruct (_ || _); cbn; [reflexivity |].
  destruct (negb _); cbn; [reflexivity |].
  split_and!; try done. intros q Hq. cbn. by rewrite lookup_insert_ne.
Qed.

Lemma open_wb_path p w fo : (open_wb p w).1 = Return fo -> f_path fo = p.
Proof.
  unfold open_wb, syscall. destruct (next_fault w); [done |].
  destruct (_ || _); cbn; [done |]. destruct (negb _); cbn; [done |].
  by intros [= <-].
Qed.

Lemma keeps_shutil_copystat src dst : keeps (only_file dst) (shutil_copystat src dst).
Proof.
  apply keeps_syscall; [exact _ | apply only_file_pop |]. intros w.
  destruct (files w !! src), (files w !! dst); cbn; try reflexivity.
  split_and!; try done. intros q Hq. cbn. by rewrite lookup_insert_ne.
Qed.

Lemma copy_loop_only_file fuel :
  forall fsrc fdst n progress copied w,
    only_file (f_path fdst) w
      (file_handler.copy_loop fuel fsrc fdst n progress copied w).2.
Proof.
  induction fuel as [| fuel IH]; intros fsrc fdst n progress copied w; [reflexivity |].
  rewrite copy_loop_step.
  destruct (next_fault w); [apply only_file_pop |].
  assert (H1 : only_file (f_path fdst) w (after_read w fsrc n)) by by apply only_file_same.
  destruct (read_data w fsrc n) as [| b l]; cbn zeta; [done |].
  etrans; [exact H1 |].
  destruct (next_fault (after_read w fsrc n)); [apply only_file_pop |].
  assert (H2 : only_file (f_path fdst) (after_read w fsrc n)
                 (after_write (after_read w fsrc n) fdst (b :: l))).
  { split_and!; try done. intros q Hq. cbn.
    destruct (files w !! f_path fdst); [by rewrite lookup_insert_ne | done]. }
  etrans; [exact H2 |].
  destruct (_ =? 0)%nat; [reflexivity |].
  etrans; [| apply (IH _ (mkFileobj (f_path fdst) _))].
  by apply only_file_same.
Qed.

Lemma copy_with_progress_only_file src dst n :
  keeps (only_file dst) (file_handler.copy_with_progress src dst n).
Proof.
  unfold file_handler.copy_with_progress.
  apply keeps_bind; [exact _ | apply keeps_os_path_getsize | intros total].
  apply keeps_bind; [exact _ | | intros _; apply keeps_shutil_copystat].
  apply keeps_bind; [exact _ | apply keeps_open_rb | intros fsrc].
  apply keeps_try_finally; [exact _ | | apply keeps_emit].
  apply (keeps_bind_post _ (fun fo => f_path fo = dst));
    [intros s a; apply open_wb_path | apply keeps_open_wb |].
  intros fdst <-.
  apply keeps_try_finally; [exact _ | | apply keeps_emit].
  intros w. apply copy_loop_only_file.
Qed.

(** X1. [copy_with_progress] changes no file but the destination, whatever
    its outcome: every other file, the source included when it is another
    path, and every directory are what they were. *)
Theorem copy_with_progress_touches_destination_only :
  forall (src dst : path) (chunk_size : nat) (w : World),
    dirs (file_handler.copy_with_progress src dst chunk_size w).2 = dirs w /\
    forall q, q <> dst ->
      files (file_handler.copy_with_progress src dst chunk_size w).2 !! q
      = files w !! q.
Proof.
  intros src dst n w.
  destruct (copy_with_progress_only_file src dst n w) as (D & _ & _ & _ & _ & Fr).
  by split.
Qed.

Lemma keeps_weaken {St A} (R R' : relation St) (m : M St A) :
  (forall s s', R s s' -> R' s s') -> keeps R m -> keeps R' m.
Proof. intros HR Hm s. apply HR, Hm. Qed.

Lemma keeps_file_read dst f n : keeps (only_file dst) (file_read f n).
Proof.
  apply keeps_syscall; [exact _ | apply only_file_pop |]. intros w.
  by apply only_file_same.
Qed.

Lemma keeps_file_write f chunk : keeps (only_file (f_path f)) (file_write f chunk).
Proof.
  apply keeps_syscall; [exact _ | apply only_file_pop |]. intros w.
  split_and!; try done. intros q Hq. cbn.
  destruct (files w !! f_path f); [by rewrite lookup_insert_ne | done].
Qed.

Lemma shutil_copyfile_only_file src dst :
  keeps (only_file dst) (file_copier.shutil_copyfile src dst).
Proof.
  unfold file_copier.shutil_copyfile.
  apply keeps_bind; [exact _ | intros w; reflexivity | intros same].
  destruct same; [apply keeps_raise; exact _ |].
  apply keeps_bind; [exact _ | apply keeps_open_rb | intros fsrc].
  apply keeps_try_finally; [exact _ | | apply keeps_emit].
  apply (keeps_bind_post _ (fun fo => f_path fo = dst));
    [intros s a; apply open_wb_path | apply keeps_open_wb |].
  intros fdst <-.
  apply keeps_try_finally; [exact _ | | apply keeps_emit].
  apply keeps_bind; [exact _ | intros w; reflexivity | intros w0].
  apply keeps_bind; [exact _ | apply keeps_file_read | intros r].
  destruct (r.1); [apply keeps_ret; exact _ |].
  apply keeps_bind; [exact _ | apply keeps_file_write | intros _; apply keeps_ret; exact _].
Qed.

(** [shutil.copy2] writes to its destination, or into it when it is a
    directory. *)
Lemma shutil_copy2_only_file src dst w :
  only_file dst w (file_copier.shutil_copy2 src dst w).2 \/
  (dir_exists w dst = true /\
   only_file (joinpath dst (name src)) w (file_copier.shutil_copy2 src dst w).2).
Proof.
  assert (K : forall t, keeps (only_file t)
                (file_copier.shutil_copyfile src t;;; shutil_copystat src t)).
  { intros t. apply keeps_bind; [exact _ | apply shutil_copyfile_only_file |].
    intros _. apply keeps_shutil_copystat. }
  assert (E : forall t,
            t = (if match files w !! dst with
                    | Some _ => false
                    | None => dir_exists w dst
                    end
                 then joinpath dst (name src) else dst) ->
            file_copier.shutil_copy2 src dst w
            = (file_copier.shutil_copyfile src t;;; shutil_copystat src t) w)
    by (by intros t ->).
  destruct (files w !! dst).
  { left. rewrite (E dst eq_refl). apply K. }
  destruct (dir_exists w dst) eqn:Hd.
  - right. split; [done |]. rewrite (E _ eq_refl). apply K.
  - left. rewrite (E dst eq_refl). apply K.
Qed.

(** ** The handler touches the destination only *)

(** Between [w] and [w'] directories were only added, none but the parent
    of [dst] and the directories above it, and, when no other process is
    writing, no file changed but the one at [dst], or the one at [alt] in
    case [dst] was a directory. *)
Definition handled_or (dst alt : path) (w w' : World) : Prop :=
  dirs w ⊆ dirs w' /\
  dirs w' ⊆ dirs w ∪ list_to_set (ancestors (parent dst)) /\
  stdin w' = stdin w /\ observers w' = observers w /\
  (others w = [] ->
   others w' = [] /\
   forall q, q <> dst -> (q = alt -> dir_exists w dst = false) ->
             files w' !! q = files w !! q).

(** The same with no second file. *)
Definition handled (dst : path) (w w' : World) : Prop :=
  dirs w ⊆ dirs w' /\
  dirs w' ⊆ dirs w ∪ list_to_set (ancestors (parent dst)) /\
  stdin w' = stdin w /\ observers w' = observers w /\
  (others w = [] ->
   others w' = [] /\ forall q, q <> dst -> files w' !! q = files w !! q).

Lemma not_ancestor_of_parent (dst : path) : dst ∉ ancestors (parent dst).
Proof.
  unfold ancestors, parent. intros Hin.
  apply list_elem_of_In, in_map_iff in Hin as (k & Hk & Hin).
  apply in_seq in Hin. apply (f_equal List.length) in Hk.
  rewrite length_take in Hk.
  destruct dst as [| a dst]; [cbn in Hin; lia |].
  assert (Hl : List.length (removelast (a :: dst)) < List.length (a :: dst)).
  { rewrite (app_removelast_last "" (l := a :: dst)) at 2 by done.
    rewrite length_app. cbn. lia. }
  lia.
Qed.

(** A directory the handler did not find was not there before. *)
Lemma dir_exists_before dst w w' :
  dirs w' ⊆ dirs w ∪ list_to_set (ancestors (parent dst)) ->
  dir_exists w dst = false -> dir_exists w' dst = false.
Proof.
  unfold dir_exists. intros D [Hroot Hd]%orb_false_iff.
  apply orb_false_iff. split; [done |].
  apply bool_decide_eq_false. apply bool_decide_eq_false in Hd.
  intros [? | Ha%elem_of_list_to_set]%D%elem_of_union; [done |].
  by apply (not_ancestor_of_parent dst).
Qed.

Lemma dirs_bound_trans (D1 D2 D3 A : gset path) :
  D2 ⊆ D1 ∪ A -> D3 ⊆ D2 ∪ A -> D3 ⊆ D1 ∪ A.
Proof.
  intros H1 H2 x [Hx | Hx]%H2%elem_of_union; [by apply H1 |].
  apply elem_of_union. by right.
Qed.

#[global] Instance handled_or_preorder dst alt : PreOrder (handled_or dst alt).
Proof.
  split.
  - intros w. split_and!; [done | apply union_subseteq_l | done | done | done].
  - intros w1 w2 w3 (D1 & U1 & I1 & B1 & F1) (D2 & U2 & I2 & B2 & F2).
    split_and!; [by etrans | by eapply dirs_bound_trans | congruence | congruence |].
    intros Ho. destruct (F1 Ho) as [Ho2 Fr1]. destruct (F2 Ho2) as [Ho3 Fr2].
    split; [done |]. intros q Hq Halt. rewrite Fr2, Fr1; [done | done | done | done |].
    intros Hq'. by apply (dir_exists_before dst w1), Halt.
Qed.

#[global] Instance handled_preorder dst : PreOrder (handled dst).
Proof.
  split.
  - intros w. split_and!; [done | apply union_subseteq_l | done | done | done].
  - intros w1 w2 w3 (D1 & U1 & I1 & B1 & F1) (D2 & U2 & I2 & B2 & F2).
    split_and!; [by etrans | by eapply dirs_bound_trans | congruence | congruence |].
    intros Ho. destruct (F1 Ho) as [Ho2 Fr1]. destruct (F2 Ho2) as [Ho3 Fr2].
    split; [done |]. intros q Hq. by rewrite Fr2, Fr1.
Qed.

Lemma handled_handled_or dst alt w w' : handled dst w w' -> handled_or dst alt w w'.
Proof.
  intros (D & U & I & B & Fr). split_and!; try done.
  intros Ho. destruct (Fr Ho) as [Ho' Fr']. split; [done |].
  intros q Hq _. by apply Fr'.
Qed.

Lemma only_file_handled dst w w' : only_file dst w w' -> handled dst w w'.
Proof.
  intros (D & _ & O & I & B & Fr).
  split_and!; [by rewrite D | rewrite D; apply union_subseteq_l | done | done |].
  intros Ho. split; [congruence | done].
Qed.

Lemma handled_same dst w w' :
  dirs w' = dirs w -> others w' = others w -> stdin w' = stdin w ->
  observers w' = observers w -> files w' = files w -> handled dst w w'.
Proof.
  intros D O I B Fi.
  split_and!; [by rewrite D | rewrite D; apply union_subseteq_l | done | done |].
  intros Ho. split; [congruence |]. intros q _. by rewrite Fi.
Qed.

(** [shutil.copy2] to [dst]. *)
Lemma shutil_copy2_handled_or src dst :
  keeps (handled_or dst (joinpath dst (name src))) (file_copier.shutil_copy2 src dst).
Proof.
  intros w.
  destruct (shutil_copy2_only_file src dst w) as [H | [Hd H]].
  - by apply handled_handled_or, only_file_handled.
  - destruct H as (D & _ & O & I & B & Fr).
    split_and!; [by rewrite D | rewrite D; apply union_subseteq_l | done | done |].
    intros Ho. split; [congruence |]. intros q Hq Halt. apply Fr.
    intros ->. specialize (Halt eq_refl). congruence.
Qed.

Lemma handled_emit dst a : keeps (handled dst) (emit a).
Proof. intros w. by apply handled_same. Qed.

Lemma handled_time_sleep dst ms : keeps (handled dst) (time_sleep ms).
Proof.
  apply keeps_syscall; [exact _ | intros w; by apply handled_same |]. intros w.
  cbn. destruct (others w) as [| change rest] eqn:Ho; cbn.
  - by apply handled_same.
  - split_and!; [done | apply union_subseteq_l | done | done |].
    intros Hno. by rewrite Hno in Ho.
Qed.

Lemma handled_path_mkdir d n : keeps (handled (joinpath d n)) (path_mkdir d).
Proof.
  apply keeps_syscall; [exact _ | intros w; by apply handled_same |]. intros w.
  destruct (existsb _ _); cbn; [reflexivity |].
  split_and!; try done; cbn; [apply union_subseteq_l |].
  unfold parent, joinpath. by rewrite removelast_last.
Qed.

Lemma handled_path_stat_size dst p : keeps (handled dst) (path_stat_size p).
Proof.
  apply keeps_syscall; [exact _ | intros w; by apply handled_same |]. intros w.
  destruct (files w !! p); cbn; [by apply handled_same |].
  destruct (dir_exists w p); cbn; [by apply handled_same | reflexivity].
Qed.

Lemma handled_log_success dst t n s d :
  keeps (@on_world FileHandler (handled dst)) (_log_success t n s d).
Proof.
  unfold _log_success, print.
  repeat (apply keeps_bind; [exact _ | | intros ?]);
    apply keeps_io, handled_emit.
Qed.

Ltac handled_step dst :=
  first
    [ apply keeps_bind; [exact _ | | intros ?]
    | apply keeps_if
    | apply keeps_ret; exact _
    | apply handled_log_success
    | apply keeps_io;
      first [ apply handled_time_sleep | apply handled_path_mkdir
            | apply handled_path_stat_size | apply handled_emit
            | eapply keeps_weaken; [apply only_file_handled |];
              apply copy_with_progress_only_file ] ].

Lemma copy_file_handled p self w :
  handled (joinpath (destination_dir self) (name p)) w
    (file_handler._copy_file p (self, w)).2.2.
Proof.
  set (dst := joinpath (destination_dir self) (name p)).
  change (file_handler._copy_file p (self, w))
    with (try_except
            (file_handler._copy_file_try self p (strftime_IMSp (clock w)))
            (file_handler._copy_file_except p (strftime_IMSp (clock w))) (self, w)).
  generalize (strftime_IMSp (clock w)). intros t.
  assert (K : keeps (on_world (handled dst))
                (try_except (file_handler._copy_file_try self p t)
                            (file_handler._copy_file_except p t))); [| exact (K (self, w))].
  apply keeps_try_except; [exact _ | |].
  - unfold file_handler._copy_file_try, print, logging_info. fold dst.
    repeat handled_step dst.
  - intros e. unfold file_handler._copy_file_except, _log_error, print, logging_error.
    repeat handled_step dst.
Qed.

Lemma handled_or_on_world {A} dst alt (m : M (FileHandler * World) A) :
  keeps (on_world (handled dst)) m -> keeps (on_world (handled_or dst alt)) m.
Proof. apply keeps_weaken. intros s s'. apply handled_handled_or. Qed.

Lemma legacy_copy_file_handled p self w :
  handled_or (joinpath (destination_dir self) (name p))
    (joinpath (joinpath (destination_dir self) (name p)) (name p)) w
    (file_copier._copy_file p (self, w)).2.2.
Proof.
  set (dst := joinpath (destination_dir self) (name p)).
  set (alt := joinpath dst (name p)).
  change (file_copier._copy_file p (self, w))
    with ((io (time_sleep 1000);;;
           try_except
             (file_copier._copy_file_try self p (strftime_IMSp (clock w)))
             (file_copier._copy_file_except p (strftime_IMSp (clock w)))) (self, w)).
  generalize (strftime_IMSp (clock w)). intros t.
  assert (K : keeps (on_world (handled_or dst alt))
                (io (time_sleep 1000);;;
                 try_except (file_copier._copy_file_try self p t)
                            (file_copier._copy_file_except p t))); [| exact (K (self, w))].
  apply keeps_bind;
    [exact _ | apply handled_or_on_world, keeps_io, handled_time_sleep | intros _].
  apply keeps_try_except; [exact _ | |].
  - unfold file_copier._copy_file_try. cbn zeta. fold dst.
    apply keeps_bind;
      [exact _ | apply handled_or_on_world, keeps_io, handled_path_mkdir | intros _].
    apply keeps_bind;
      [exact _ | apply handled_or_on_world, keeps_io, handled_path_stat_size | intros n1].
    apply keeps_bind;
      [exact _ | apply handled_or_on_world, keeps_io, handled_time_sleep | intros _].
    apply keeps_bind;
      [exact _ | apply handled_or_on_world, keeps_io, handled_path_stat_size | intros n2].
    apply keeps_if; [apply keeps_ret; exact _ |].
    apply keeps_bind; [exact _ | apply keeps_io, shutil_copy2_handled_or | intros _].
    apply handled_or_on_world. unfold logging_info.
    repeat handled_step dst.
  - intros e. apply handled_or_on_world.
    unfold file_copier._copy_file_except, _log_error, print, logging_error.
    repeat handled_step dst.
Qed.

Section HandleFileEventKeeps.

Context (R : relation World) `{!PreOrder R}.
Hypothesis R_same : forall w w',
  dirs w' = dirs w -> others w' = others w -> stdin w' = stdin w ->
  observers w' = observers w -> files w' = files w -> R w w'.

Lemma handle_file_event_keeps _copy_file p et self w :
  (forall self0 w0, destination_dir self0 = destination_dir self ->
     R w0 (_copy_file p (self0, w0)).2.2) ->
  R w (handle_file_event_with _copy_file p et (self, w)).2.2.
Proof.
  intros Hcf. unfold handle_file_event_with, bind at 1, get_self. cbn [fst snd].
  case_bool_decide; [reflexivity |].
  unfold bind at 1, processing_files_add, bind at 1, set_self, io. cbn [fst snd emit].
  unfold try_finally.
  match goal with |- context [_copy_file p (?s, ?w1)] =>
    pose proof (Hcf s w1 eq_refl) as H1;
    destruct (_copy_file p (s, w1)) as [r [self1 w2]] end.
  cbn in H1.
  assert (H0 : R w w2).
  { etrans; [| exact H1]. by apply R_same. }
  assert (Hrm : R w2 (processing_files_remove p (self1, w2)).2.2).
  { unfold processing_files_remove, bind, get_self, set_self, io. cbn.
    case_bool_decide; cbn; [by apply R_same | reflexivity]. }
  destruct r; [| | done];
    destruct (processing_files_remove p (self1, w2)) as [[[] | e' |] s3];
    cbn in *; by etrans.
Qed.

End HandleFileEventKeeps.

(** X2. While no other process writes, handling an event changes no file
    but the one at [destination_dir / name], removes no directory, and
    creates none but the destination directory and the directories above
    it: in particular the source file of a copy to another path is never
    modified or removed.  In the older version, where [shutil.copy2] copies
    into a destination that is a directory, the same holds with one more
    file that may change in that case: the one at
    [destination_dir / name / name]. *)
Theorem handler_touches_destination_only :
  forall (self : FileHandler) (w : World) (p : path) (et : string),
    others w = [] ->
    (dirs w ⊆ dirs (file_handler._handle_file_event p et (self, w)).2.2 /\
     dirs (file_handler._handle_file_event p et (self, w)).2.2
       ⊆ dirs w ∪ list_to_set (ancestors (destination_dir self)) /\
     forall q, q <> joinpath (destination_dir self) (name p) ->
       files (file_handler._handle_file_event p et (self, w)).2.2 !! q
       = files w !! q) /\
    (dirs w ⊆ dirs (file_copier._handle_file_event p et (self, w)).2.2 /\
     dirs (file_copier._handle_file_event p et (self, w)).2.2
       ⊆ dirs w ∪ list_to_set (ancestors (destination_dir self)) /\
     forall q, q <> joinpath (destination_dir self) (name p) ->
       (q = joinpath (joinpath (destination_dir self) (name p)) (name p) ->
        dir_exists w (joinpath (destination_dir self) (name p)) = false) ->
       files (file_copier._handle_file_event p et (self, w)).2.2 !! q
       = files w !! q).
Proof.
  intros self w p et Ho.
  set (dst := joinpath (destination_dir self) (name p)).
  assert (Hpar : parent dst = destination_dir self).
  { unfold parent, dst, joinpath. apply removelast_last. }
  split.
  - assert (H : handled dst w (file_handler._handle_file_event p et (self, w)).2.2).
    { apply (handle_file_event_keeps (handled dst)); [apply handled_same |].
      intros self0 w0 Hd. unfold dst. rewrite <- Hd. apply copy_file_handled. }
    destruct H as (D & U & _ & _ & Fr). rewrite Hpar in U.
    split_and!; [done | done |]. by apply Fr.
  - assert (H : handled_or dst (joinpath dst (name p)) w
                  (file_copier._handle_file_event p et (self, w)).2.2).
    { apply (handle_file_event_keeps (handled_or dst (joinpath dst (name p)))).
      - intros w1 w2 D O I B Fi. by apply handled_handled_or, handled_same.
      - intros self0 w0 Hd. unfold dst. rewrite <- Hd.
        apply legacy_copy_file_handled. }
    destruct H as (D & U & _ & _ & Fr). rewrite Hpar in U.
    split_and!; [done | done |]. by apply Fr.
Qed.

Lemma outcome_eq {St A} (m : M St A) s r : (m s).1 = r -> m s = (r, (m s).2).
Proof. intros <-. by destruct (m s). Qed.

Ltac no_member :=
  let H := fresh in
  intros H; vm_compute in H;
  repeat (apply elem_of_cons in H as [H | H]; [discriminate H |]);
  by apply elem_of_nil in H.

Ltac no_file_in_the_way :=
  let a := fresh in let Ha := fresh in
  intros a Ha; vm_compute in Ha;
  repeat (apply elem_of_cons in Ha as [-> | Ha]; [reflexivity |]);
  by apply elem_of_nil in Ha.

Definition example_file : file := mkFile [x89; x50; x4e; x47] 7 420.

Lemma example_world_file : files example_world !! example_png = Some example_file.
Proof. apply lookup_insert_eq. Qed.

Lemma example_world_no_dir p :
  p <> ["output"] -> p <> ["output"; "01-04"] -> p ∉ dirs example_world.
Proof.
  intros H1 H2. cbn. rewrite elem_of_union, !elem_of_singleton. by intros [? | ?].
Qed.

Lemma handler_touches_destination_only_witness :
  (dirs example_world
     ⊆ dirs (file_handler._handle_file_event example_png "modified"
               (example_handler, example_world)).2.2 /\
   dirs (file_handler._handle_file_event example_png "modified"
           (example_handler, example_world)).2.2
     ⊆ dirs example_world ∪ list_to_set (ancestors (destination_dir example_handler)) /\
   forall q, q <> joinpath (destination_dir example_handler) (name example_png) ->
     files (file_handler._handle_file_event example_png "modified"
              (example_handler, example_world)).2.2 !! q
     = files example_world !! q) /\
  (dirs example_world
     ⊆ dirs (file_copier._handle_file_event example_png "modified"
               (example_handler, example_world)).2.2 /\
   dirs (file_copier._handle_file_event example_png "modified"
           (example_handler, example_world)).2.2
     ⊆ dirs example_world ∪ list_to_set (ancestors (destination_dir example_handler)) /\
   forall q, q <> joinpath (destination_dir example_handler) (name example_png) ->
     (q = joinpath (joinpath (destination_dir example_handler) (name example_png))
            (name example_png) ->
      dir_exists example_world
        (joinpath (destination_dir example_handler) (name example_png)) = false) ->
     files (file_copier._handle_file_event example_png "modified"
              (example_handler, example_world)).2.2 !! q
     = files example_world !! q).
Proof.
  apply (handler_touches_destination_only example_handler example_world example_png
           "modified").
  reflexivity.
Defined.

(** ** A copy that fails leaves a prefix *)

Lemma take_prefix_of {A} n (l : list A) : take n l `prefix_of` l.
Proof. exists (drop n l). by rewrite take_drop. Qed.

Lemma take_chunk {A} pos n (l : list A) :
  take pos l ++ take n (drop pos l)
  = take (pos + List.length (take n (drop pos l))) l.
Proof.
  rewrite take_take_drop, length_take, length_drop.
  destruct (decide (n <= List.length l - pos)).
  - by rewrite Nat.min_l.
  - rewrite Nat.min_r by lia. rewrite !take_ge; [done | lia | lia].
Qed.

Lemma copy_loop_prefix fuel :
  forall fsrc fdst n progress copied w sf df,
    f_path fsrc <> f_path fdst ->
    files w !! f_path fsrc = Some sf ->
    files w !! f_path fdst = Some df ->
    content df = take (f_pos fsrc) (content sf) ->
    exists df',
      files (file_handler.copy_loop fuel fsrc fdst n progress copied w).2
        !! f_path fdst = Some df' /\
      content df' `prefix_of` content sf.
Proof.
  induction fuel as [| fuel IH]; intros fsrc fdst n progress copied w sf df Hne Hsf Hdf Hc.
  { exists df. split; [done |]. rewrite Hc. apply take_prefix_of. }
  assert (Hsame : exists df', files w !! f_path fdst = Some df' /\
                              content df' `prefix_of` content sf).
  { exists df. split; [done |]. rewrite Hc. apply take_prefix_of. }
  rewrite copy_loop_step.
  destruct (next_fault w); [done |].
  assert (Hdata : read_data w fsrc n = take n (drop (f_pos fsrc) (content sf)))
    by (unfold read_data; by rewrite Hsf).
  destruct (read_data w fsrc n) as [| b l] eqn:Hd; cbn zeta; [done |].
  destruct (next_fault (after_read w fsrc n)); [done |].
  set (w2 := after_write _ _ _).
  assert (Hsf2 : files w2 !! f_path fsrc = Some sf).
  { unfold w2, after_write. cbn. rewrite Hdf. by rewrite lookup_insert_ne. }
  assert (Hdf2 : files w2 !! f_path fdst
                 = Some (mkFile (content df ++ b :: l) (clock w) (mode df))).
  { unfold w2, after_write. cbn. rewrite Hdf. by rewrite lookup_insert_eq. }
  assert (Hc2 : content df ++ b :: l
                = take (f_pos fsrc + List.length (b :: l)) (content sf)).
  { rewrite Hc, Hdata. apply take_chunk. }
  destruct (_ =? 0)%nat.
  { cbn. eexists. split; [exact Hdf2 |]. cbn. rewrite Hc2. apply take_prefix_of. }
  eapply (IH (mkFileobj (f_path fsrc) _) (mkFileobj (f_path fdst) _)); cbn; try done.
Qed.

Lemma os_path_getsize_files p w : files (os_path_getsize p w).2 = files w.
Proof.
  unfold os_path_getsize, syscall. destruct (next_fault w); [done |]. cbn.
  destruct (files w !! p); [done |]. by destruct (dir_exists _ _).
Qed.

Lemma open_rb_files p w : files (open_rb p w).2 = files w.
Proof.
  unfold open_rb, syscall. destruct (next_fault w); [done |]. cbn.
  destruct (files w !! p); [done |]. by destruct (dir_exists _ _).
Qed.

Lemma open_wb_files p w r w' :
  open_wb p w = (r, w') ->
  (exists fo mt md, r = Return fo /\ f_path fo = p /\
                    files w' = <[p := mkFile [] mt md]> (files w)) \/
  ((forall fo, r <> Return fo) /\ files w' = files w).
Proof.
  unfold open_wb, syscall. destruct (next_fault w); [intros [= <- <-]; by right |].
  destruct (_ || _); cbn; [intros [= <- <-]; by right |].
  destruct (negb _); cbn; [intros [= <- <-]; by right |].
  intros [= <- <-]. left. by eexists _, _, _.
Qed.

Lemma shutil_copystat_content src dst w :
  files (shutil_copystat src dst w).2 !! dst = files w !! dst \/
  exists d mt md, files w !! dst = Some d /\
    files (shutil_copystat src dst w).2 !! dst = Some (mkFile (content d) mt md).
Proof.
  unfold shutil_copystat, syscall. destruct (next_fault w); [by left |]. cbn.
  destruct (files w !! src); [| by left].
  destruct (files w !! dst) as [d |] eqn:Hd; [| by left].
  right. exists d. cbn. rewrite lookup_insert_eq. by eexists _, _.
Qed.

(** X3. Whatever its outcome, [copy_with_progress] to another path leaves at
    the destination either what was there (the destination was not opened)
    or a file whose content is a prefix of the source: a copy that fails
    half-way leaves a truncated file under the final name. *)
Theorem failed_copy_leaves_prefix :
  forall (src dst : path) (chunk_size : nat) (w : World) (sf : file),
    src <> dst ->
    files w !! src = Some sf ->
    files (file_handler.copy_with_progress src dst chunk_size w).2 !! dst
    = files w !! dst \/
    exists df,
      files (file_handler.copy_with_progress src dst chunk_size w).2 !! dst = Some df /\
      content df `prefix_of` content sf.
Proof.
  intros src dst n w sf Hne Hsf.
  destruct (file_handler.copy_with_progress src dst n w) as [r w'] eqn:Hrun.
  cbn [snd]. unfold file_handler.copy_with_progress in Hrun. unfold bind at 1 in Hrun.
  pose proof (os_path_getsize_files src w) as F1.
  destruct (os_path_getsize src w) as [[total | e |] w1]; cbn in F1;
    [| injection Hrun as <- <-; left; by rewrite F1 ..].
  cbn beta iota zeta in Hrun. rewrite <- F1. rewrite <- F1 in Hsf. clear F1 w.
  unfold bind at 1 in Hrun. unfold bind at 1 in Hrun.
  pose proof (open_rb_files src w1) as F2.
  destruct (open_rb src w1) as [[fsrc | e |] w2] eqn:H2; cbn in F2;
    [| injection Hrun as <- <-; left; by rewrite F2 ..].
  apply open_rb_Return in H2 as (-> & _ & _).
  rewrite <- F2. rewrite <- F2 in Hsf. clear F2 w1.
  unfold try_finally at 1 in Hrun. unfold bind at 1 in Hrun.
  destruct (open_wb dst w2) as [r3 w3] eqn:H3.
  apply open_wb_files in H3 as [(fdst & mt & md & -> & Hq & F3) | [Hr3 F3]]; last first.
  { destruct r3 as [fo | e |]; [by destruct (Hr3 fo) | |];
      cbn in Hrun; injection Hrun as <- <-; left; cbn; by rewrite F3. }
  right.
  assert (Hsf3 : files w3 !! src = Some sf).
  { rewrite F3, lookup_insert_ne by done. done. }
  assert (Hdf3 : files w3 !! f_path fdst = Some (mkFile [] mt md)).
  { by rewrite F3, Hq, lookup_insert_eq. }
  destruct (copy_loop_prefix (S total) (mkFileobj src 0) fdst n
              (file_handler.mkProgressBar total 50) 0 w3 sf (mkFile [] mt md))
    as (df & Hdf & Hpre); [cbn; by rewrite Hq | done | done | done |].
  rewrite Hq in Hdf.
  unfold try_finally at 1 in Hrun.
  destruct (file_handler.copy_loop _ _ _ _ _ _ w3) as [[[] | e |] w4];
    cbn in Hdf; cbn -[shutil_copystat] in Hrun;
    try (injection Hrun as <- <-; by exists df).
  match type of Hrun with
  | shutil_copystat _ _ ?W = _ =>
      destruct (shutil_copystat_content src dst W) as [Hs | (d & mt' & md' & Hd & Hs)];
      rewrite Hrun in Hs; cbn [snd] in Hs
  end.
  - exists df. split; [| done]. by rewrite Hs.
  - cbn in Hd. rewrite Hdf in Hd. injection Hd as <-.
    eexists. split; [exact Hs | done].
Qed.

Lemma failed_copy_leaves_prefix_witness :
  files (file_handler.copy_with_progress example_png ["inbox"; "a.png"] 8192
           example_world_disk_full).2 !! ["inbox"; "a.png"]
  = files example_world_disk_full !! ["inbox"; "a.png"] \/
  exists df,
    files (file_handler.copy_with_progress example_png ["inbox"; "a.png"] 8192
             example_world_disk_full).2 !! ["inbox"; "a.png"] = Some df /\
    content df `prefix_of` content example_file.
Proof.
  apply (failed_copy_leaves_prefix example_png ["inbox"; "a.png"] 8192
           example_world_disk_full example_file).
  - discriminate.
  - exact example_world_file.
Defined.

(** ** The handler when nothing fails and nobody else writes *)

Lemma time_sleep_quiet ms w :
  faults w = [] -> others w = [] ->
  time_sleep ms w
  = (Return tt, emitted (Sleep ms) (set_clock (clock w + ms) (pop_fault w))).
Proof.
  intros Hq Ho. unfold time_sleep. rewrite syscall_quiet by done. cbn. by rewrite Ho.
Qed.

(** No regular file is in the way of the directory [d]. *)
Definition mkdir_free (w : World) (d : path) : Prop :=
  forall a, a ∈ ancestors d -> files w !! a = None.

Lemma mkdir_free_existsb w d :
  mkdir_free w d -> existsb (is_file w) (ancestors d) = false.
Proof.
  intros Hfree. apply not_true_is_false. intros (a & Ha & Hf)%existsb_exists.
  apply list_elem_of_In in Ha. unfold is_file in Hf.
  apply bool_decide_eq_true in Hf as [f Hf]. by rewrite (Hfree a Ha) in Hf.
Qed.

Lemma path_mkdir_quiet d w :
  faults w = [] -> mkdir_free w d ->
  path_mkdir d w
  = (Return tt,
     emitted (Mkdir d) (set_dirs (dirs w ∪ list_to_set (ancestors d)) (pop_fault w))).
Proof.
  intros Hq Hfree. unfold path_mkdir. rewrite syscall_quiet by done.
  change (existsb (is_file (pop_fault w)) (ancestors d))
    with (existsb (is_file w) (ancestors d)).
  by rewrite (mkdir_free_existsb _ _ Hfree).
Qed.

Lemma path_stat_size_quiet p w f :
  faults w = [] -> files w !! p = Some f ->
  path_stat_size p w
  = (Return (List.length (content f)),
     emitted (Stat p (List.length (content f))) (pop_fault w)).
Proof.
  intros Hq Hf. unfold path_stat_size. rewrite syscall_quiet by done.
  cbn. by rewrite Hf.
Qed.

Lemma path_stat_size_missing p w :
  faults w = [] -> files w !! p = None -> dir_exists w p = false ->
  path_stat_size p w = (Raise (OSError "No such file or directory"), pop_fault w).
Proof.
  intros Hq Hf Hd. unfold path_stat_size. rewrite syscall_quiet by done.
  cbn. rewrite Hf. change (dir_exists (pop_fault w) p) with (dir_exists w p).
  by rewrite Hd.
Qed.

Lemma World_eq (w1 w2 : World) :
  files w1 = files w2 -> dirs w1 = dirs w2 -> clock w1 = clock w2 ->
  faults w1 = faults w2 -> others w1 = others w2 -> stdin w1 = stdin w2 ->
  observers w1 = observers w2 -> trace w1 = trace w2 -> w1 = w2.
Proof. destruct w1, w2. cbn. congruence. Qed.

(** The world after the grace period, the creation of the destination
    directory and the two observations of the size. *)
Definition checked (w : World) (d p : path) (n : nat) : World :=
  set_trace (trace w ++ [Sleep 1000; Mkdir d; Stat p n; Sleep 500; Stat p n])
    (set_dirs (dirs w ∪ list_to_set (ancestors d))
       (set_clock (clock w + 1500) w)).

Lemma checked_run {B} (self : FileHandler) p w sf
    (k : M (FileHandler * World) B) (k0 : M (FileHandler * World) B) d :
  faults w = [] -> others w = [] ->
  files w !! p = Some sf -> mkdir_free w d ->
  (io (time_sleep 1000);;;
   io (path_mkdir d);;;
   initial_size <- io (path_stat_size p);;
   io (time_sleep 500);;;
   size_now <- io (path_stat_size p);;
   if negb (initial_size =? size_now)%nat then k0 else k) (self, w)
  = k (self, checked w d p (List.length (content sf))).
Proof.
  intros Hq Ho Hsf Hfree.
  rewrite (bind_io_Return _ _ _ _ _ _ (time_sleep_quiet 1000 w Hq Ho)).
  set (w1 := emitted _ _).
  rewrite (bind_io_Return _ _ _ _ _ _
             (path_mkdir_quiet d w1 (faults_pop_quiet _ Hq) Hfree)).
  set (w2 := emitted _ _).
  assert (Hq2 : faults w2 = []) by (cbn; by rewrite Hq).
  rewrite (bind_io_Return _ _ _ _ _ _ (path_stat_size_quiet p w2 sf Hq2 Hsf)).
  set (w3 := emitted _ _).
  assert (Hq3 : faults w3 = []) by (cbn; by rewrite Hq).
  rewrite (bind_io_Return _ _ _ _ _ _ (time_sleep_quiet 500 w3 Hq3 Ho)).
  set (w4 := emitted _ _).
  assert (Hq4 : faults w4 = []) by (cbn; by rewrite Hq).
  rewrite (bind_io_Return _ _ _ _ _ _ (path_stat_size_quiet p w4 sf Hq4 Hsf)).
  rewrite Nat.eqb_refl. cbn [negb]. f_equal. f_equal.
  apply World_eq; cbn; try done.
  - lia.
  - by rewrite Hq.
  - by rewrite <- !app_assoc.
Qed.

Lemma dir_exists_ancestors w d :
  dir_exists (set_dirs (dirs w ∪ list_to_set (ancestors d)) w) d = true.
Proof.
  unfold dir_exists. destruct (decide (d = [])) as [-> | Hne]; [done |].
  apply orb_true_iff. right. apply bool_decide_eq_true.
  unfold set_dirs. cbn [dirs].
  apply elem_of_union. right. apply elem_of_list_to_set.
  unfold ancestors. apply list_elem_of_In, in_map_iff.
  exists (List.length d). split; [apply firstn_all |].
  apply in_seq. destruct d; [done |]. cbn. lia.
Qed.

Lemma joinpath_not_ancestor d n : joinpath d n ∉ ancestors d.
Proof.
  unfold ancestors, joinpath. intros Hin.
  apply list_elem_of_In, in_map_iff in Hin as (k & Hk & _).
  apply (f_equal List.length) in Hk. rewrite length_take, length_app in Hk.
  cbn in Hk. lia.
Qed.

Lemma parent_joinpath d n : parent (joinpath d n) = d.
Proof. unfold parent, joinpath. apply removelast_last. Qed.

(** What the success report prints and logs. *)
Definition success_report (t : string) (p dst : path) : list action :=
  [Print (Fore.GREEN +:+ "[" +:+ t +:+ "] File copied successfully:" +:+ Style.RESET_ALL);
   Print (Fore.CYAN +:+ "File: " +:+ Style.RESET_ALL +:+ name p);
   Print (Fore.CYAN +:+ "From: " +:+ Style.RESET_ALL +:+ str_path p);
   Print (Fore.CYAN +:+ "To:   " +:+ Style.RESET_ALL +:+ str_path dst +:+ NL);
   LogInfo ("Successfully copied " +:+ name p)].

Lemma copy_file_eq p self w :
  file_handler._copy_file p (self, w)
  = try_except (file_handler._copy_file_try self p (strftime_IMSp (clock w)))
               (file_handler._copy_file_except p (strftime_IMSp (clock w))) (self, w).
Proof. reflexivity. Qed.

(** The run of the handler on a file that is there and keeps its size. *)
Lemma handle_quiet_run self w p et sf :
  p ∉ processing_files self ->
  faults w = [] -> others w = [] ->
  files w !! p = Some sf ->
  mkdir_free w (destination_dir self) ->
  (joinpath (destination_dir self) (name p) ∉ dirs w) ->
  exists w6 w7,
    (files w6 = files w /\
     dirs w6 = dirs w ∪ list_to_set (ancestors (destination_dir self)) /\
     exists tr, trace w6 = trace w ++ SetAdd p :: tr) /\
    file_handler.copy_with_progress p (joinpath (destination_dir self) (name p)) 8192 w6
    = (Return tt, w7) /\
    file_handler._handle_file_event p et (self, w)
    = (Return tt,
       (self,
        emitted (SetRemove p)
          (set_trace (trace w7 ++ success_report (strftime_IMSp (clock w)) p
                                    (joinpath (destination_dir self) (name p))) w7))).
Proof.
  intros Hin Hq Ho Hsf Hfree Hdst.
  set (dst := joinpath (destination_dir self) (name p)).
  set (t := strftime_IMSp (clock w)).
  set (w0 := emitted (SetAdd p) w).
  set (w5 := checked w0 (destination_dir self) p (List.length (content sf))).
  set (w6 := emitted (Print (Fore.GREEN +:+ "[" +:+ t +:+ "] Copying "
                             +:+ name p +:+ ":" +:+ Style.RESET_ALL)) w5).
  assert (Hq6 : faults w6 = []) by done.
  assert (Hsf6 : files w6 !! p = Some sf) by done.
  destruct (copy_with_progress_quiet p dst 8192 w6 sf Hsf6 Hq6) as [w7 Hcopy].
  { cbn. intros [Hd | Hd%elem_of_list_to_set]%elem_of_union; [done |].
    by apply joinpath_not_ancestor in Hd. }
  { unfold dst, joinpath. by destruct (destination_dir self). }
  { unfold dst. rewrite parent_joinpath.
    change (dir_exists w6 (destination_dir self))
      with (dir_exists (set_dirs (dirs w ∪ list_to_set (ancestors (destination_dir self))) w)
              (destination_dir self)).
    apply dir_exists_ancestors. }
  exists w6, w7. split_and!; [done | done | | done |].
  { eexists. cbn. rewrite <- !app_assoc. cbn. reflexivity. }
  apply handle_run; [done | | done].
  rewrite copy_file_eq. fold w0.
  change (strftime_IMSp (clock w0)) with t.
  assert (Htry : file_handler._copy_file_try (mark p self) p t (mark p self, w0)
                 = (io (print (Fore.GREEN +:+ "[" +:+ t +:+ "] Copying "
                               +:+ name p +:+ ":" +:+ Style.RESET_ALL));;;
                    io (file_handler.copy_with_progress p dst 8192);;;
                    _log_success t (name p) p dst;;;
                    io (logging_info ("Successfully copied " +:+ name p)))
                     (mark p self, w5)).
  { by apply (checked_run (mark p self) p w0 sf). }
  unfold try_except. rewrite Htry.
  assert (Hprint : print (Fore.GREEN +:+ "[" +:+ t +:+ "] Copying "
                          +:+ name p +:+ ":" +:+ Style.RESET_ALL) w5 = (Return tt, w6))
    by done.
  rewrite (bind_io_Return _ _ _ _ _ _ Hprint), (bind_io_Return _ _ _ _ _ _ Hcopy).
  unfold _log_success, logging_info, print, bind, io, emit. cbn [fst snd].
  do 2 f_equal. apply World_eq; try done.
  unfold success_report. cbn [trace set_trace]. by rewrite <- !app_assoc.
Qed.

Lemma chunk_size_pos : 0 < 8192.
Proof. apply Nat.ltb_lt. reflexivity. Qed.

(** X4. A file that is there and keeps its size is copied: when no system
    call fails, no other process writes, nothing is in the way of the
    destination directory and the destination is another path, handling the
    event returns normally; the destination directory exists afterwards
    with all its parents, the file at [destination_dir / name] is equal to
    the source in content, modification time and mode, no other file has
    changed, and the success report is the last thing before the release of
    the marker. *)
Theorem stable_file_is_copied :
  forall (self : FileHandler) (w : World) (p : path) (et : string) (sf : file),
    p ∉ processing_files self ->
    faults w = [] -> others w = [] ->
    files w !! p = Some sf ->
    mkdir_free w (destination_dir self) ->
    (joinpath (destination_dir self) (name p) ∉ dirs w) ->
    p <> joinpath (destination_dir self) (name p) ->
    exists w' tr,
      file_handler._handle_file_event p et (self, w) = (Return tt, (self, w')) /\
      files w' = <[joinpath (destination_dir self) (name p) := sf]> (files w) /\
      dirs w' = dirs w ∪ list_to_set (ancestors (destination_dir self)) /\
      trace w' = trace w ++ [SetAdd p] ++ tr
                 ++ success_report (strftime_IMSp (clock w)) p
                      (joinpath (destination_dir self) (name p))
                 ++ [SetRemove p].
Proof.
  intros self w p et sf Hin Hq Ho Hsf Hfree Hdst Hne.
  set (dst := joinpath (destination_dir self) (name p)) in *.
  destruct (handle_quiet_run self w p et sf Hin Hq Ho Hsf Hfree Hdst)
    as (w6 & w7 & (Hf6 & Hd6 & tr6 & Ht6) & Hcopy & Hrun).
  fold dst in Hcopy, Hrun.
  pose proof (copy_with_progress_only_file p dst 8192 w6) as (D & _ & _ & _ & _ & Fr).
  rewrite Hcopy in D, Fr. cbn [snd] in D, Fr.
  apply copy_with_progress_Return in Hcopy
    as (sf0 & cs & sf' & Hsf0 & _ & _ & Htr & Hdf & _ & _ & _ & Heq); [| apply chunk_size_pos].
  rewrite Hf6, Hsf in Hsf0. injection Hsf0 as <-.
  rewrite (Heq Hne) in Hdf.
  match type of Htr with _ = _ ++ ?X => set (tr7 := X) in Htr end.
  exists (emitted (SetRemove p)
            (set_trace (trace w7 ++ success_report (strftime_IMSp (clock w)) p dst) w7)),
         (tr6 ++ tr7).
  split; [exact Hrun |]. split; [| split].
  - change (files w7 = <[dst := sf]> (files w)).
    apply map_eq. intros q. destruct (decide (q = dst)) as [-> | Hq'].
    + by rewrite lookup_insert_eq.
    + rewrite lookup_insert_ne by done. rewrite Fr by done. by rewrite Hf6.
  - change (dirs w7 = dirs w ∪ list_to_set (ancestors (destination_dir self))).
    by rewrite D, Hd6.
  - unfold emitted. cbn [trace set_trace]. rewrite Htr, Ht6.
    by rewrite <- !app_assoc.
Qed.

Lemma stable_file_is_copied_witness :
  exists w' tr,
    file_handler._handle_file_event example_png "modified" (example_handler, example_world)
    = (Return tt, (example_handler, w')) /\
    files w' = <[joinpath (destination_dir example_handler) (name example_png)
                 := example_file]> (files example_world) /\
    dirs w' = dirs example_world ∪ list_to_set (ancestors (destination_dir example_handler)) /\
    trace w' = trace example_world ++ [SetAdd example_png] ++ tr
               ++ success_report (strftime_IMSp (clock example_world)) example_png
                    (joinpath (destination_dir example_handler) (name example_png))
               ++ [SetRemove example_png].
Proof.
  apply (stable_file_is_copied example_handler example_world example_png "modified"
           example_file).
  - cbn. apply not_elem_of_empty.
  - reflexivity.
  - reflexivity.
  - exact example_world_file.
  - no_file_in_the_way.
  - by apply example_world_no_dir.
  - discriminate.
Defined.

(** X5. When the destination directory is the directory of the watched file,
    the destination of the copy is the source itself: opening it for
    writing empties it before anything is read.  Handling the event then
    returns normally, reports a successful copy, and leaves the watched
    file empty. *)
Theorem copy_onto_itself_empties_the_file :
  forall (self : FileHandler) (w : World) (p : path) (et : string) (sf : file),
    p ∉ processing_files self ->
    faults w = [] -> others w = [] ->
    files w !! p = Some sf ->
    mkdir_free w (destination_dir self) ->
    (p ∉ dirs w) ->
    joinpath (destination_dir self) (name p) = p ->
    exists w' tr f',
      file_handler._handle_file_event p et (self, w) = (Return tt, (self, w')) /\
      files w' !! p = Some f' /\ content f' = [] /\
      trace w' = trace w ++ [SetAdd p] ++ tr
                 ++ success_report (strftime_IMSp (clock w)) p p ++ [SetRemove p].
Proof.
  intros self w p et sf Hin Hq Ho Hsf Hfree Hdst Heq.
  destruct (handle_quiet_run self w p et sf Hin Hq Ho Hsf Hfree)
    as (w6 & w7 & (Hf6 & Hd6 & tr6 & Ht6) & Hcopy & Hrun); [by rewrite Heq |].
  rewrite Heq in Hcopy, Hrun.
  apply copy_with_progress_Return in Hcopy
    as (sf0 & cs & sf' & Hsf0 & Hcat & _ & Htr & Hdf & _ & Hcont & _); [| apply chunk_size_pos].
  rewrite decide_True in Hcat by done.
  match type of Htr with _ = _ ++ ?X => set (tr7 := X) in Htr end.
  exists (emitted (SetRemove p)
            (set_trace (trace w7 ++ success_report (strftime_IMSp (clock w)) p p) w7)),
         (tr6 ++ tr7), sf'.
  split; [exact Hrun |]. split; [exact Hdf |]. split; [by rewrite Hcont |].
  unfold emitted. cbn [trace set_trace]. rewrite Htr, Ht6.
  by rewrite <- !app_assoc.
Qed.

(** A handler whose destination is the watched directory itself. *)
Definition example_handler_same : FileHandler :=
  FileHandler_init ["output"; "01-04"] ["output"; "01-04"].

Lemma copy_onto_itself_empties_the_file_witness :
  exists w' tr f',
    file_handler._handle_file_event example_png "modified"
      (example_handler_same, example_world)
    = (Return tt, (example_handler_same, w')) /\
    files w' !! example_png = Some f' /\ content f' = [] /\
    trace w' = trace example_world ++ [SetAdd example_png] ++ tr
               ++ success_report (strftime_IMSp (clock example_world)) example_png
                    example_png
               ++ [SetRemove example_png].
Proof.
  apply (copy_onto_itself_empties_the_file example_handler_same example_world
           example_png "modified" example_file).
  - cbn. apply not_elem_of_empty.
  - reflexivity.
  - reflexivity.
  - exact example_world_file.
  - no_file_in_the_way.
  - by apply example_world_no_dir.
  - reflexivity.
Defined.

(** The run of the handler on a path where there is nothing. *)
Lemma handle_missing_run self w p et :
  p ∉ processing_files self ->
  faults w = [] -> others w = [] ->
  files w !! p = None -> p <> [] ->
  (p ∉ dirs w) -> (p ∉ ancestors (destination_dir self)) ->
  mkdir_free w (destination_dir self) ->
  file_handler._handle_file_event p et (self, w)
  = (Return tt,
     (self,
      set_trace
        (trace w ++
         [SetAdd p; Sleep 1000; Mkdir (destination_dir self);
          Print (error_line (strftime_IMSp (clock w)) (name p)
                            "No such file or directory");
          LogError ("Error copying " +:+ name p +:+ ": No such file or directory");
          SetRemove p])
        (set_dirs (dirs w ∪ list_to_set (ancestors (destination_dir self)))
           (set_clock (clock w + 1000) w)))).
Proof.
  intros Hin Hq Ho Hf Hroot Hd Ha Hfree.
  set (t := strftime_IMSp (clock w)).
  set (w0 := emitted (SetAdd p) w).
  set (w1 := emitted (Sleep 1000) (set_clock (clock w0 + 1000) (pop_fault w0))).
  set (w2 := emitted (Mkdir (destination_dir self))
               (set_dirs (dirs w1 ∪ list_to_set (ancestors (destination_dir self)))
                  (pop_fault w1))).
  assert (H1 : time_sleep 1000 w0 = (Return tt, w1)) by by apply time_sleep_quiet.
  assert (H2 : path_mkdir (destination_dir self) w1 = (Return tt, w2)).
  { apply path_mkdir_quiet; [by apply faults_pop_quiet | done]. }
  assert (H3 : path_stat_size p w2
               = (Raise (OSError "No such file or directory"), pop_fault w2)).
  { apply path_stat_size_missing; [cbn; by rewrite Hq | done |].
    unfold dir_exists. apply orb_false_iff.
    split; apply bool_decide_eq_false; [done |].
    cbn. intros [? | ?%elem_of_list_to_set]%elem_of_union; done. }
  assert (Hcf : file_handler._copy_file p (mark p self, w0)
                = (Return tt,
                   (mark p self,
                    emitted (LogError ("Error copying " +:+ name p
                                       +:+ ": No such file or directory"))
                      (emitted (Print (error_line t (name p) "No such file or directory"))
                         (pop_fault w2))))).
  { apply (copy_file_of_failed_try (mark p self) p w0 (OSError "No such file or directory")
             (mark p self, pop_fault w2)); [| done].
    unfold file_handler._copy_file_try.
    change (destination_dir (mark p self)) with (destination_dir self).
    rewrite (bind_io_Return _ _ _ _ _ _ H1), (bind_io_Return _ _ _ _ _ _ H2).
    by rewrite (bind_io_Raise _ _ _ _ _ _ H3). }
  unfold file_handler._handle_file_event.
  rewrite (handle_run _ p et self w _ _ Hin Hcf) by done.
  do 2 f_equal. apply World_eq; try done.
  - cbn. by rewrite Hq.
  - cbn. by rewrite <- !app_assoc.
Qed.

(** X6. An event for a path where there is no file any more (removed or
    renamed before the handler looks at it) copies nothing: when no system
    call fails and no other process writes, the handler still creates the
    destination directory, then the size cannot be read; the error is
    printed and logged with the text of the exception, every file is what
    it was, and the handler returns normally with the marker released. *)
Theorem vanished_file_is_reported :
  forall (self : FileHandler) (w : World) (p : path) (et : string),
    p ∉ processing_files self ->
    faults w = [] -> others w = [] ->
    files w !! p = None -> p <> [] ->
    (p ∉ dirs w) -> (p ∉ ancestors (destination_dir self)) ->
    mkdir_free w (destination_dir self) ->
    exists w' msg,
      file_handler._handle_file_event p et (self, w) = (Return tt, (self, w')) /\
      files w' = files w /\
      dirs w' = dirs w ∪ list_to_set (ancestors (destination_dir self)) /\
      trace w' = trace w ++
        [SetAdd p; Sleep 1000; Mkdir (destination_dir self);
         Print (error_line (strftime_IMSp (clock w)) (name p) msg);
         LogError ("Error copying " +:+ name p +:+ ": " +:+ msg);
         SetRemove p].
Proof.
  intros self w p et Hin Hq Ho Hf Hroot Hd Ha Hfree.
  eexists _, "No such file or directory".
  split; [by apply handle_missing_run |]. done.
Qed.

Lemma vanished_file_is_reported_witness :
  exists w' msg,
    file_handler._handle_file_event ["output"; "01-04"; "b.png"] "modified"
      (example_handler, example_world)
    = (Return tt, (example_handler, w')) /\
    files w' = files example_world /\
    dirs w' = dirs example_world ∪ list_to_set (ancestors (destination_dir example_handler)) /\
    trace w' = trace example_world ++
      [SetAdd ["output"; "01-04"; "b.png"]; Sleep 1000;
       Mkdir (destination_dir example_handler);
       Print (error_line (strftime_IMSp (clock example_world))
                (name ["output"; "01-04"; "b.png"]) msg);
       LogError ("Error copying " +:+ name ["output"; "01-04"; "b.png"]
                 +:+ ": " +:+ msg);
       SetRemove ["output"; "01-04"; "b.png"]].
Proof.
  apply (vanished_file_is_reported example_handler example_world
           ["output"; "01-04"; "b.png"] "modified").
  - cbn. apply not_elem_of_empty.
  - reflexivity.
  - reflexivity.
  - reflexivity.
  - discriminate.
  - by apply example_world_no_dir.
  - no_member.
  - no_file_in_the_way.
Defined.

(** ** The older handler refuses to copy a file onto itself *)

(** The run of the older handler on a file that keeps its size, up to the
    call of [shutil.copy2]. *)
Lemma legacy_copy_file_checked self w p sf :
  faults w = [] -> others w = [] ->
  files w !! p = Some sf -> mkdir_free w (destination_dir self) ->
  file_copier._copy_file p (self, w)
  = try_except
      (io (file_copier.shutil_copy2 p (joinpath (destination_dir self) (name p)));;;
       _log_success (strftime_IMSp (clock w)) (name p) p
         (joinpath (destination_dir self) (name p));;;
       io (logging_info ("Successfully copied " +:+ name p)))
      (file_copier._copy_file_except p (strftime_IMSp (clock w)))
      (self, checked w (destination_dir self) p (List.length (content sf))).
Proof.
  intros Hq Ho Hsf Hfree.
  set (k := io (file_copier.shutil_copy2 p (joinpath (destination_dir self) (name p)));;;
            _log_success (strftime_IMSp (clock w)) (name p) p
              (joinpath (destination_dir self) (name p));;;
            io (logging_info ("Successfully copied " +:+ name p))).
  pose proof (time_sleep_quiet 1000 w Hq Ho) as H1.
  assert (Htry : file_copier._copy_file_try self p (strftime_IMSp (clock w))
                   (self, emitted (Sleep 1000) (set_clock (clock w + 1000) (pop_fault w)))
                 = k (self, checked w (destination_dir self) p (List.length (content sf)))).
  { rewrite <- (checked_run self p w sf k (ret tt) (destination_dir self) Hq Ho Hsf Hfree).
    by rewrite (bind_io_Return _ _ _ _ _ _ H1). }
  unfold file_copier._copy_file. unfold bind at 1, get_self. cbn [fst snd].
  unfold bind at 1, io at 1, now_strftime. cbn [fst snd].
  rewrite (bind_io_Return _ _ _ _ _ _ H1).
  unfold try_except. by rewrite Htry.
Qed.

Lemma shutil_copy2_same_file p w f :
  files w !! p = Some f ->
  file_copier.shutil_copy2 p p w = (Raise (OSError "are the same file"), w).
Proof.
  intros Hf.
  unfold file_copier.shutil_copy2, bind at 1, file_copier.os_path_isdir.
  cbn [fst snd]. rewrite Hf. cbn zeta iota.
  unfold bind at 1, file_copier.shutil_copyfile, bind at 1, file_copier.shutil_samefile.
  cbn [fst snd]. unfold is_file. rewrite Hf.
  rewrite !bool_decide_eq_true_2 by (done || by eexists). reflexivity.
Qed.

(** X7. The older version refuses what the newer one does: when the
    destination directory is the directory of the watched file, so that the
    destination of the copy is the source itself, [shutil.copy2] raises
    before it opens anything.  When no system call fails, the handler prints
    and logs the error, reports no success, returns normally, and every
    file, the watched one included, is what it was. *)
Theorem legacy_copy_onto_itself_is_refused :
  forall (self : FileHandler) (w : World) (p : path) (et : string) (sf : file),
    p ∉ processing_files self ->
    faults w = [] -> others w = [] ->
    files w !! p = Some sf ->
    mkdir_free w (destination_dir self) ->
    joinpath (destination_dir self) (name p) = p ->
    exists w' msg,
      file_copier._handle_file_event p et (self, w) = (Return tt, (self, w')) /\
      files w' = files w /\
      trace w' = trace w ++
        [SetAdd p; Sleep 1000; Mkdir (destination_dir self);
         Stat p (List.length (content sf)); Sleep 500;
         Stat p (List.length (content sf));
         Print (error_line (strftime_IMSp (clock w)) (name p) msg);
         LogError ("Error copying " +:+ name p +:+ ": " +:+ msg);
         SetRemove p].
Proof.
  intros self w p et sf Hin Hq Ho Hsf Hfree Heq.
  set (w0 := emitted (SetAdd p) w).
  assert (Hcf : file_copier._copy_file p (mark p self, w0)
                = (Return tt,
                   (mark p self,
                    emitted (LogError ("Error copying " +:+ name p +:+ ": "
                                       +:+ str_exn (OSError "are the same file")))
                      (emitted (Print (error_line (strftime_IMSp (clock w)) (name p)
                                         (str_exn (OSError "are the same file"))))
                         (checked w0 (destination_dir self) p
                            (List.length (content sf))))))).
  { rewrite (legacy_copy_file_checked (mark p self) w0 p sf) by done.
    change (destination_dir (mark p self)) with (destination_dir self).
    rewrite Heq. unfold try_except.
    rewrite (bind_io_Raise _ _ _ _ _ _
               (shutil_copy2_same_file p
                  (checked w0 (destination_dir self) p (List.length (content sf)))
                  sf Hsf)).
    reflexivity. }
  eexists _, _. split; [| split].
  - unfold file_copier._handle_file_event. by apply handle_run.
  - reflexivity.
  - cbn. by rewrite <- !app_assoc.
Qed.

(** The same handler and file as for the newer version above. *)
Lemma legacy_copy_onto_itself_is_refused_witness :
  exists w' msg,
    file_copier._handle_file_event example_png "modified"
      (example_handler_same, example_world)
    = (Return tt, (example_handler_same, w')) /\
    files w' = files example_world /\
    trace w' = trace example_world ++
      [SetAdd example_png; Sleep 1000; Mkdir (destination_dir example_handler_same);
       Stat example_png (List.length (content example_file)); Sleep 500;
       Stat example_png (List.length (content example_file));
       Print (error_line (strftime_IMSp (clock example_world)) (name example_png) msg);
       LogError ("Error copying " +:+ name example_png +:+ ": " +:+ msg);
       SetRemove example_png].
Proof.
  apply (legacy_copy_onto_itself_is_refused example_handler_same example_world
           example_png "modified" example_file).
  - cbn. apply not_elem_of_empty.
  - reflexivity.
  - reflexivity.
  - exact example_world_file.
  - intros a Ha. vm_compute in Ha.
    repeat (apply elem_of_cons in Ha as [-> | Ha]; [reflexivity |]).
    by apply elem_of_nil in Ha.
  - reflexivity.
Defined.

(** * Further properties of the monitor *)

(** ** stop *)

(** The observer the monitor holds, if any, has run: [join] can be called
    on it. *)
Definition joinable (self : FileMonitor) (w : World) : Prop :=
  forall id, observer_of self = Some id ->
    exists o, observers w !! id = Some o /\ status o <> Created.

Lemma stop_outcome self w r s' :
  file_monitor.stop (self, w) = (r, s') ->
  r <> Hang /\ s'.1 = set_running false self /\ calmer w s'.2 /\
  files s'.2 = files w /\ dirs s'.2 = dirs w /\ stdin s'.2 = stdin w /\
  (r = Return tt -> one_session self w -> all_dead s'.2) /\
  (faults w = [] -> joinable self w -> r = Return tt /\ faults s'.2 = []).
Proof.
  intros H. unfold file_monitor.stop in H.
  unfold bind at 1, set_self in H. cbn [fst snd] in H.
  unfold bind at 1, get_self in H. cbn [fst snd] in H.
  change (observer_of (set_running false self)) with (observer_of self) in H.
  destruct (observer_of self) as [id |] eqn:Hobs.
  2:{ injection H as <- <-. cbn. split_and!; try done.
      intros _ Hone j o Hj. destruct (alive (status o)) eqn:Ha; [| done].
      specialize (Hone j o Hj Ha). by rewrite Hobs in Hone. }
  unfold bind at 1, io at 1 in H. cbn [fst snd] in H.
  destruct (observer_stop id w) as [r1 w1] eqn:H1.
  pose proof H1 as H1'.
  apply observer_stop_run in H1' as (Hh1 & Hc1 & Hr1 & He1).
  assert (Hsame1 : files w1 = files w /\ dirs w1 = dirs w /\ stdin w1 = stdin w /\
                   (faults w = [] -> faults w1 = [] /\
                      forall o, observers w !! id = Some o -> r1 = Return tt /\
                        observers w1 !! id
                        = Some (mkObserver match status o with
                                           | Running => Stopping
                                           | other => other
                                           end (watches o)))).
  { apply syscall_inv in H1 as [(e & Hf & -> & ->) | [_ H1]].
    - split_and!; try done. intros Hq. unfold next_fault in Hf. by rewrite Hq in Hf.
    - cbn in H1. destruct (observers w !! id) as [o |] eqn:Ho; injection H1 as <- <-.
      + split_and!; try done. intros Hq. split; [cbn; by rewrite Hq |].
        intros o' [= <-]. split; [done |]. cbn. by rewrite lookup_insert_eq.
      + split_and!; try done. intros Hq. split; [cbn; by rewrite Hq |]. done. }
  destruct Hsame1 as (F1 & D1 & I1 & Q1).
  destruct r1 as [[] | e |]; [| | done].
  2:{ cbn in H. injection H as <- <-. cbn. split_and!; try done.
      intros Hq Hj. destruct (Hj id Hobs) as (o & Ho & _).
      destruct (Q1 Hq) as [_ Q]. destruct (Q o Ho) as [[=] _]. }
  destruct (Hr1 eq_refl) as (Ht1 & o1 & Ho1 & Hst1).
  unfold bind at 1, io at 1, now_strftime in H. cbn [fst snd] in H.
  unfold bind at 1, io at 1, print, emit in H. cbn [fst snd] in H.
  set (w2 := set_trace _ w1) in H.
  unfold bind at 1, io at 1 in H. cbn [fst snd] in H.
  destruct (observer_join id w2) as [r3 w3] eqn:H3.
  pose proof H3 as H3'.
  apply observer_join_run in H3' as (Hh3 & Hc3 & Hr3 & He3).
  assert (Hnh : r3 <> Hang).
  { apply Hh3. intros o Ho. cbn in Ho. by simplify_eq. }
  assert (Hsame3 : files w3 = files w1 /\ dirs w3 = dirs w1 /\ stdin w3 = stdin w1 /\
                   (faults w1 = [] -> faults w3 = [] /\
                      (status o1 <> Created -> r3 = Return tt))).
  { apply syscall_inv in H3 as [(e & Hf & -> & ->) | [_ H3]].
    - split_and!; try done. intros Hq. unfold next_fault in Hf. cbn in Hf.
      by rewrite Hq in Hf.
    - cbn in H3. rewrite Ho1 in H3.
      destruct (status o1) eqn:Hs; injection H3 as <- <-;
        split_and!; try done; intros Hq;
        (split; [cbn; by rewrite Hq | try done]). }
  destruct Hsame3 as (F3 & D3 & I3 & Q3).
  assert (Hcalm : calmer w w3).
  { etrans; [exact Hc1 |]. etrans; [| exact Hc3]. by apply calmer_same. }
  assert (Hq' : faults w = [] -> joinable self w -> r3 = Return tt /\ faults w3 = []).
  { intros Hq Hj. destruct (Hj id Hobs) as (o & Ho & Hcr).
    destruct (Q1 Hq) as [Hq1 Q]. destruct (Q o Ho) as [_ Ho1'].
    rewrite Ho1 in Ho1'. injection Ho1' as ->.
    destruct (Q3 Hq1) as [Hq3 Hr]. split; [| done].
    apply Hr. cbn. by destruct (status o). }
  destruct r3 as [[] | e |]; [| | done].
  - cbn in H. injection H as <- <-. cbn.
    split_and!; try done; try congruence.
    intros _ Hone j o' Hj. destruct (alive (status o')) eqn:Ha; [| done].
      destruct (Hr3 eq_refl) as (_ & o3 & Ho3 & Hst3).
      cbn in Hj.
      destruct Hcalm as [_ Hc]. destruct (Hc j o' Hj) as (o0 & Ho0 & Hal).
      specialize (Hone j o0 Ho0 (Hal Ha)). rewrite Hobs in Hone. injection Hone as <-.
      rewrite Ho3 in Hj. injection Hj as <-. by rewrite Hst3 in Ha.
  - cbn in H. injection H as <- <-. cbn.
    split_and!; try done; try congruence.
Qed.

(** X8. [stop] never blocks for ever and always leaves [running] false,
    whatever happens to the observer; when it returns normally from a state
    with at most one live observer (the monitor's), no observer thread is
    alive afterwards; and it does return normally when no system call fails
    and the observer it holds was started. *)
Theorem stop_clears_running_and_joins :
  forall (self : FileMonitor) (w : World),
    (file_monitor.stop (self, w)).1 <> Hang /\
    (file_monitor.stop (self, w)).2.1 = set_running false self /\
    ((file_monitor.stop (self, w)).1 = Return tt ->
     one_session self w -> all_dead (file_monitor.stop (self, w)).2.2) /\
    (faults w = [] -> joinable self w ->
     (file_monitor.stop (self, w)).1 = Return tt).
Proof.
  intros self w. destruct (file_monitor.stop (self, w)) as [r s'] eqn:H.
  apply stop_outcome in H as (Hh & Hs & _ & _ & _ & _ & Hd & Hq).
  cbn. split_and!; try done. intros Hf Hj. by destruct (Hq Hf Hj).
Qed.

(** ** start_monitoring *)

(** What a successful [start_monitoring] prints and logs after the observer
    has started. *)
Definition started_report (t : string) (self : FileMonitor) : list action :=
  [Print (Fore.GREEN +:+ "[" +:+ t +:+ "] Monitoring started:" +:+ Style.RESET_ALL);
   Print (Fore.CYAN +:+ "Source:      " +:+ Style.RESET_ALL
          +:+ str_opt_path (current_source_dir self));
   Print (Fore.CYAN +:+ "Destination: " +:+ Style.RESET_ALL
          +:+ str_path (monitor_destination_dir self));
   Print (Fore.YELLOW +:+ "Press ESC to open menu" +:+ Style.RESET_ALL +:+ NL);
   LogInfo ("Started monitoring directory: " +:+ str_opt_path (current_source_dir self))].

Lemma syscall_pass {A} (op : M World A) w :
  next_fault w = None -> syscall op w = op (pop_fault w).
Proof. intros H. unfold syscall. by rewrite H. Qed.

Lemma next_fault_quiet w : faults w = [] -> next_fault w = None.
Proof. intros H. unfold next_fault. by rewrite H. Qed.

Lemma observer_schedule_pass id dir w o :
  next_fault w = None -> observers w !! id = Some o ->
  observer_schedule id dir w
  = (Return tt,
     emitted (ObserverSchedule id dir)
       (set_observers (<[id := mkObserver (status o) (dir :: watches o)]> (observers w))
          (pop_fault w))).
Proof.
  intros Hq Ho. unfold observer_schedule. rewrite syscall_pass by done.
  cbn. by rewrite Ho.
Qed.

Lemma observer_start_pass id w ws :
  next_fault w = None -> observers w !! id = Some (mkObserver Created ws) ->
  forallb (fun d => is_file w d || dir_exists w d) ws = true ->
  observer_start id w
  = (Return tt,
     emitted (ObserverStart id)
       (set_observers (<[id := mkObserver Running ws]> (observers w)) (pop_fault w))).
Proof.
  intros Hq Ho Hd. unfold observer_start. rewrite syscall_pass by done.
  cbn. rewrite Ho. cbn.
  change (forallb (fun d => is_file (pop_fault w) d || dir_exists (pop_fault w) d) ws)
    with (forallb (fun d => is_file w d || dir_exists w d) ws).
  by rewrite Hd.
Qed.

Lemma start_monitoring_eq self w :
  file_monitor.start_monitoring (self, w)
  = (if negb match current_source_dir self with
             | None => false
             | Some d => is_file w d || dir_exists w d
             end
     then io (print (Fore.RED +:+ "Error: Source directory does not exist: "
                     +:+ str_opt_path (current_source_dir self) +:+ Style.RESET_ALL))
     else try_except (file_monitor.start_monitoring_try self)
                     file_monitor.start_monitoring_except) (self, w).
Proof.
  unfold file_monitor.start_monitoring, bind at 1, get_self. cbn [fst snd].
  by destruct (current_source_dir self).
Qed.

(** [start_monitoring] when neither [schedule] nor [start] fails. *)
Lemma start_monitoring_started self w d :
  next_fault w = None -> next_fault (pop_fault w) = None ->
  current_source_dir self = Some d -> is_file w d || dir_exists w d = true ->
  file_monitor.start_monitoring (self, w)
  = (Return tt,
     (set_observer (Some (fresh (dom (observers w)))) self,
      set_trace
        (trace w ++
         [ObserverNew (fresh (dom (observers w)));
          ObserverSchedule (fresh (dom (observers w))) d;
          ObserverStart (fresh (dom (observers w)))]
         ++ started_report (strftime_IMSp (clock w)) self)
        (set_observers
           (<[fresh (dom (observers w)) := mkObserver Running [d]]> (observers w))
           (pop_fault (pop_fault w))))).
Proof.
  intros Hq Hq' Hcur Hd. rewrite start_monitoring_eq, Hcur, Hd. cbn [negb].
  set (id := fresh (dom (observers w))).
  unfold try_except, file_monitor.start_monitoring_try.
  unfold bind at 1, io at 1, Observer_new. cbn [fst snd]. fold id.
  unfold bind at 1, set_self. cbn [fst snd].
  set (w1 := emitted (ObserverNew id) _).
  assert (Hq1 : next_fault w1 = None) by done.
  assert (Ho1 : observers w1 !! id = Some (mkObserver Created [])).
  { unfold w1. cbn. by rewrite lookup_insert_eq. }
  rewrite Hcur. cbn [default].
  rewrite (bind_io_Return _ _ _ _ _ _ (observer_schedule_pass id d w1 _ Hq1 Ho1)).
  set (w2 := emitted (ObserverSchedule id d) _).
  assert (Hq2 : next_fault w2 = None) by done.
  assert (Ho2 : observers w2 !! id = Some (mkObserver Created [d])).
  { unfold w2. cbn. by rewrite lookup_insert_eq. }
  assert (Hd2 : forallb (fun d => is_file w2 d || dir_exists w2 d) [d] = true).
  { cbn [forallb]. change (is_file w2 d || dir_exists w2 d)
      with (is_file w d || dir_exists w d). by rewrite Hd. }
  rewrite (bind_io_Return _ _ _ _ _ _ (observer_start_pass id w2 [d] Hq2 Ho2 Hd2)).
  unfold print_monitoring_started, logging_info, print, bind, io, now_strftime, emit.
  cbn [fst snd].
  do 2 f_equal. apply World_eq; try done.
  - cbn. by rewrite !insert_insert_eq.
  - cbn. unfold started_report. rewrite Hcur. by rewrite <- !app_assoc.
Qed.

Lemma start_monitoring_pass self w d :
  next_fault w = None -> next_fault (pop_fault w) = None ->
  current_source_dir self = Some d -> dir_exists w d = true ->
  file_monitor.start_monitoring (self, w)
  = (Return tt,
     (set_observer (Some (fresh (dom (observers w)))) self,
      set_trace
        (trace w ++
         [ObserverNew (fresh (dom (observers w)));
          ObserverSchedule (fresh (dom (observers w))) d;
          ObserverStart (fresh (dom (observers w)))]
         ++ started_report (strftime_IMSp (clock w)) self)
        (set_observers
           (<[fresh (dom (observers w)) := mkObserver Running [d]]> (observers w))
           (pop_fault (pop_fault w))))).
Proof.
  intros Hq Hq' Hcur Hd. apply start_monitoring_started; try done.
  by rewrite Hd, orb_true_r.
Qed.

(** X9. When no system call fails and the current source directory exists,
    [start_monitoring] creates one new observer, with an identity no
    observer had before, schedules exactly that directory on it, starts it
    and keeps it in [self.observer]; the observers that existed are as they
    were. *)
Theorem start_monitoring_watches_directory :
  forall (self : FileMonitor) (w : World) (d : path),
    faults w = [] -> current_source_dir self = Some d -> dir_exists w d = true ->
    exists id w',
      file_monitor.start_monitoring (self, w)
      = (Return tt, (set_observer (Some id) self, w')) /\
      (id ∉ dom (observers w)) /\
      observers w' = <[id := mkObserver Running [d]]> (observers w) /\
      trace w' = trace w ++ [ObserverNew id; ObserverSchedule id d; ObserverStart id]
                 ++ started_report (strftime_IMSp (clock w)) self.
Proof.
  intros self w d Hq Hcur Hd. eexists _, _.
  split.
  { apply start_monitoring_pass;
      [by apply next_fault_quiet
      | apply next_fault_quiet; cbn; by rewrite Hq | done | done]. }
  split; [apply is_fresh | done].
Qed.

(** The monitor before its first watch, with 01-04 as the current folder. *)
Definition example_monitor_0104 : FileMonitor :=
  set_current_source_dir (Some ["output"; "01-04"]) example_monitor.

Lemma start_monitoring_watches_directory_witness :
  exists id w',
    file_monitor.start_monitoring (example_monitor_0104, example_world)
    = (Return tt, (set_observer (Some id) example_monitor_0104, w')) /\
    (id ∉ dom (observers example_world)) /\
    observers w' = <[id := mkObserver Running [["output"; "01-04"]]]>
                     (observers example_world) /\
    trace w' = trace example_world
               ++ [ObserverNew id; ObserverSchedule id ["output"; "01-04"];
                   ObserverStart id]
               ++ started_report (strftime_IMSp (clock example_world))
                    example_monitor_0104.
Proof.
  apply (start_monitoring_watches_directory example_monitor_0104 example_world
           ["output"; "01-04"]); reflexivity.
Defined.

Lemma observer_stop_quiet id w o :
  faults w = [] -> observers w !! id = Some o ->
  observer_stop id w
  = (Return tt,
     emitted (ObserverStop id)
       (set_observers
          (<[id := mkObserver match status o with
                              | Running => Stopping
                              | other => other
                              end (watches o)]> (observers w))
          (pop_fault w))).
Proof.
  intros Hq Ho. unfold observer_stop. rewrite syscall_quiet by done.
  cbn. by rewrite Ho.
Qed.

Lemma stop_join_quiet {Self} id (self : Self) w o :
  faults w = [] -> observers w !! id = Some o -> status o <> Created ->
  (io (observer_stop id);;; io (observer_join id)) (self, w)
  = (Return tt,
     (self,
      set_trace (trace w ++ [ObserverStop id; ObserverJoin id])
        (set_observers (<[id := mkObserver Exited (watches o)]> (observers w)) w))).
Proof.
  intros Hq Ho Hst.
  rewrite (bind_io_Return _ _ _ _ _ _ (observer_stop_quiet id w o Hq Ho)).
  set (w1 := emitted _ _).
  unfold io, observer_join. cbn [fst snd]. rewrite syscall_quiet by (cbn; by rewrite Hq).
  cbn. rewrite lookup_insert_eq. cbn.
  destruct (status o); [done | ..];
    (do 2 f_equal; apply World_eq; try done;
     [cbn; by rewrite Hq | cbn; by rewrite insert_insert_eq
     | cbn; by rewrite <- app_assoc]).
Qed.

(** The first statement of [change_source_folder] when nothing fails. *)
Lemma stop_current_quiet self w :
  faults w = [] -> joinable self w ->
  exists w1,
    match observer_of self with
    | Some id => io (observer_stop id);;; io (observer_join id)
    | None => ret tt
    end (self, w) = (Return tt, (self, w1)) /\
    faults w1 = [] /\ files w1 = files w /\ dirs w1 = dirs w /\
    stdin w1 = stdin w /\ clock w1 = clock w /\
    dom (observers w1) = dom (observers w) /\
    trace w1 = trace w ++ stop_join_trace (observer_of self) /\
    (one_session self w -> all_dead w1).
Proof.
  intros Hq Hj.
  destruct (observer_of self) as [id |] eqn:Hobs.
  - destruct (Hj id Hobs) as (o & Ho & Hst).
    eexists. split; [by apply (stop_join_quiet id self w o) |].
    split_and!; try done.
    + cbn. by apply dom_insert_lookup_L.
    + intros Hone j o' Hj'. cbn in Hj'.
      destruct (decide (id = j)) as [<- | Hne].
      * rewrite lookup_insert_eq in Hj'. by injection Hj' as <-.
      * rewrite lookup_insert_ne in Hj' by done.
        destruct (alive (status o')) eqn:Ha; [| done].
        specialize (Hone j o' Hj' Ha). rewrite Hobs in Hone. by injection Hone.
  - exists w. split_and!; try done.
    + cbn. by rewrite app_nil_r.
    + intros Hone j o Hj'. destruct (alive (status o)) eqn:Ha; [| done].
      specialize (Hone j o Hj' Ha). by rewrite Hobs in Hone.
Qed.

Definition missing_directory_line (d : path) : string :=
  Fore.RED +:+ "Error: Source directory does not exist: " +:+ str_path d
  +:+ Style.RESET_ALL.

(** X10. Choosing a folder that does not exist switches monitoring off: when
    no system call fails, [change_source_folder] stops and joins the
    observer it holds, takes the first valid folder name from the input,
    finds no such directory under the base directory, prints the error and
    returns normally; no new observer is created, no observer thread is
    alive afterwards, and the monitor still holds the old, stopped
    observer. *)
Theorem missing_folder_leaves_nothing_monitored :
  forall (self : FileMonitor) (w : World) (bad : list string) (good : string)
         (rest : list string),
    faults w = [] -> one_session self w -> joinable self w ->
    stdin w = bad ++ good :: rest ->
    Forall (fun l => utils.validate_folder_name (strip l) <> Return true) bad ->
    utils.validate_folder_name (strip good) = Return true ->
    files w !! joinpath (base_source_dir self) (strip good) = None ->
    dir_exists w (joinpath (base_source_dir self) (strip good)) = false ->
    exists w',
      file_monitor.change_source_folder (self, w)
      = (Return tt,
         (set_current_source_dir
            (Some (joinpath (base_source_dir self) (strip good))) self, w')) /\
      all_dead w' /\
      dom (observers w') = dom (observers w) /\
      stdin w' = rest /\
      trace w' = trace w ++ stop_join_trace (observer_of self) ++ reprompts bad
                 ++ [Input utils.prompt;
                     Print (missing_directory_line
                              (joinpath (base_source_dir self) (strip good)))].
Proof.
  intros self w bad good rest Hq Hone Hj Hin Hbad Hgood Hf Hd.
  set (d := joinpath (base_source_dir self) (strip good)) in *.
  destruct (stop_current_quiet self w Hq Hj)
    as (w1 & H1 & Hq1 & F1 & D1 & I1 & C1 & O1 & T1 & Hdead1).
  apply validate_folder_name_true in Hgood.
  destruct (get_valid_folder_name_loop_spec bad (S (List.length (stdin w1)))
              w1 good rest) as (w2 & H2 & I2 & Hq2 & T2 & F2 & D2 & O2 & C2);
    [done | | done | by rewrite I1 | rewrite I1, Hin, length_app; cbn; lia |].
  { eapply Forall_impl; [exact Hbad |]. intros l Hl. cbn in Hl.
    rewrite validate_folder_name_true in Hl. by apply not_true_is_false. }
  exists (emitted (Print (missing_directory_line d)) w2).
  split_and!.
  - unfold file_monitor.change_source_folder.
    unfold bind at 1, get_self. cbn [fst snd].
    rewrite (bind_eq_Return _ _ _ _ _ H1).
    assert (H2' : utils.get_valid_folder_name w1 = (Return (strip good), w2)) by done.
    rewrite (bind_io_Return _ _ _ _ _ _ H2').
    unfold bind at 1, set_self. cbn [fst snd]. fold d.
    rewrite start_monitoring_eq.
    change (current_source_dir (set_current_source_dir (Some d) self)) with (Some d).
    cbn beta iota.
    assert (Hno : is_file w2 d || dir_exists w2 d = false).
    { apply orb_false_iff. split.
      - unfold is_file. apply bool_decide_eq_false. rewrite F2, F1, Hf.
        by intros [? ?].
      - unfold dir_exists in *. by rewrite D2, D1. }
    rewrite Hno. reflexivity.
  - intros j o Ho. cbn in Ho. rewrite O2 in Ho. by eapply Hdead1.
  - cbn. by rewrite O2, O1.
  - done.
  - cbn. rewrite T2, T1. by rewrite <- !app_assoc.
Qed.

Lemma example_running_one_session :
  one_session example_monitor_running example_world_running.
Proof.
  intros id o Ho Ha. cbn in Ho. apply lookup_singleton_Some in Ho as [<- _]. reflexivity.
Qed.

Lemma example_running_joinable :
  joinable example_monitor_running (set_stdin ["4"; "03-06"; "2"] example_world_running) /\
  joinable example_monitor_running example_world_running.
Proof. split; intros id [= <-]; by eexists. Qed.

Lemma missing_folder_leaves_nothing_monitored_witness :
  exists w',
    file_monitor.change_source_folder
      (example_monitor_running, set_stdin ["4"; "03-06"; "2"] example_world_running)
    = (Return tt,
       (set_current_source_dir
          (Some (joinpath (base_source_dir example_monitor_running) (strip "03-06")))
          example_monitor_running, w')) /\
    all_dead w' /\
    dom (observers w') = dom (observers example_world_running) /\
    stdin w' = ["2"] /\
    trace w' = trace example_world_running
               ++ stop_join_trace (observer_of example_monitor_running)
               ++ reprompts ["4"]
               ++ [Input utils.prompt;
                   Print (missing_directory_line
                            (joinpath (base_source_dir example_monitor_running)
                               (strip "03-06")))].
Proof.
  apply (missing_folder_leaves_nothing_monitored example_monitor_running
           (set_stdin ["4"; "03-06"; "2"] example_world_running) ["4"] "03-06" ["2"]).
  - reflexivity.
  - exact example_running_one_session.
  - exact (proj1 example_running_joinable).
  - reflexivity.
  - repeat constructor. discriminate.
  - reflexivity.
  - reflexivity.
  - reflexivity.
Defined.

(** The state [start_monitoring] leaves when [observer.start()] fails. *)
Lemma start_monitoring_failed_start self w d e :
  faults w = [None; Some e] -> is_Exception e = true ->
  current_source_dir self = Some d ->
  is_file w d || dir_exists w d = true ->
  file_monitor.start_monitoring (self, w)
  = (Return tt,
     (set_observer (Some (fresh (dom (observers w)))) self,
      set_trace
        (trace w ++
         [ObserverNew (fresh (dom (observers w)));
          ObserverSchedule (fresh (dom (observers w))) d;
          LogError ("Error starting monitoring: " +:+ str_exn e);
          Print (Fore.RED +:+ "Error starting monitoring: " +:+ str_exn e
                 +:+ Style.RESET_ALL)])
        (set_faults []
           (set_observers
              (<[fresh (dom (observers w)) := mkObserver Created [d]]> (observers w))
              w)))).
Proof.
  intros Hq He Hcur Hd. rewrite start_monitoring_eq, Hcur, Hd. cbn [negb].
  set (id := fresh (dom (observers w))).
  unfold try_except, file_monitor.start_monitoring_try.
  unfold bind at 1, io at 1, Observer_new. cbn [fst snd]. fold id.
  unfold bind at 1, set_self. cbn [fst snd].
  rewrite Hcur. cbn [default].
  set (w1 := emitted (ObserverNew id) _).
  assert (H2 : observer_schedule id d w1
               = (Return tt,
                  emitted (ObserverSchedule id d)
                    (set_observers (<[id := mkObserver Created [d]]> (observers w))
                       (pop_fault w1)))).
  { unfold observer_schedule, syscall, next_fault. cbn. rewrite Hq.
    cbn. rewrite lookup_insert_eq. cbn. by rewrite insert_insert_eq. }
  rewrite (bind_io_Return _ _ _ _ _ _ H2).
  set (w2 := emitted (ObserverSchedule id d) _).
  assert (H3 : observer_start id w2 = (Raise e, pop_fault w2)).
  { unfold observer_start, syscall, next_fault. cbn. by rewrite Hq. }
  rewrite (bind_io_Raise _ _ _ _ _ _ H3), He.
  unfold file_monitor.start_monitoring_except, logging_error, print, bind, io, emit.
  cbn [fst snd]. do 2 f_equal. apply World_eq; try done.
  - cbn. by rewrite Hq.
  - cbn. by rewrite <- !app_assoc.
Qed.

(** What [change_source_folder] and [stop] do while the monitor holds an
    observer that was never started. *)
Lemma unstarted_observer_blocks self w id ws :
  faults w = [] -> observer_of self = Some id ->
  observers w !! id = Some (mkObserver Created ws) ->
  file_monitor.change_source_folder (self, w)
  = (Raise (RuntimeError "cannot join thread before it is started"),
     (self, set_trace (trace w ++ [ObserverStop id]) w)) /\
  file_monitor.stop (self, w)
  = (Raise (RuntimeError "cannot join thread before it is started"),
     (set_running false self,
      set_trace
        (trace w ++
         [ObserverStop id;
          Print (NL +:+ Fore.YELLOW +:+ "[" +:+ strftime_IMSp (clock w)
                 +:+ "] Monitoring stopped" +:+ Style.RESET_ALL)]) w)).
Proof.
  intros Hq Hobs Ho.
  pose proof (observer_stop_quiet id w _ Hq Ho) as H1. cbn in H1.
  set (w1 := emitted (ObserverStop id) _) in H1.
  assert (Hw1 : w1 = set_trace (trace w ++ [ObserverStop id]) w).
  { apply World_eq; try done.
    - cbn. by rewrite Hq.
    - cbn. apply insert_id. done. }
  assert (Hjoin : forall w2, faults w2 = [] ->
            observers w2 !! id = Some (mkObserver Created ws) ->
            observer_join id w2
            = (Raise (RuntimeError "cannot join thread before it is started"),
               pop_fault w2)).
  { intros w2 Hq2 Ho2. unfold observer_join. rewrite syscall_quiet by done.
    cbn. by rewrite Ho2. }
  split.
  - unfold file_monitor.change_source_folder.
    unfold bind at 1, get_self. cbn [fst snd]. rewrite Hobs.
    unfold bind at 1. rewrite (bind_io_Return _ _ _ _ _ _ H1).
    unfold io. cbn [fst snd]. rewrite Hjoin; [| by rewrite Hw1 | by rewrite Hw1].
    do 2 f_equal. rewrite Hw1. apply World_eq; try done. cbn. by rewrite Hq.
  - unfold file_monitor.stop.
    unfold bind at 1, set_self. cbn [fst snd].
    unfold bind at 1, get_self. cbn [fst snd].
    change (observer_of (set_running false self)) with (observer_of self).
    rewrite Hobs. rewrite (bind_io_Return _ _ _ _ _ _ H1).
    unfold bind at 1, io at 1, now_strftime. cbn [fst snd].
    unfold bind at 1, io at 1, print, emit. cbn [fst snd].
    unfold bind at 1, io at 1. cbn [fst snd].
    rewrite Hjoin; [| by rewrite Hw1 | by rewrite Hw1].
    do 2 f_equal. rewrite Hw1. apply World_eq; try done.
    + cbn. by rewrite Hq.
    + cbn. by rewrite <- !app_assoc.
Qed.

(** X11. When [observer.start()] fails inside [start_monitoring], the error is
    logged and [start_monitoring] returns normally, but the monitor keeps
    the observer that never started.  From then on [change_source_folder]
    raises RuntimeError at [join()] before it asks for a folder name, and
    [stop] raises it after setting [running] to false: the folder cannot be
    changed any more. *)
Theorem failed_start_blocks_folder_change :
  forall (self : FileMonitor) (w : World) (d : path) (e : exn),
    faults w = [None; Some e] -> is_Exception e = true ->
    current_source_dir self = Some d ->
    is_file w d || dir_exists w d = true ->
    exists id w1 w2 w3,
      file_monitor.start_monitoring (self, w)
      = (Return tt, (set_observer (Some id) self, w1)) /\
      observers w1 !! id = Some (mkObserver Created [d]) /\
      LogError ("Error starting monitoring: " +:+ str_exn e) ∈ trace w1 /\
      file_monitor.change_source_folder (set_observer (Some id) self, w1)
      = (Raise (RuntimeError "cannot join thread before it is started"),
         (set_observer (Some id) self, w2)) /\
      stdin w2 = stdin w /\ trace w2 = trace w1 ++ [ObserverStop id] /\
      file_monitor.stop (set_observer (Some id) self, w1)
      = (Raise (RuntimeError "cannot join thread before it is started"),
         (set_running false (set_observer (Some id) self), w3)).
Proof.
  intros self w d e Hq He Hcur Hd.
  pose proof (start_monitoring_failed_start self w d e Hq He Hcur Hd) as H1.
  set (id := fresh (dom (observers w))) in *.
  match type of H1 with _ = (_, (_, ?W)) => set (w1 := W) in * end.
  assert (Ho1 : observers w1 !! id = Some (mkObserver Created [d])).
  { unfold w1. cbn. by rewrite lookup_insert_eq. }
  destruct (unstarted_observer_blocks (set_observer (Some id) self) w1 id [d])
    as [H2 H3]; [done | done | done |].
  eexists id, w1, _, _. split_and!; [exact H1 | exact Ho1 | | exact H2 | done | done | exact H3].
  unfold w1. cbn [trace set_trace]. apply elem_of_app. right.
  rewrite !elem_of_cons. auto.
Qed.

(** The start of the observer fails. *)
Definition example_world_no_watch : World :=
  set_faults [None; Some (OSError "inotify watch limit reached")] example_world.

Lemma failed_start_blocks_folder_change_witness :
  exists id w1 w2 w3,
    file_monitor.start_monitoring (example_monitor_0104, example_world_no_watch)
    = (Return tt, (set_observer (Some id) example_monitor_0104, w1)) /\
    observers w1 !! id = Some (mkObserver Created [["output"; "01-04"]]) /\
    LogError ("Error starting monitoring: "
              +:+ str_exn (OSError "inotify watch limit reached")) ∈ trace w1 /\
    file_monitor.change_source_folder (set_observer (Some id) example_monitor_0104, w1)
    = (Raise (RuntimeError "cannot join thread before it is started"),
       (set_observer (Some id) example_monitor_0104, w2)) /\
    stdin w2 = stdin example_world_no_watch /\
    trace w2 = trace w1 ++ [ObserverStop id] /\
    file_monitor.stop (set_observer (Some id) example_monitor_0104, w1)
    = (Raise (RuntimeError "cannot join thread before it is started"),
       (set_running false (set_observer (Some id) example_monitor_0104), w3)).
Proof.
  apply (failed_start_blocks_folder_change example_monitor_0104 example_world_no_watch
           ["output"; "01-04"] (OSError "inotify watch limit reached")); reflexivity.
Defined.

(** ** The folder name that comes back *)

Lemma input_outcome prompt w r w' :
  input prompt w = (r, w') ->
  faults w = [] ->
  faults w' = [] /\
  (forall line, r = Return line -> stdin w = line :: stdin w') /\
  (forall e, r = Raise e -> e = EOFError /\ stdin w = [] /\ stdin w' = []).
Proof.
  intros H Hq. unfold input in H. rewrite syscall_quiet in H by done.
  cbn in H. destruct (stdin w) as [| line rest] eqn:Hin; injection H as <- <-; cbn.
  - rewrite Hq. split_and!; [done | done |]. intros e [= <-]. done.
  - rewrite Hq. split_and!; [done | by intros ? [= <-] | done].
Qed.

Lemma get_valid_folder_name_loop_outcome fuel : forall w r w',
  utils.get_valid_folder_name_loop fuel w = (r, w') ->
  (forall s, r = Return s -> DD_DD s) /\
  (faults w = [] ->
   faults w' = [] /\ forall e, r = Raise e -> e = EOFError /\ stdin w' = []).
Proof.
  induction fuel as [| fuel IH]; intros w r w' H.
  { injection H as <- <-. done. }
  cbn [utils.get_valid_folder_name_loop] in H.
  apply bind_inv in H as [(line & w1 & H1 & H) | [(e & H1 & ->) | (H1 & ->)]].
  - destruct (validate_folder_name_cases (strip line)) as [[Hv Hm] | [Hv _]];
      rewrite Hv in H.
    + injection H as <- <-. split.
      * intros s [= <-]. by apply re_match_strip.
      * intros Hq. destruct (input_outcome _ _ _ _ H1 Hq) as (Hq1 & _). done.
    + cbn in H. apply IH in H as [Hret Hexc]. split; [done |].
      intros Hq. destruct (input_outcome _ _ _ _ H1 Hq) as (Hq1 & _).
      apply Hexc. cbn. done.
  - split; [done |]. intros Hq.
    destruct (input_outcome _ _ _ _ H1 Hq) as (Hq1 & _ & He).
    split; [done |]. intros e' [= <-]. by destruct (He e eq_refl) as (-> & _ & ?).
  - split; [done |]. intros Hq.
    destruct (input_outcome _ _ _ _ H1 Hq) as (Hq1 & _). done.
Qed.

(** X12. [get_valid_folder_name] never loops for ever on a finite input; a
    name it returns has the form of two digits, a hyphen and two digits;
    and when no system call fails it can end otherwise only with EOFError,
    after the whole input has been read. *)
Theorem get_valid_folder_name_returns_validated :
  forall (w : World),
    (utils.get_valid_folder_name w).1 <> Hang /\
    (forall s, (utils.get_valid_folder_name w).1 = Return s -> DD_DD s) /\
    (faults w = [] ->
     forall e, (utils.get_valid_folder_name w).1 = Raise e ->
       e = EOFError /\ stdin (utils.get_valid_folder_name w).2 = []).
Proof.
  intros w. destruct (utils.get_valid_folder_name w) as [r w'] eqn:H. cbn [fst snd].
  split_and!.
  - by apply get_valid_folder_name_run in H as (? & _).
  - by apply get_valid_folder_name_loop_outcome in H as [? _].
  - intros Hq. apply get_valid_folder_name_loop_outcome in H as [_ He].
    by destruct (He Hq).
Qed.

(** ** The directory that is monitored *)

(** Between [s] and [s'] the monitor kept its base and destination
    directories, and its current source directory is what it was or a
    directory DD-DD directly under the base directory [b]. *)
Definition child_of (b : path) (s s' : FileMonitor * World) : Prop :=
  base_source_dir s.1 = b ->
  base_source_dir s'.1 = b /\
  monitor_destination_dir s'.1 = monitor_destination_dir s.1 /\
  (current_source_dir s'.1 = current_source_dir s.1 \/
   exists folder_name, DD_DD folder_name /\
     current_source_dir s'.1 = Some (joinpath b folder_name)).

#[global] Instance child_of_preorder b : PreOrder (child_of b).
Proof.
  split.
  - intros s Hb. split_and!; [done | done | by left].
  - intros s1 s2 s3 H12 H23 Hb.
    destruct (H12 Hb) as (Hb2 & Hd2 & Hc2). destruct (H23 Hb2) as (Hb3 & Hd3 & Hc3).
    split_and!; [done | congruence |].
    destruct Hc3 as [Hc3 | Hc3]; [| by right].
    destruct Hc2 as [Hc2 | Hc2]; [left; congruence |].
    right. destruct Hc2 as (n & Hn & Hc2). exists n. split; [done | congruence].
Qed.

Lemma child_of_io {A} b (m : M World A) : keeps (child_of b) (io m).
Proof.
  intros [self w] Hb. unfold io. cbn. destruct (m w). cbn.
  split_and!; [done | done | by left].
Qed.

Lemma child_of_same b self self' w w' :
  base_source_dir self' = base_source_dir self ->
  monitor_destination_dir self' = monitor_destination_dir self ->
  current_source_dir self' = current_source_dir self ->
  child_of b (self, w) (self', w').
Proof. intros Hb Hd Hc Hbb. cbn in *. split_and!; [congruence | done | by left]. Qed.

Lemma child_of_set_self b f :
  (forall self, base_source_dir (f self) = base_source_dir self /\
                monitor_destination_dir (f self) = monitor_destination_dir self /\
                current_source_dir (f self) = current_source_dir self) ->
  keeps (child_of b) (set_self f).
Proof.
  intros Hf [self w]. destruct (Hf self) as (? & ? & ?). by apply child_of_same.
Qed.

Lemma keeps_bind_get_self {Self B} (R : relation (Self * World))
    (k : Self -> M (Self * World) B) :
  (forall self, keeps R (k self)) -> keeps R (bind get_self k).
Proof. intros Hk [self w]. apply (Hk self (self, w)). Qed.

Ltac child_step b :=
  first
    [ apply keeps_bind_get_self; intros ?
    | apply keeps_bind; [exact _ | | intros ?]
    | apply keeps_if
    | apply keeps_ret; exact _
    | apply child_of_io
    | apply child_of_set_self; by intros []
    | apply keeps_try_except; [exact _ | | intros ?]
    | apply keeps_try_finally; [exact _ | |] ].

Lemma start_monitoring_child_of b : keeps (child_of b) file_monitor.start_monitoring.
Proof.
  unfold file_monitor.start_monitoring.
  apply keeps_bind_get_self. intros self.
  apply keeps_bind; [exact _ | | intros there].
  { destruct (current_source_dir self); [apply child_of_io | apply keeps_ret; exact _]. }
  apply keeps_if; [apply child_of_io |].
  apply keeps_try_except; [exact _ | | intros e].
  - unfold file_monitor.start_monitoring_try, print_monitoring_started.
    repeat child_step b.
  - unfold file_monitor.start_monitoring_except. repeat child_step b.
Qed.

Lemma stop_child_of b : keeps (child_of b) file_monitor.stop.
Proof.
  unfold file_monitor.stop.
  apply keeps_bind; [exact _ | apply child_of_set_self; by intros [] | intros _].
  apply keeps_bind_get_self. intros self.
  destruct (observer_of self); repeat child_step b.
Qed.

Lemma change_source_folder_child_of b :
  keeps (child_of b) file_monitor.change_source_folder.
Proof.
  intros [self w] Hb. cbn [fst] in Hb.
  destruct (file_monitor.change_source_folder (self, w)) as [r s'] eqn:H.
  cbn [snd]. unfold file_monitor.change_source_folder in H.
  unfold bind at 1, get_self in H. cbn [fst snd] in H.
  apply bind_inv in H as [([] & s1 & H1 & H) | [(e & H1 & ->) | (H1 & ->)]];
    apply stop_current_run in H1 as (Hs1 & _);
    [| by rewrite Hs1; split_and!; [| | left] ..].
  destruct s1 as [self1 w1]. cbn [fst] in Hs1. subst self1.
  apply bind_inv in H as [(folder & s2 & H2 & H) | [(e & H2 & ->) | (H2 & ->)]];
    apply io_inv in H2 as (w2 & H2 & ->);
    [| by split_and!; [| | left] ..].
  apply get_valid_folder_name_loop_outcome in H2 as [Hdd _].
  specialize (Hdd folder eq_refl).
  unfold bind at 1, set_self in H. cbn [fst snd] in H.
  pose proof (start_monitoring_child_of b
                (set_current_source_dir (Some (joinpath (base_source_dir self) folder)) self,
                 w2)) as Hk.
  rewrite H in Hk. cbn [snd] in Hk.
  destruct (Hk Hb) as (Hb' & Hd' & Hc'). split_and!; [done | done |].
  right. destruct Hc' as [Hc' | Hc']; [| done].
  exists folder. split; [done |]. rewrite Hc'. cbn. by rewrite Hb.
Qed.

Lemma show_menu_child_of b : keeps (child_of b) file_monitor.show_menu.
Proof.
  unfold file_monitor.show_menu.
  apply keeps_bind_get_self. intros self.
  apply keeps_if; [apply keeps_ret; exact _ |].
  apply keeps_bind; [exact _ | apply child_of_set_self; by intros [] | intros _].
  apply keeps_try_finally; [exact _ | | apply child_of_set_self; by intros []].
  apply keeps_bind; [exact _ | unfold print_menu; repeat child_step b | intros _].
  apply keeps_bind; [exact _ | apply child_of_io | intros line].
  cbn zeta.
  apply keeps_if; [apply change_source_folder_child_of |].
  apply keeps_if; [apply stop_child_of | apply keeps_ret; exact _].
Qed.

(** The monitor [self'] has the base and destination directories of [self],
    and its current source directory is that of [self] or a directory DD-DD
    directly under the base directory. *)
Definition validated_child (self self' : FileMonitor) : Prop :=
  base_source_dir self' = base_source_dir self /\
  monitor_destination_dir self' = monitor_destination_dir self /\
  (current_source_dir self' = current_source_dir self \/
   exists folder_name, DD_DD folder_name /\
     current_source_dir self'
     = Some (joinpath (base_source_dir self) folder_name)).

(** X13. Whatever the operator types and whatever fails, the menu and the
    change of folder never alter the base directory or the destination
    directory of the monitor, and the directory they leave as current
    source is either the one that was or a directory whose name has the
    form DD-DD directly under the base directory. *)
Theorem monitored_directory_is_validated_child :
  forall (self : FileMonitor) (w : World),
    validated_child self (file_monitor.change_source_folder (self, w)).2.1 /\
    validated_child self (file_monitor.show_menu (self, w)).2.1.
Proof.
  intros self w. split;
    [apply (change_source_folder_child_of (base_source_dir self) (self, w))
    | apply (show_menu_child_of (base_source_dir self) (self, w))]; done.
Qed.

(** ** The menu *)

Lemma FileMonitor_menu_closed self :
  menu_active self = false ->
  set_menu_active false (set_menu_active true self) = self.
Proof. destruct self. cbn. by intros ->. Qed.

(** X14. A menu choice other than 1 or 2 closes the menu without doing
    anything and without asking again: when no system call fails,
    [show_menu] prints the menu, reads one line, and returns with the
    monitor and the observers as they were. *)
Theorem show_menu_ignores_other_choices :
  forall (self : FileMonitor) (w : World) (line : string) (rest : list string),
    faults w = [] ->
    menu_active self = false ->
    stdin w = line :: rest ->
    strip line <> "1" -> strip line <> "2" ->
    file_monitor.show_menu (self, w)
    = (Return tt,
       (self,
        set_stdin rest
          (set_trace (trace w ++ menu_lines ++ [Input "Enter your choice (1 or 2): "])
             w))).
Proof.
  intros self w line rest Hq Hm Hin H1 H2.
  unfold file_monitor.show_menu. unfold bind at 1, get_self. cbn [fst snd].
  rewrite Hm. unfold bind at 1, set_self. cbn [fst snd].
  unfold try_finally.
  rewrite (bind_eq_Return _ _ _ _ _ (print_menu_run _ w)).
  set (w1 := set_trace _ w).
  assert (Hinput : input "Enter your choice (1 or 2): " w1
                   = (Return line,
                      set_stdin rest
                        (emitted (Input "Enter your choice (1 or 2): ") (pop_fault w1))))
    by by apply input_quiet.
  rewrite (bind_io_Return _ _ _ _ _ _ Hinput). cbn zeta.
  apply String.eqb_neq in H1, H2. rewrite H1, H2.
  cbn [ret set_self fst snd]. rewrite (FileMonitor_menu_closed _ Hm).
  do 2 f_equal. apply World_eq; try done.
  - cbn. by rewrite Hq.
  - cbn. by rewrite <- !app_assoc.
Qed.

Lemma show_menu_ignores_other_choices_witness :
  file_monitor.show_menu (example_monitor, set_stdin [" 3 "; "1"] example_world)
  = (Return tt,
     (example_monitor,
      set_stdin ["1"]
        (set_trace (trace (set_stdin [" 3 "; "1"] example_world) ++ menu_lines
                    ++ [Input "Enter your choice (1 or 2): "])
           (set_stdin [" 3 "; "1"] example_world)))).
Proof.
  apply (show_menu_ignores_other_choices example_monitor
           (set_stdin [" 3 "; "1"] example_world) " 3 " ["1"]);
    try reflexivity; discriminate.
Defined.

(** ** The main loop *)

Lemma time_sleep_observers ms w :
  observers (time_sleep ms w).2 = observers w /\
  List.length (faults (time_sleep ms w).2) = pred (List.length (faults w)) /\
  (time_sleep ms w).1 <> Hang.
Proof.
  unfold time_sleep, syscall. destruct (next_fault w).
  - cbn. split_and!; [done | by destruct (faults w) | done].
  - cbn. destruct (others w); cbn; (split_and!; [done | by destruct (faults w) | done]).
Qed.

Lemma idle_loop_run fuel : forall self w r s',
  file_monitor.idle_loop fuel (self, w) = (r, s') ->
  s'.1 = self /\ observers s'.2 = observers w /\
  (running self = true -> r <> Return tt).
Proof.
  induction fuel as [| fuel IH]; intros self w r s' H.
  { injection H as <- <-. done. }
  cbn [file_monitor.idle_loop] in H. unfold bind at 1, get_self in H. cbn [fst snd] in H.
  destruct (running self) eqn:Hr.
  2:{ injection H as <- <-. done. }
  unfold bind at 1, io at 1 in H. cbn [fst snd] in H.
  destruct (time_sleep_observers 100 w) as (Ho & Hl & Hh).
  destruct (time_sleep 100 w) as [[[] | e |] w1]; cbn in Ho, Hl, Hh; [| | done].
  - apply IH in H as (Hs & Ho' & Hret).
    split_and!; [done | congruence |]. intros _. by apply Hret.
  - injection H as <- <-. done.
Qed.

(** The [try] block of [run] keeps at most one observer thread alive. *)
Lemma run_body_one_session self w r s' :
  (folder_name <- io utils.get_valid_folder_name;;
   self <- get_self;;
   set_self (set_current_source_dir
               (Some (joinpath (base_source_dir self) folder_name)));;;
   file_monitor.start_monitoring;;;
   file_monitor.idle) (self, w) = (r, s') ->
  all_dead w -> one_session s'.1 s'.2.
Proof.
  intros H Hdead.
  apply bind_inv in H as [(folder & s1 & H1 & H) | [(e & H1 & ->) | (H1 & ->)]];
    apply io_inv in H1 as (w1 & H1 & ->);
    apply get_valid_folder_name_run in H1 as (_ & Ho1 & _).
  2,3: apply all_dead_one_session; intros j o Hj; cbn in Hj; rewrite Ho1 in Hj;
       by eapply Hdead.
  assert (Hdead1 : all_dead w1).
  { intros j o Hj. rewrite Ho1 in Hj. by eapply Hdead. }
  unfold bind at 1, get_self in H. cbn [fst snd] in H.
  unfold bind at 1, set_self in H. cbn [fst snd] in H.
  apply bind_inv in H as [([] & s2 & H2 & H) | [(e & H2 & ->) | (H2 & ->)]];
    apply start_monitoring_run in H2 as (_ & Hone & _); try by apply Hone.
  destruct s2 as [self2 w2]. apply idle_loop_run in H as (Hs & Ho & _).
  intros j o Hj Ha. rewrite Hs. rewrite Ho in Hj. by apply (Hone Hdead1 j o).
Qed.

Lemma run_handlers self w (h : M (FileMonitor * World) unit) :
  (exists a1 a2, h = (io (emit a1);;; io (emit a2))) ->
  exists w', h (self, w) = (Return tt, (self, w')) /\ observers w' = observers w.
Proof. intros (a1 & a2 & ->). by eexists. Qed.

(** X15. [run] always ends by stopping: whenever it terminates, with a normal
    return or with an exception, [running] is false; and when it returns
    normally from a state in which no observer thread was alive, none is
    alive afterwards. *)
Theorem run_ends_stopped :
  forall (self : FileMonitor) (w : World),
    (file_monitor.run (self, w)).1 <> Hang ->
    running (file_monitor.run (self, w)).2.1 = false /\
    ((file_monitor.run (self, w)).1 = Return tt -> all_dead w -> all_dead (file_monitor.run (self, w)).2.2).
Proof.
  intros self w. unfold file_monitor.run, try_finally.
  match goal with
  | |- context [try_except_interrupt ?b ?hi ?he (self, w)] =>
      set (body := b); set (on_interrupt := hi); set (on_exception := he)
  end.
  assert (Hbody : exists rb sb,
            try_except_interrupt body on_interrupt on_exception (self, w) = (rb, sb) /\
            (all_dead w -> one_session sb.1 sb.2)).
  { unfold try_except_interrupt.
    destruct (body (self, w)) as [rb sb] eqn:Hb.
    pose proof (run_body_one_session _ _ _ _ Hb) as Hone.
    destruct sb as [selfb wb].
    destruct rb as [[] | e |]; [by eexists _, _ | | by eexists _, _].
    assert (Hh : forall h : M (FileMonitor * World) unit,
              (exists a1 a2, h = (io (emit a1);;; io (emit a2))) ->
              exists rb sb, h (selfb, wb) = (rb, sb) /\
                (all_dead w -> one_session sb.1 sb.2)).
    { intros h Hh. destruct (run_handlers selfb wb h Hh) as (w' & -> & Ho).
      eexists _, _. split; [done |]. intros Hd j o Hj Ha. cbn in Hj.
      rewrite Ho in Hj. by apply (Hone Hd j o). }
    destruct e; cbn [is_Exception];
      try (apply Hh; unfold on_exception, on_interrupt, logging_error, logging_info,
                            print; by eexists _, _). }
  destruct Hbody as (rb & [selfb wb] & -> & Hone). cbn [fst snd] in Hone.
  destruct (file_monitor.stop (selfb, wb)) as [rs ss] eqn:Hs.
  apply stop_outcome in Hs as (Hh & Hself & _ & _ & _ & _ & Hdead & _).
  destruct rb as [[] | e |]; cbn [fst snd]; [| | done].
  - destruct rs as [[] | e |]; cbn [fst snd]; intros _;
      (split; [by rewrite Hself |]); [| done | done].
    intros _ Hd. apply Hdead; [done | by apply Hone].
  - destruct rs as [[] | e' |]; cbn [fst snd]; intros _;
      (split; [by rewrite Hself |]); done.
Qed.

Lemma example_world_all_dead : all_dead example_world.
Proof. intros id o Ho. cbn in Ho. by rewrite lookup_empty in Ho. Qed.

Lemma run_ends_stopped_witness :
  running (file_monitor.run (example_monitor, example_world)).2.1 = false /\
  ((file_monitor.run (example_monitor, example_world)).1 = Return tt ->
   all_dead example_world -> all_dead (file_monitor.run (example_monitor, example_world)).2.2).
Proof.
  apply (run_ends_stopped example_monitor example_world).
  vm_compute. discriminate.
Defined.

Lemma get_valid_folder_name_first w good rest :
  next_fault w = None -> stdin w = good :: rest ->
  re_match utils.pattern (strip good) = true ->
  utils.get_valid_folder_name w
  = (Return (strip good), set_stdin rest (emitted (Input utils.prompt) (pop_fault w))).
Proof.
  intros Hq Hin Hgood. unfold utils.get_valid_folder_name.
  cbn [utils.get_valid_folder_name_loop].
  assert (H1 : input utils.prompt w
               = (Return good, set_stdin rest (emitted (Input utils.prompt) (pop_fault w)))).
  { unfold input. rewrite syscall_pass by done. cbn. by rewrite Hin. }
  rewrite (bind_eq_Return _ _ _ _ _ H1).
  unfold utils.validate_folder_name. by rewrite Hgood.
Qed.

Lemma stop_quiet self w id o :
  faults w = [] -> observer_of self = Some id ->
  observers w !! id = Some o -> status o <> Created ->
  file_monitor.stop (self, w)
  = (Return tt,
     (set_running false self,
      set_trace
        (trace w ++
         [ObserverStop id;
          Print (NL +:+ Fore.YELLOW +:+ "[" +:+ strftime_IMSp (clock w)
                 +:+ "] Monitoring stopped" +:+ Style.RESET_ALL);
          ObserverJoin id;
          LogInfo "Monitoring stopped"])
        (set_observers (<[id := mkObserver Exited (watches o)]> (observers w)) w))).
Proof.
  intros Hq Hobs Ho Hst. unfold file_monitor.stop.
  unfold bind at 1, set_self. cbn [fst snd].
  unfold bind at 1, get_self. cbn [fst snd].
  change (observer_of (set_running false self)) with (observer_of self).
  rewrite Hobs. rewrite (bind_io_Return _ _ _ _ _ _ (observer_stop_quiet id w o Hq Ho)).
  unfold bind at 1, io at 1, now_strftime. cbn [fst snd].
  unfold bind at 1, io at 1, print, emit. cbn [fst snd].
  unfold bind at 1, io at 1. cbn [fst snd].
  unfold observer_join. rewrite syscall_quiet by (cbn; by rewrite Hq).
  cbn. rewrite lookup_insert_eq. cbn.
  destruct (status o); [done | ..];
    (do 2 f_equal; apply World_eq; try done;
     [cbn; by rewrite Hq | cbn; by rewrite insert_insert_eq
     | cbn; by rewrite <- !app_assoc]).
Qed.

(** The idle loop when the [k+1]-th sleep is interrupted. *)
Lemma idle_loop_interrupted self e k : forall fuel w,
  k < fuel -> running self = true ->
  faults w = replicate k None ++ [Some e] ->
  exists w',
    file_monitor.idle_loop fuel (self, w) = (Raise e, (self, w')) /\
    faults w' = [] /\ observers w' = observers w /\ dirs w' = dirs w /\
    stdin w' = stdin w /\ clock w' = clock w + 100 * k /\
    trace w' = trace w ++ replicate k (Sleep 100).
Proof.
  induction k as [| k IH]; intros fuel w Hfuel Hrun Hq;
    (destruct fuel as [| fuel]; [lia |]);
    cbn [file_monitor.idle_loop]; unfold bind at 1, get_self; cbn [fst snd]; rewrite Hrun.
  - assert (H1 : time_sleep 100 w = (Raise e, pop_fault w)).
    { unfold time_sleep, syscall, next_fault. by rewrite Hq. }
    rewrite (bind_io_Raise _ _ _ _ _ _ H1).
    eexists. split; [done |]. cbn. rewrite Hq. cbn.
    split_and!; try done; try lia; by rewrite app_nil_r.
  - cbn [replicate app] in Hq.
    unfold bind at 1, io at 1. cbn [fst snd].
    destruct (time_sleep 100 w) as [r1 w1] eqn:H1.
    assert (H1' : r1 = Return tt /\ faults w1 = replicate k None ++ [Some e] /\
                  observers w1 = observers w /\ dirs w1 = dirs w /\
                  stdin w1 = stdin w /\ clock w1 = clock w + 100 /\
                  trace w1 = trace w ++ [Sleep 100]).
    { unfold time_sleep in H1. rewrite syscall_pass in H1
        by (unfold next_fault; by rewrite Hq).
      cbn in H1. destruct (others w); injection H1 as <- <-; cbn; by rewrite Hq. }
    destruct H1' as (-> & Hq1 & O1 & D1 & I1 & C1 & T1).
    destruct (IH fuel w1) as (w' & Hloop & Hq' & O' & D' & I' & C' & T');
      [lia | done | done |].
    exists w'. split; [done |].
    split_and!; try congruence; try lia.
    rewrite T', T1. cbn. by rewrite <- app_assoc.
Qed.

(** X16. Ctrl-C while the monitor is idle shuts it down in order: when the
    folder name is accepted, the directory exists and the only failure is a
    KeyboardInterrupt in the [k+1]-th sleep of the main loop, [run] logs and
    prints the termination, stops and joins the observer it started, and
    returns normally with [running] false and no observer thread alive. *)
Theorem interrupt_stops_the_observer :
  forall (self : FileMonitor) (w : World) (good : string) (rest : list string)
         (k : nat),
    running self = true -> all_dead w ->
    stdin w = good :: rest ->
    utils.validate_folder_name (strip good) = Return true ->
    dir_exists w (joinpath (base_source_dir self) (strip good)) = true ->
    faults w = replicate (3 + k) None ++ [Some KeyboardInterrupt] ->
    exists id w' tr,
      file_monitor.run (self, w)
      = (Return tt,
         (set_running false
            (set_observer (Some id)
               (set_current_source_dir
                  (Some (joinpath (base_source_dir self) (strip good))) self)),
          w')) /\
      all_dead w' /\
      observers w' !! id
      = Some (mkObserver Exited [joinpath (base_source_dir self) (strip good)]) /\
      clock w' = clock w + 100 * k /\
      trace w' = trace w ++ tr ++
        [LogInfo "Application terminated by user";
         Print (NL +:+ Fore.YELLOW +:+ "Application terminated by user"
                +:+ Style.RESET_ALL);
         ObserverStop id;
         Print (NL +:+ Fore.YELLOW +:+ "[" +:+ strftime_IMSp (clock w + 100 * k)
                +:+ "] Monitoring stopped" +:+ Style.RESET_ALL);
         ObserverJoin id;
         LogInfo "Monitoring stopped"].
Proof.
  intros self w good rest k Hrun Hdead Hin Hgood Hd Hq.
  apply validate_folder_name_true in Hgood.
  set (d := joinpath (base_source_dir self) (strip good)) in *.
  set (id := fresh (dom (observers w))).
  cbn [Nat.add replicate app] in Hq.
  (* the folder name *)
  pose proof (get_valid_folder_name_first w good rest
                ltac:(unfold next_fault; by rewrite Hq) Hin Hgood) as H1.
  set (w1 := set_stdin rest _) in H1.
  assert (Hq1 : faults w1 = None :: None :: replicate k None ++ [Some KeyboardInterrupt]).
  { cbn. by rewrite Hq. }
  (* start_monitoring *)
  set (self1 := set_current_source_dir (Some d) self).
  pose proof (start_monitoring_pass self1 w1 d
                ltac:(unfold next_fault; by rewrite Hq1)
                ltac:(unfold next_fault; cbn; by rewrite Hq)
                eq_refl Hd) as H2.
  change (fresh (dom (observers w1))) with id in H2.
  set (w2 := set_trace _ _) in H2.
  assert (Hq2 : faults w2 = replicate k None ++ [Some KeyboardInterrupt]).
  { cbn. by rewrite Hq. }
  (* the loop *)
  set (self2 := set_observer (Some id) self1) in *.
  destruct (idle_loop_interrupted self2 KeyboardInterrupt k
              (S (List.length (faults w2))) w2)
    as (w3 & H3 & Hq3 & O3 & D3 & I3 & C3 & T3); [| done | done |].
  { rewrite Hq2, length_app, length_replicate. cbn. lia. }
  (* the handler and [stop] *)
  set (w4 := emitted (Print (NL +:+ Fore.YELLOW +:+ "Application terminated by user"
                             +:+ Style.RESET_ALL))
               (emitted (LogInfo "Application terminated by user") w3)).
  assert (Ho4 : observers w4 !! id = Some (mkObserver Running [d])).
  { unfold w4. cbn. rewrite O3. unfold w2. cbn. by rewrite lookup_insert_eq. }
  pose proof (stop_quiet self2 w4 id _ Hq3 eq_refl Ho4 ltac:(done)) as H4.
  match type of H4 with _ = (_, (_, ?W)) => set (w5 := W) in H4 end.
  exists id, w5, ([Input utils.prompt;
                   ObserverNew id; ObserverSchedule id d; ObserverStart id]
                  ++ started_report (strftime_IMSp (clock w)) self1
                  ++ replicate k (Sleep 100)).
  split_and!.
  - unfold file_monitor.run, try_finally, try_except_interrupt.
    rewrite (bind_io_Return _ _ _ _ _ _ H1).
    unfold bind at 1, get_self. cbn [fst snd].
    unfold bind at 1, set_self. cbn [fst snd]. fold d. fold self1.
    rewrite (bind_eq_Return _ _ _ _ _ H2).
    unfold file_monitor.idle. cbn [snd]. rewrite H3.
    unfold logging_info, print, bind, io, emit. cbn [fst snd].
    match goal with
    | |- context [file_monitor.stop (self2, ?W)] => change W with w4
    end.
    by rewrite H4.
  - intros j o Hj. unfold w5 in Hj. cbn in Hj. rewrite O3 in Hj.
    unfold w2 in Hj. cbn in Hj. rewrite insert_insert_eq in Hj.
    destruct (decide (id = j)) as [<- | Hne].
    + rewrite lookup_insert_eq in Hj. by injection Hj as <-.
    + rewrite lookup_insert_ne in Hj by done. by eapply Hdead.
  - unfold w5. cbn. by rewrite lookup_insert_eq.
  - exact C3.
  - assert (Hc4 : clock w4 = clock w + 100 * k) by exact C3.
    assert (Ht4 : trace w4
                  = trace w ++ [Input utils.prompt; ObserverNew id;
                                ObserverSchedule id d; ObserverStart id]
                    ++ started_report (strftime_IMSp (clock w)) self1
                    ++ replicate k (Sleep 100)
                    ++ [LogInfo "Application terminated by user";
                        Print (NL +:+ Fore.YELLOW +:+ "Application terminated by user"
                               +:+ Style.RESET_ALL)]).
    { unfold w4, emitted. cbn [trace set_trace]. rewrite T3.
      change (trace w2)
        with ((trace w ++ [Input utils.prompt])
              ++ [ObserverNew id; ObserverSchedule id d; ObserverStart id]
              ++ started_report (strftime_IMSp (clock w)) self1).
      by rewrite <- !app_assoc. }
    unfold w5. cbn [trace set_trace]. rewrite Ht4, Hc4.
    by rewrite <- !app_assoc.
Qed.

(** The operator names 01-04 and presses Ctrl-C during the third sleep. *)
Definition example_world_interrupt : World :=
  set_faults (replicate (3 + 2) None ++ [Some KeyboardInterrupt])
    (set_stdin ["01-04"] example_world).

Lemma interrupt_stops_the_observer_witness :
  exists id w' tr,
    file_monitor.run (example_monitor, example_world_interrupt)
    = (Return tt,
       (set_running false
          (set_observer (Some id)
             (set_current_source_dir
                (Some (joinpath (base_source_dir example_monitor) (strip "01-04")))
                example_monitor)),
        w')) /\
    all_dead w' /\
    observers w' !! id
    = Some (mkObserver Exited [joinpath (base_source_dir example_monitor) (strip "01-04")]) /\
    clock w' = clock example_world_interrupt + 100 * 2 /\
    trace w' = trace example_world_interrupt ++ tr ++
      [LogInfo "Application terminated by user";
       Print (NL +:+ Fore.YELLOW +:+ "Application terminated by user"
              +:+ Style.RESET_ALL);
       ObserverStop id;
       Print (NL +:+ Fore.YELLOW +:+ "["
              +:+ strftime_IMSp (clock example_world_interrupt + 100 * 2)
              +:+ "] Monitoring stopped" +:+ Style.RESET_ALL);
       ObserverJoin id;
       LogInfo "Monitoring stopped"].
Proof.
  apply (interrupt_stops_the_observer example_monitor example_world_interrupt
           "01-04" [] 2); try reflexivity.
  exact example_world_all_dead.
Defined.

(** ** A change of folder that succeeds *)

(** X17. A change of folder that succeeds leaves exactly one watch: when no
    system call fails, the input holds a valid folder name after any number
    of rejected lines, and the directory exists under the base directory,
    [change_source_folder] stops and joins the observer it holds, and
    returns with a new observer, of an identity no observer had before,
    running on that directory and on nothing else; it is the only observer
    thread alive. *)
Theorem change_source_folder_switches_the_watch :
  forall (self : FileMonitor) (w : World) (bad : list string) (good : string)
         (rest : list string),
    faults w = [] -> one_session self w -> joinable self w ->
    stdin w = bad ++ good :: rest ->
    Forall (fun l => utils.validate_folder_name (strip l) <> Return true) bad ->
    utils.validate_folder_name (strip good) = Return true ->
    dir_exists w (joinpath (base_source_dir self) (strip good)) = true ->
    exists id w',
      file_monitor.change_source_folder (self, w)
      = (Return tt,
         (set_observer (Some id)
            (set_current_source_dir
               (Some (joinpath (base_source_dir self) (strip good))) self), w')) /\
      (id ∉ dom (observers w)) /\
      observers w' !! id
      = Some (mkObserver Running [joinpath (base_source_dir self) (strip good)]) /\
      (forall j o, observers w' !! j = Some o -> alive (status o) = true -> j = id) /\
      stdin w' = rest.
Proof.
  intros self w bad good rest Hq Hone Hj Hin Hbad Hgood Hd.
  set (d := joinpath (base_source_dir self) (strip good)) in *.
  destruct (stop_current_quiet self w Hq Hj)
    as (w1 & H1 & Hq1 & F1 & D1 & I1 & C1 & O1 & T1 & Hdead1).
  apply validate_folder_name_true in Hgood.
  destruct (get_valid_folder_name_loop_spec bad (S (List.length (stdin w1)))
              w1 good rest) as (w2 & H2 & I2 & Hq2 & T2 & F2 & D2 & O2 & C2);
    [done | | done | by rewrite I1 | rewrite I1, Hin, length_app; cbn; lia |].
  { eapply Forall_impl; [exact Hbad |]. intros l Hl. cbn in Hl.
    rewrite validate_folder_name_true in Hl. by apply not_true_is_false. }
  set (self1 := set_current_source_dir (Some d) self).
  assert (Hd2 : dir_exists w2 d = true) by (unfold dir_exists in *; by rewrite D2, D1).
  pose proof (start_monitoring_pass self1 w2 d
                (next_fault_quiet _ Hq2)
                (next_fault_quiet _ (faults_pop_quiet _ Hq2)) eq_refl Hd2) as H3.
  set (id := fresh (dom (observers w2))) in *.
  eexists id, _. split_and!.
  - unfold file_monitor.change_source_folder.
    unfold bind at 1, get_self. cbn [fst snd].
    rewrite (bind_eq_Return _ _ _ _ _ H1).
    assert (H2' : utils.get_valid_folder_name w1 = (Return (strip good), w2)) by done.
    rewrite (bind_io_Return _ _ _ _ _ _ H2').
    unfold bind at 1, set_self. cbn [fst snd]. fold d. fold self1.
    exact H3.
  - unfold id. rewrite <- O1, <- O2. apply is_fresh.
  - cbn. by rewrite lookup_insert_eq.
  - intros j o Ho Ha. cbn in Ho. destruct (decide (id = j)) as [<- | Hne]; [done |].
    rewrite lookup_insert_ne in Ho by done. rewrite O2 in Ho.
    by rewrite (Hdead1 Hone j o Ho) in Ha.
  - done.
Qed.

Lemma change_source_folder_switches_the_watch_witness :
  exists id w',
    file_monitor.change_source_folder (example_monitor_running, example_world_running)
    = (Return tt,
       (set_observer (Some id)
          (set_current_source_dir
             (Some (joinpath (base_source_dir example_monitor_running) (strip "02-05")))
             example_monitor_running), w')) /\
    (id ∉ dom (observers example_world_running)) /\
    observers w' !! id
    = Some (mkObserver Running
              [joinpath (base_source_dir example_monitor_running) (strip "02-05")]) /\
    (forall j o, observers w' !! j = Some o -> alive (status o) = true -> j = id) /\
    stdin w' = [].
Proof.
  apply (change_source_folder_switches_the_watch example_monitor_running
           example_world_running [] "02-05" []).
  - reflexivity.
  - exact example_running_one_session.
  - exact (proj2 example_running_joinable).
  - reflexivity.
  - constructor.
  - reflexivity.
  - reflexivity.
Defined.

(** ** Failures while starting are logged *)

(** What the [except] block of [start_monitoring] logs and prints. *)
Definition start_error_report (e : exn) : list action :=
  [LogError ("Error starting monitoring: " +:+ str_exn e);
   Print (Fore.RED +:+ "Error starting monitoring: " +:+ str_exn e +:+ Style.RESET_ALL)].

(** The [try] block of [start_monitoring] when [schedule] fails. *)
Lemma start_monitoring_try_failed_schedule self w d e :
  next_fault w = Some e -> current_source_dir self = Some d ->
  exists w1,
    file_monitor.start_monitoring_try self (self, w)
    = (Raise e, (set_observer (Some (fresh (dom (observers w)))) self, w1)) /\
    trace w1 = trace w ++ [ObserverNew (fresh (dom (observers w)))].
Proof.
  intros Hq Hcur.
  set (id := fresh (dom (observers w))).
  unfold file_monitor.start_monitoring_try.
  unfold bind at 1, io at 1, Observer_new. cbn [fst snd]. fold id.
  unfold bind at 1, set_self. cbn [fst snd].
  rewrite Hcur. cbn [default].
  set (w1 := emitted (ObserverNew id) _).
  assert (H2 : observer_schedule id d w1 = (Raise e, pop_fault w1)).
  { unfold observer_schedule, syscall.
    change (next_fault w1) with (next_fault w). by rewrite Hq. }
  rewrite (bind_io_Raise _ _ _ _ _ _ H2).
  by eexists.
Qed.

(** The [try] block of [start_monitoring] when [start] fails. *)
Lemma start_monitoring_try_failed_start self w d e :
  next_fault w = None -> next_fault (pop_fault w) = Some e ->
  current_source_dir self = Some d ->
  exists w1,
    file_monitor.start_monitoring_try self (self, w)
    = (Raise e, (set_observer (Some (fresh (dom (observers w)))) self, w1)) /\
    trace w1 = trace w ++ [ObserverNew (fresh (dom (observers w)));
                           ObserverSchedule (fresh (dom (observers w))) d].
Proof.
  intros Hq Hq' Hcur.
  set (id := fresh (dom (observers w))).
  unfold file_monitor.start_monitoring_try.
  unfold bind at 1, io at 1, Observer_new. cbn [fst snd]. fold id.
  unfold bind at 1, set_self. cbn [fst snd].
  rewrite Hcur. cbn [default].
  set (w1 := emitted (ObserverNew id) _).
  assert (Hq1 : next_fault w1 = None) by done.
  assert (Ho1 : observers w1 !! id = Some (mkObserver Created [])).
  { unfold w1. cbn. by rewrite lookup_insert_eq. }
  rewrite (bind_io_Return _ _ _ _ _ _ (observer_schedule_pass id d w1 _ Hq1 Ho1)).
  set (w2 := emitted (ObserverSchedule id d) _).
  assert (H3 : observer_start id w2 = (Raise e, pop_fault w2)).
  { unfold observer_start, syscall.
    change (next_fault w2) with (next_fault (pop_fault w)). by rewrite Hq'. }
  rewrite (bind_io_Raise _ _ _ _ _ _ H3).
  eexists. split; [reflexivity |]. cbn. by rewrite <- !app_assoc.
Qed.

(** What [start_monitoring] does with an exception of its [try] block. *)
Lemma start_monitoring_of_failed_try self w d e s1 :
  current_source_dir self = Some d ->
  is_file w d || dir_exists w d = true ->
  file_monitor.start_monitoring_try self (self, w) = (Raise e, s1) ->
  is_Exception e = true ->
  file_monitor.start_monitoring (self, w)
  = (Return tt, (s1.1, set_trace (trace s1.2 ++ start_error_report e) s1.2)).
Proof.
  intros Hcur Hd Htry He. rewrite start_monitoring_eq, Hcur, Hd. cbn [negb].
  unfold try_except. rewrite Htry, He. destruct s1 as [self1 w1].
  unfold file_monitor.start_monitoring_except, logging_error, print, bind, io, emit.
  cbn [fst snd]. do 2 f_equal. apply World_eq; try done.
  cbn. by rewrite <- !app_assoc.
Qed.

(** The next two entries of the failure script. *)
Lemma next_faults_cases w :
  (exists e, next_fault w = Some e) \/
  (next_fault w = None /\ exists e, next_fault (pop_fault w) = Some e) \/
  (next_fault w = None /\ next_fault (pop_fault w) = None).
Proof.
  unfold next_fault, pop_fault. cbn.
  destruct (faults w) as [| [e |] rest]; cbn.
  - right. right. done.
  - left. by exists e.
  - destruct rest as [| [e |] rest]; cbn.
    + right. right. done.
    + right. left. split; [done |]. by exists e.
    + right. right. done.
Qed.

(** X18. [start_monitoring] reports failures instead of raising them.  When
    the failures that system calls can produce are of class Exception (as
    I/O errors are), it always returns normally, and what it has done is
    one of three things: the directory is missing (or no directory is set),
    and it has printed the line that says so and done nothing else; or the
    observer is running on the directory, and the start has been reported
    and logged; or the [try] block (creating, scheduling and starting the
    observer) has raised an exception [e], no observer has been started,
    and the last two things done are the log record and the printed line
    with [str(e)]. *)
Theorem start_monitoring_never_raises :
  forall (self : FileMonitor) (w : World),
    good_faults (fun e => is_Exception e = true) w ->
    exists self' w' tr,
      file_monitor.start_monitoring (self, w) = (Return tt, (self', w')) /\
      trace w' = trace w ++ tr /\
      ((match current_source_dir self with
        | None => True
        | Some d => is_file w d || dir_exists w d = false
        end /\
        self' = self /\ observers w' = observers w /\
        tr = [Print (Fore.RED +:+ "Error: Source directory does not exist: "
                     +:+ str_opt_path (current_source_dir self)
                     +:+ Style.RESET_ALL)]) \/
       (exists id d,
          current_source_dir self = Some d /\
          is_file w d || dir_exists w d = true /\
          self' = set_observer (Some id) self /\
          observers w' !! id = Some (mkObserver Running [d]) /\
          tr = [ObserverNew id; ObserverSchedule id d; ObserverStart id]
               ++ started_report (strftime_IMSp (clock w)) self) \/
       (exists e tr0 d,
          current_source_dir self = Some d /\
          is_file w d || dir_exists w d = true /\
          (file_monitor.start_monitoring_try self (self, w)).1 = Raise e /\
          (forall id, ObserverStart id ∉ tr0) /\
          tr = tr0 ++ start_error_report e)).
Proof.
  intros self w Hw.
  destruct (current_source_dir self) as [d |] eqn:Hcur.
  2:{ eexists self, _, _. split_and!.
      - by rewrite start_monitoring_eq, Hcur.
      - reflexivity.
      - by left. }
  destruct (is_file w d || dir_exists w d) eqn:Hd.
  2:{ eexists self, _, _. split_and!.
      - by rewrite start_monitoring_eq, Hcur, Hd.
      - reflexivity.
      - by left. }
  destruct (next_faults_cases w) as [[e Hq] | [[Hq [e Hq']] | [Hq Hq']]].
  - assert (He : is_Exception e = true) by by apply (good_faults_next _ _ _ Hw Hq).
    destruct (start_monitoring_try_failed_schedule self w d e Hq Hcur)
      as (w1 & Htry & Htr).
    eexists _, _, _. split_and!.
    + by apply (start_monitoring_of_failed_try self w d e _ Hcur Hd Htry He).
    + cbn. rewrite Htr. by rewrite <- app_assoc.
    + right. right. exists e, [ObserverNew (fresh (dom (observers w)))], d.
      split_and!; try done; [by rewrite Htry |].
      intros id Hin. apply list_elem_of_singleton in Hin. done.
  - assert (He : is_Exception e = true)
      by by apply (good_faults_next _ _ _ (good_faults_pop _ _ Hw) Hq').
    destruct (start_monitoring_try_failed_start self w d e Hq Hq' Hcur)
      as (w1 & Htry & Htr).
    eexists _, _, _. split_and!.
    + by apply (start_monitoring_of_failed_try self w d e _ Hcur Hd Htry He).
    + cbn. rewrite Htr. by rewrite <- app_assoc.
    + right. right.
      exists e, [ObserverNew (fresh (dom (observers w)));
                 ObserverSchedule (fresh (dom (observers w))) d], d.
      split_and!; try done; [by rewrite Htry |].
      intros id Hin.
      repeat (apply elem_of_cons in Hin as [Hin | Hin]; [done |]).
      by apply elem_of_nil in Hin.
  - eexists _, _, _. split_and!.
    + by apply start_monitoring_started.
    + reflexivity.
    + right. left. exists (fresh (dom (observers w))), d.
      split_and!; try done. cbn. by rewrite lookup_insert_eq.
Qed.

Lemma start_monitoring_never_raises_witness :
  exists self' w' tr,
    file_monitor.start_monitoring (example_monitor_0104, example_world_no_watch)
    = (Return tt, (self', w')) /\
    trace w' = trace example_world_no_watch ++ tr /\
    ((match current_source_dir example_monitor_0104 with
      | None => True
      | Some d => is_file example_world_no_watch d
                  || dir_exists example_world_no_watch d = false
      end /\
      self' = example_monitor_0104 /\
      observers w' = observers example_world_no_watch /\
      tr = [Print (Fore.RED +:+ "Error: Source directory does not exist: "
                   +:+ str_opt_path (current_source_dir example_monitor_0104)
                   +:+ Style.RESET_ALL)]) \/
     (exists id d,
        current_source_dir example_monitor_0104 = Some d /\
        is_file example_world_no_watch d || dir_exists example_world_no_watch d = true /\
        self' = set_observer (Some id) example_monitor_0104 /\
        observers w' !! id = Some (mkObserver Running [d]) /\
        tr = [ObserverNew id; ObserverSchedule id d; ObserverStart id]
             ++ started_report (strftime_IMSp (clock example_world_no_watch))
                  example_monitor_0104) \/
     (exists e tr0 d,
        current_source_dir example_monitor_0104 = Some d /\
        is_file example_world_no_watch d || dir_exists example_world_no_watch d = true /\
        (file_monitor.start_monitoring_try example_monitor_0104
           (example_monitor_0104, example_world_no_watch)).1 = Raise e /\
        (forall id, ObserverStart id ∉ tr0) /\
        tr = tr0 ++ start_error_report e)).
Proof.
  apply (start_monitoring_never_raises example_monitor_0104 example_world_no_watch).
  unfold good_faults. cbn.
  repeat (constructor; [by intros e [= <-] |]). constructor.
Defined.

(** On that world the start of the observer fails, and the failure is the
    one reported. *)
Example start_failure_is_reported :
  (file_monitor.start_monitoring (example_monitor_0104, example_world_no_watch)).1
  = Return tt /\
  trace (file_monitor.start_monitoring
           (example_monitor_0104, example_world_no_watch)).2.2
  = [ObserverNew 0; ObserverSchedule 0 ["output"; "01-04"]]
    ++ start_error_report (OSError "inotify watch limit reached").
Proof. split; reflexivity. Qed.

(** ** Quitting from the menu *)

(** X19. Choosing 2 in the menu stops monitoring: when no system call fails
    and the monitor holds the one live observer, [show_menu] prints the
    menu, reads the choice, stops and joins the observer, and returns
    normally with [running] false, the menu closed again, and no observer
    thread alive. *)
Theorem show_menu_quit_stops_monitoring :
  forall (self : FileMonitor) (w : World) (line : string) (rest : list string)
         (id : nat) (o : observer),
    faults w = [] ->
    menu_active self = false ->
    stdin w = line :: rest ->
    strip line = "2" ->
    observer_of self = Some id ->
    observers w !! id = Some o -> status o <> Created ->
    one_session self w ->
    exists w',
      file_monitor.show_menu (self, w) = (Return tt, (set_running false self, w')) /\
      all_dead w' /\
      stdin w' = rest /\
      trace w' = trace w ++ menu_lines
                 ++ [Input "Enter your choice (1 or 2): ";
                     ObserverStop id;
                     Print (NL +:+ Fore.YELLOW +:+ "[" +:+ strftime_IMSp (clock w)
                            +:+ "] Monitoring stopped" +:+ Style.RESET_ALL);
                     ObserverJoin id;
                     LogInfo "Monitoring stopped"].
Proof.
  intros self w line rest id o Hq Hm Hin H2 Hobs Ho Hst Hone.
  unfold file_monitor.show_menu. unfold bind at 1, get_self. cbn [fst snd].
  rewrite Hm. unfold bind at 1, set_self. cbn [fst snd].
  unfold try_finally.
  rewrite (bind_eq_Return _ _ _ _ _ (print_menu_run _ w)).
  set (w1 := set_trace _ w).
  assert (Hinput : input "Enter your choice (1 or 2): " w1
                   = (Return line,
                      set_stdin rest
                        (emitted (Input "Enter your choice (1 or 2): ") (pop_fault w1))))
    by by apply input_quiet.
  rewrite (bind_io_Return _ _ _ _ _ _ Hinput). cbn zeta.
  rewrite H2. cbn [String.eqb Ascii.eqb Bool.eqb].
  set (w2 := set_stdin rest _).
  rewrite (stop_quiet (set_menu_active true self) w2 id o);
    [| cbn; by rewrite Hq | done | done | done].
  cbn [set_self fst snd].
  eexists. split_and!.
  - do 2 f_equal. destruct self. cbn in *. by rewrite Hm.
  - intros j oj Hj. cbn in Hj.
    destruct (decide (id = j)) as [<- | Hne].
    + rewrite lookup_insert_eq in Hj. by injection Hj as <-.
    + rewrite lookup_insert_ne in Hj by done.
      destruct (alive (status oj)) eqn:Ha; [| done].
      specialize (Hone j oj Hj Ha). congruence.
  - reflexivity.
  - cbn. by rewrite <- !app_assoc.
Qed.

Lemma show_menu_quit_stops_monitoring_witness :
  exists w',
    file_monitor.show_menu
      (example_monitor_running, set_stdin [" 2"] example_world_running)
    = (Return tt, (set_running false example_monitor_running, w')) /\
    all_dead w' /\
    stdin w' = [] /\
    trace w' = trace (set_stdin [" 2"] example_world_running) ++ menu_lines
               ++ [Input "Enter your choice (1 or 2): ";
                   ObserverStop 0;
                   Print (NL +:+ Fore.YELLOW +:+ "["
                          +:+ strftime_IMSp (clock (set_stdin [" 2"] example_world_running))
                          +:+ "] Monitoring stopped" +:+ Style.RESET_ALL);
                   ObserverJoin 0;
                   LogInfo "Monitoring stopped"].
Proof.
  apply (show_menu_quit_stops_monitoring example_monitor_running
           (set_stdin [" 2"] example_world_running) " 2" [] 0
           (mkObserver Running [["output"; "01-04"]])); try reflexivity.
  - discriminate.
  - exact example_running_one_session.
Defined.

(** ** The menu of the older version *)

(** The flag [menu_active] is what it was. *)
Definition same_menu (s s' : FileMonitor * World) : Prop :=
  menu_active s'.1 = menu_active s.1.

#[global] Instance same_menu_preorder : PreOrder same_menu.
Proof.
  split; [by intros s |]. intros s1 s2 s3 H12 H23. unfold same_menu in *. congruence.
Qed.

Lemma same_menu_io {A} (m : M World A) : keeps same_menu (io m).
Proof. intros [self w]. unfold same_menu, io. cbn. by destruct (m w). Qed.

Lemma same_menu_set_self f :
  (forall self, menu_active (f self) = menu_active self) ->
  keeps same_menu (set_self f).
Proof. intros Hf [self w]. apply Hf. Qed.

Ltac same_menu_step :=
  first
    [ apply keeps_bind_get_self; intros ?
    | apply keeps_bind; [exact _ | | intros ?]
    | apply keeps_if
    | apply keeps_ret; exact _
    | apply keeps_raise; exact _
    | apply same_menu_io
    | apply same_menu_set_self; by intros [] ].

Lemma legacy_start_monitoring_same_menu :
  keeps same_menu file_copier_monitor.start_monitoring.
Proof.
  unfold file_copier_monitor.start_monitoring.
  apply keeps_bind_get_self. intros self.
  apply keeps_bind; [exact _ | | intros there].
  { destruct (current_source_dir self); [apply same_menu_io | apply keeps_raise; exact _]. }
  unfold print_monitoring_started. repeat same_menu_step.
Qed.

Lemma legacy_choice_same_menu (choice : string) :
  keeps same_menu
    (if String.eqb choice "1" then file_copier_monitor.change_source_folder
     else if String.eqb choice "2" then file_copier_monitor.stop
     else ret tt).
Proof.
  apply keeps_if; [| apply keeps_if; [| apply keeps_ret; exact _]].
  - unfold file_copier_monitor.change_source_folder.
    apply keeps_bind_get_self. intros self.
    apply keeps_bind; [exact _ | | intros _].
    { destruct (observer_of self); repeat same_menu_step. }
    apply keeps_bind; [exact _ | apply same_menu_io | intros folder].
    apply keeps_bind; [exact _ | apply same_menu_set_self; by intros [] | intros _].
    apply legacy_start_monitoring_same_menu.
  - unfold file_copier_monitor.stop.
    apply keeps_bind; [exact _ | apply same_menu_set_self; by intros [] | intros _].
    apply keeps_bind_get_self. intros self.
    destruct (observer_of self); repeat same_menu_step.
Qed.

(** X20. In the older version [show_menu] has no [finally]: when the
    interaction ends with an exception (from the input or from the chosen
    action), [menu_active] stays true, and from then on every call of
    [show_menu] returns at once without showing the menu. *)
Theorem legacy_menu_stays_closed_after_exception :
  forall (self : FileMonitor) (w : World) (e : exn) (s' : FileMonitor * World),
    menu_active self = false ->
    file_copier_monitor.show_menu (self, w) = (Raise e, s') ->
    menu_active s'.1 = true /\
    forall w2, file_copier_monitor.show_menu (s'.1, w2) = (Return tt, (s'.1, w2)).
Proof.
  intros self w e s' Hm H.
  assert (Htrue : menu_active s'.1 = true); last first.
  { split; [done |]. intros w2. unfold file_copier_monitor.show_menu.
    unfold bind at 1, get_self. cbn [fst snd]. by rewrite Htrue. }
  unfold file_copier_monitor.show_menu in H.
  unfold bind at 1, get_self in H. cbn [fst snd] in H. rewrite Hm in H.
  unfold bind at 1, set_self in H. cbn [fst snd] in H.
  rewrite (bind_eq_Return _ _ _ _ _ (print_menu_run _ w)) in H.
  set (w1 := set_trace _ w) in H. clearbody w1.
  apply bind_inv in H as [(line & s2 & H2 & H) | [(e2 & H2 & [= <-]) | (_ & [=])]];
    apply io_inv in H2 as (w2 & H2 & ->); [| done].
  cbn zeta in H.
  apply bind_inv in H as [([] & s3 & H3 & H) | [(e3 & H3 & [= <-]) | (_ & [=])]].
  - done.
  - pose proof (legacy_choice_same_menu (strip line)
                  (set_menu_active true self, w2)) as Hk.
    rewrite H3 in Hk. exact Hk.
Qed.

(** The input is at its end when the older menu asks for the choice. *)
Definition example_legacy_menu : outcome unit * (FileMonitor * World) :=
  file_copier_monitor.show_menu (example_monitor, example_world).

Lemma legacy_menu_stays_closed_after_exception_witness :
  menu_active example_legacy_menu.2.1 = true /\
  forall w2,
    file_copier_monitor.show_menu (example_legacy_menu.2.1, w2)
    = (Return tt, (example_legacy_menu.2.1, w2)).
Proof.
  apply (legacy_menu_stays_closed_after_exception example_monitor example_world
           EOFError example_legacy_menu.2).
  - reflexivity.
  - apply outcome_eq. reflexivity.
Defined.

(** * File names and paths *)

(** ** sanitize_filename *)

Example sanitize_examples :
  utils.sanitize_filename "a/b:c.png" = "a_b_c.png" /\
  utils.sanitize_filename " ..report. " = "report" /\
  utils.sanitize_filename "../x" = "_x" /\
  utils.sanitize_filename ". ." = "unnamed_file".
Proof. split_and!; reflexivity. Qed.

(** *** Facts about the string functions *)

(** The characters of a string. *)
Fixpoint chars_of (s : string) : list ascii :=
  match s with
  | EmptyString => []
  | String c rest => c :: chars_of rest
  end.

Definition first_char (s : string) : option ascii := head (chars_of s).
Definition last_char (s : string) : option ascii := List.last (Some <$> chars_of s) None.

Lemma last_char_cons c s :
  last_char (String c s) = match s with
                           | EmptyString => Some c
                           | _ => last_char s
                           end.
Proof. by destruct s. Qed.

Section StripFacts.

Variable chars : ascii -> bool.

Lemma lstrip_chars_first s c :
  first_char (lstrip_chars chars s) = Some c -> chars c = false.
Proof.
  induction s as [| a s IH]; [done |]. cbn [lstrip_chars].
  destruct (chars a) eqn:Ha; [done |]. cbn. by intros [= <-].
Qed.

Lemma rstrip_chars_last s c :
  last_char (rstrip_chars chars s) = Some c -> chars c = false.
Proof.
  induction s as [| a s IH]; [done |]. cbn [rstrip_chars].
  destruct (rstrip_chars chars s) as [| b kept] eqn:Hk.
  - destruct (chars a) eqn:Ha; [done |]. cbn. by intros [= <-].
  - rewrite last_char_cons. done.
Qed.

Lemma lstrip_chars_last s c :
  last_char (lstrip_chars chars s) = Some c -> last_char s = Some c.
Proof.
  induction s as [| a s IH]; [done |]. cbn [lstrip_chars].
  destruct (chars a); [| done]. intros H. rewrite last_char_cons.
  destruct s; [done |]. by apply IH.
Qed.

Lemma strip_chars_ends s :
  (forall c, first_char (strip_chars chars s) = Some c -> chars c = false) /\
  (forall c, last_char (strip_chars chars s) = Some c -> chars c = false).
Proof.
  unfold strip_chars. split; intros c H.
  - by eapply lstrip_chars_first.
  - eapply rstrip_chars_last, lstrip_chars_last. exact H.
Qed.

Lemma lstrip_chars_sub s c :
  c ∈ chars_of (lstrip_chars chars s) -> c ∈ chars_of s.
Proof.
  induction s as [| a s IH]; [done |]. cbn [lstrip_chars].
  destruct (chars a); [| done]. intros H. cbn. apply elem_of_cons. right. by apply IH.
Qed.

Lemma rstrip_chars_sub s c :
  c ∈ chars_of (rstrip_chars chars s) -> c ∈ chars_of s.
Proof.
  induction s as [| a s IH]; [done |]. cbn [rstrip_chars].
  destruct (rstrip_chars chars s) as [| b kept] eqn:Hk.
  - destruct (chars a); [by intros ?%elem_of_nil |]. cbn. intros H.
    apply elem_of_cons. apply list_elem_of_singleton in H. by left.
  - cbn. intros [-> | H]%elem_of_cons; apply elem_of_cons; [by left |].
    right. by apply IH.
Qed.

Lemma strip_chars_sub s c :
  c ∈ chars_of (strip_chars chars s) -> c ∈ chars_of s.
Proof. intros H. by apply rstrip_chars_sub, lstrip_chars_sub. Qed.

(** A string that neither begins nor ends with a character of the set is
    left as it is. *)
Lemma lstrip_chars_id s :
  (forall c, first_char s = Some c -> chars c = false) -> lstrip_chars chars s = s.
Proof.
  destruct s as [| a s]; [done |]. intros H. cbn. by rewrite (H a).
Qed.

Lemma rstrip_chars_id s :
  (forall c, last_char s = Some c -> chars c = false) -> rstrip_chars chars s = s.
Proof.
  induction s as [| a s IH]; [done |]. intros H. cbn [rstrip_chars].
  destruct s as [| b s'].
  - cbn. by rewrite (H a).
  - rewrite IH; [done |]. intros c Hc. apply H. by rewrite last_char_cons.
Qed.

Lemma strip_chars_id s :
  (forall c, first_char s = Some c -> chars c = false) ->
  (forall c, last_char s = Some c -> chars c = false) ->
  strip_chars chars s = s.
Proof.
  intros Hf Hl. unfold strip_chars. rewrite rstrip_chars_id by done.
  by apply lstrip_chars_id.
Qed.

End StripFacts.

Lemma re_sub_class_chars cls repl s c :
  c ∈ chars_of (re_sub_class cls repl s) -> c = repl \/ (c ∈ chars_of s /\ cls c = false).
Proof.
  induction s as [| a s IH]; [by intros ?%elem_of_nil |]. cbn.
  intros [-> | H]%elem_of_cons.
  - destruct (cls a) eqn:Ha; [by left |]. right. split; [apply elem_of_cons; by left | done].
  - destruct (IH H) as [-> | [Hin Hc]]; [by left |].
    right. split; [apply elem_of_cons; by right | done].
Qed.

Lemma re_sub_class_id cls repl s :
  (forall c, c ∈ chars_of s -> cls c = false) -> re_sub_class cls repl s = s.
Proof.
  induction s as [| a s IH]; [done |]. intros H. cbn.
  rewrite (H a) by (apply elem_of_cons; by left).
  rewrite IH; [done |]. intros c Hc. apply H. apply elem_of_cons. by right.
Qed.

(** A file name that needs no change. *)
Definition clean_name (s : string) : Prop :=
  s <> "" /\
  (forall c, c ∈ chars_of s -> utils.invalid_chars c = false) /\
  (forall c, first_char s = Some c -> utils.dot_or_space c = false) /\
  (forall c, last_char s = Some c -> utils.dot_or_space c = false).

Lemma eqb_empty s : String.eqb s "" = true <-> s = "".
Proof. apply String.eqb_eq. Qed.

Lemma sanitized_is_clean (filename : string) :
  clean_name (utils.sanitize_filename filename).
Proof.
  unfold utils.sanitize_filename. cbn zeta.
  set (t := strip_chars utils.dot_or_space
              (re_sub_class utils.invalid_chars "_" filename)).
  destruct (String.eqb t "") eqn:He.
  - split_and!; [done | | by intros c [= <-] | by intros c [= <-]].
    intros c Hc. cbn in Hc.
    repeat (apply elem_of_cons in Hc as [-> | Hc]; [done |]).
    by apply elem_of_nil in Hc.
  - split_and!.
    + intros Ht. apply eqb_empty in Ht. congruence.
    + intros c Hc. apply strip_chars_sub, re_sub_class_chars in Hc as [-> | [_ Hc]];
        done.
    + apply strip_chars_ends.
    + apply strip_chars_ends.
Qed.

Lemma clean_name_unchanged (s : string) :
  clean_name s -> utils.sanitize_filename s = s.
Proof.
  intros (Hne & Hc & Hf & Hl). unfold utils.sanitize_filename. cbn zeta.
  rewrite re_sub_class_id by done. rewrite strip_chars_id by done.
  destruct (String.eqb s "") eqn:He; [| done].
  by apply eqb_empty in He.
Qed.

(** X21. [sanitize_filename] always returns a usable name: it is never empty,
    it has none of the characters of the class (less-than, greater-than,
    colon, double quote, slash, backslash, vertical bar, question mark,
    asterisk), and it neither begins nor ends with a dot or a space. *)
Theorem sanitize_filename_is_clean :
  forall (filename : string),
    utils.sanitize_filename filename <> "" /\
    (forall c, c ∈ chars_of (utils.sanitize_filename filename) ->
               utils.invalid_chars c = false) /\
    (forall c, first_char (utils.sanitize_filename filename) = Some c ->
               utils.dot_or_space c = false) /\
    (forall c, last_char (utils.sanitize_filename filename) = Some c ->
               utils.dot_or_space c = false).
Proof. intros filename. apply sanitized_is_clean. Qed.

(** X22. A name that is not empty, has no character of the class and neither
    begins nor ends with a dot or a space is returned as it is; hence
    sanitizing twice gives what sanitizing once gives. *)
Theorem sanitize_filename_keeps_clean_names :
  (forall s,
     s <> "" ->
     (forall c, c ∈ chars_of s -> utils.invalid_chars c = false) ->
     (forall c, first_char s = Some c -> utils.dot_or_space c = false) ->
     (forall c, last_char s = Some c -> utils.dot_or_space c = false) ->
     utils.sanitize_filename s = s) /\
  (forall filename,
     utils.sanitize_filename (utils.sanitize_filename filename)
     = utils.sanitize_filename filename).
Proof.
  split.
  - intros s Hne Hc Hf Hl. by apply clean_name_unchanged.
  - intros filename. apply clean_name_unchanged, sanitized_is_clean.
Qed.

(** ** is_path_accessible *)

(** X23. [is_path_accessible] answers False for every regular file, whatever
    its permissions: the check of the permissions refers to the module [os],
    which utils.py does not import, so a NameError is raised, caught by the
    function itself and logged.  Nothing else changes. *)
Theorem is_path_accessible_rejects_every_file :
  forall (p : path) (w : World) (f : file),
    files w !! p = Some f -> dir_exists w p = false ->
    utils.is_path_accessible p w
    = (Return false,
       emitted (LogError "Error checking path accessibility: name 'os' is not defined") w).
Proof.
  intros p w f Hf Hd. unfold utils.is_path_accessible.
  unfold utils.is_path_accessible_try.
  unfold bind at 1, path_exists. unfold is_file at 1. rewrite Hf.
  rewrite bool_decide_eq_true_2 by by eexists. cbn [orb].
  unfold bind at 1, path_is_dir. rewrite Hd. cbn [negb].
  unfold bind at 1, path_is_file. unfold is_file. rewrite Hf.
  rewrite bool_decide_eq_true_2 by by eexists. reflexivity.
Qed.

Lemma is_path_accessible_rejects_every_file_witness :
  utils.is_path_accessible example_png example_world
  = (Return false,
     emitted (LogError "Error checking path accessibility: name 'os' is not defined")
       example_world).
Proof.
  apply (is_path_accessible_rejects_every_file example_png example_world example_file).
  - exact example_world_file.
  - reflexivity.
Defined.

Lemma path_touch_quiet p w :
  faults w = [] -> dir_exists w (parent p) = true -> dir_exists w p = false ->
  exists f,
    path_touch p w = (Return tt, set_files (<[p := f]> (files w)) (pop_fault w)).
Proof.
  intros Hq Hpar Hd. unfold path_touch. rewrite syscall_quiet by done.
  change (files (pop_fault w)) with (files w).
  change (dir_exists (pop_fault w) p) with (dir_exists w p).
  change (dir_exists (pop_fault w) (parent p)) with (dir_exists w (parent p)).
  destruct (files w !! p) as [f |]; [by eexists |].
  rewrite Hd, Hpar. by eexists.
Qed.

(** X24. Probing changes what it probes.  When no system call fails:
    on a directory, [is_path_accessible] answers True and leaves no file
    [.test_access] in it, also when there was one before; on a path where
    there is nothing, it creates the directory with all its parents and
    answers True.  Every other file is left as it was. *)
Theorem is_path_accessible_changes_the_path :
  forall (p : path) (w : World),
    faults w = [] ->
    (dir_exists w p = true -> files w !! p = None ->
     dir_exists w (joinpath p ".test_access") = false ->
     exists w',
       utils.is_path_accessible p w = (Return true, w') /\
       files w' = delete (joinpath p ".test_access") (files w) /\
       dirs w' = dirs w) /\
    (dir_exists w p = false -> files w !! p = None -> mkdir_free w p ->
     exists w',
       utils.is_path_accessible p w = (Return true, w') /\
       files w' = files w /\
       dirs w' = dirs w ∪ list_to_set (ancestors p)).
Proof.
  intros p w Hq. split.
  - intros Hd Hf Ht. unfold utils.is_path_accessible.
    unfold utils.is_path_accessible_try.
    unfold bind at 1, path_exists. rewrite Hd, orb_true_r.
    unfold bind at 1, path_is_dir. rewrite Hd. cbn [negb]. cbn zeta.
    destruct (path_touch_quiet (joinpath p ".test_access") w Hq) as [f H1];
      [by rewrite parent_joinpath | done |].
    rewrite (bind_eq_Return _ _ _ _ _ H1).
    set (w1 := set_files _ _).
    assert (H2 : path_unlink (joinpath p ".test_access") w1
                 = (Return tt,
                    set_files (delete (joinpath p ".test_access") (files w1))
                      (pop_fault w1))).
    { unfold path_unlink. rewrite syscall_quiet by (cbn; by rewrite Hq).
      cbn. by rewrite lookup_insert_eq. }
    rewrite (bind_eq_Return _ _ _ _ _ H2). cbn.
    eexists. split; [done |]. cbn. split; [| done].
    by rewrite delete_insert_eq.
  - intros Hd Hf Hfree. unfold utils.is_path_accessible.
    unfold utils.is_path_accessible_try.
    unfold bind at 1, path_exists. unfold is_file. rewrite Hf, Hd.
    rewrite bool_decide_eq_false_2 by by intros [? ?]. cbn [orb].
    rewrite (bind_eq_Return _ _ _ _ _ (path_mkdir_quiet p w Hq Hfree)).
    cbn. by eexists.
Qed.

Lemma is_path_accessible_changes_the_path_witness :
  (dir_exists example_world ["output"] = true ->
   files example_world !! ["output"] = None ->
   dir_exists example_world (joinpath ["output"] ".test_access") = false ->
   exists w',
     utils.is_path_accessible ["output"] example_world = (Return true, w') /\
     files w' = delete (joinpath ["output"] ".test_access") (files example_world) /\
     dirs w' = dirs example_world) /\
  (dir_exists example_world ["output"] = false ->
   files example_world !! ["output"] = None -> mkdir_free example_world ["output"] ->
   exists w',
     utils.is_path_accessible ["output"] example_world = (Return true, w') /\
     files w' = files example_world /\
     dirs w' = dirs example_world ∪ list_to_set (ancestors ["output"])).
Proof.
  apply (is_path_accessible_changes_the_path ["output"] example_world). reflexivity.
Defined.

(** * The configuration *)

Example default_config_is_valid : config.validate_config config.DEFAULT_CONFIG = None.
Proof. reflexivity. Qed.

(** X25. [validate_config] accepts a configuration exactly when both
    [base_source_dir] and [destination_dir] are present with string values
    (other entries do not matter).  Otherwise it raises ConfigurationError
    and never fails on a lookup: when a parameter is missing the message
    lists the missing ones, in the order base_source_dir, destination_dir,
    and says nothing about types; when both are present it names the first
    of the two that is not a string. *)
Theorem validate_config_accepts_two_strings :
  forall (cfg : gmap string json),
    (config.validate_config cfg = None <->
     exists s d, cfg !! "base_source_dir" = Some (JString s) /\
                 cfg !! "destination_dir" = Some (JString d)) /\
    (forall e, config.validate_config cfg = Some e ->
       exists msg, e = config.ConfigurationError msg) /\
    (cfg !! "base_source_dir" = None \/ cfg !! "destination_dir" = None ->
     exists missing,
       config.validate_config cfg
       = Some (config.ConfigurationError
                 ("Missing required parameters: " +:+ String.concat ", " missing)) /\
       missing = match cfg !! "base_source_dir" with
                 | Some _ => []
                 | None => ["base_source_dir"]
                 end
                 ++ match cfg !! "destination_dir" with
                    | Some _ => []
                    | None => ["destination_dir"]
                    end) /\
    (forall b d, cfg !! "base_source_dir" = Some b -> cfg !! "destination_dir" = Some d ->
       is_str b && is_str d = false ->
       config.validate_config cfg
       = Some (config.ConfigurationError
                 ("Parameter '"
                  +:+ (if is_str b then "destination_dir" else "base_source_dir")
                  +:+ "' must be a string"))).
Proof.
  intros cfg. unfold config.validate_config, config.required_params. cbn zeta.
  cbn [List.filter].
  destruct (cfg !! "base_source_dir") as [b |] eqn:Hb;
    destruct (cfg !! "destination_dir") as [d |] eqn:Hd.
  - rewrite !bool_decide_eq_true_2 by by eexists. cbn [negb].
    cbn [config.check_strings]. rewrite Hb, Hd.
    split_and!.
    + destruct b, d; cbn; (split; [| by intros (? & ? & [=] & [=])]); try done.
      intros _. by eexists _, _.
    + destruct b, d; cbn; intros e [= <-]; by eexists.
    + by intros [[=] | [=]].
    + intros b' d' [= <-] [= <-] Hs. destruct (is_str b); [| done].
      cbn in Hs. by rewrite Hs.
  - rewrite bool_decide_eq_true_2 by by eexists.
    rewrite bool_decide_eq_false_2 by by intros [? ?]. cbn [negb].
    split_and!; [| intros e [= <-]; by eexists | intros _; by eexists | done].
    split; [done | by intros (? & ? & _ & [=])].
  - rewrite bool_decide_eq_false_2 by by intros [? ?].
    rewrite bool_decide_eq_true_2 by by eexists. cbn [negb].
    split_and!; [| intros e [= <-]; by eexists | intros _; by eexists | done].
    split; [done | by intros (? & ? & [=] & _)].
  - rewrite !bool_decide_eq_false_2 by by intros [? ?]. cbn [negb].
    split_and!; [| intros e [= <-]; by eexists | intros _; by eexists | done].
    split; [done | by intros (? & ? & [=] & _)].
Qed.

(** * Undivided deliveries *)

Section InterleavingExact.

Import Interleaving.

(** Every path of the set is held by a delivery, and no delivery has failed
    to remove its path. *)
Record marks_exact (st : state) : Prop := mkExact {
  set_is_held : forall p, p ∈ shared_set st ->
    exists i t, threads st !! i = Some t /\ t_path t = p /\ holding t;
  none_raised : forall i t, threads st !! i = Some t -> t_pc t <> RaisedKeyError
}.

Lemma deliveries_exact ps : marks_exact (deliveries ps).
Proof.
  split; [by intros p Hp |].
  intros i t Hi. cbn in Hi. apply list_lookup_fmap_Some_1 in Hi as (p & -> & _). done.
Qed.

Lemma lookup_updated (ts : list thread) i t t' :
  ts !! i = Some t -> <[i := t']> ts !! i = Some t'.
Proof. intros Hi. apply list_lookup_insert_eq. by eapply lookup_lt_Some. Qed.

(** Thread [i] moves on and the set becomes [S']: what has to be checked. *)
Lemma update_exact st i t t' S' :
  marks_exact st ->
  threads st !! i = Some t ->
  t_pc t' <> RaisedKeyError ->
  (forall p, p ∈ S' ->
     (p ∈ shared_set st /\ (t_path t = p -> holding t -> t_path t' = p /\ holding t')) \/
     (t_path t' = p /\ holding t')) ->
  marks_exact (mkState S' (<[i := t']> (threads st))).
Proof.
  intros [Hheld Hnone] Hi Hpc HS. split; cbn.
  - intros p Hp. destruct (HS p Hp) as [[Hold Hsame] | [Hnew Hh]].
    + destruct (Hheld p Hold) as (k & tk & Hk & Hpk & Hhk).
      destruct (decide (k = i)) as [-> | Hne].
      * rewrite Hi in Hk. injection Hk as <-. destruct (Hsame Hpk Hhk) as [? ?].
        exists i, t'. by rewrite (lookup_updated _ _ _ _ Hi).
      * exists k, tk. by rewrite list_lookup_insert_ne.
    + exists i, t'. by rewrite (lookup_updated _ _ _ _ Hi).
  - intros k tk Hk.
    apply (lookup_update _ _ _ _ _ _ Hi) in Hk as [[-> ->] | [Hne Hk]]; eauto.
Qed.

Lemma step_exact i st :
  marks_consistent st -> marks_exact st -> marks_exact (step i st).
Proof.
  intros Hc He. unfold step.
  destruct (threads st !! i) as [t |] eqn:Hi; [| done].
  destruct (t_pc t) eqn:Hpc.
  - case_bool_decide; apply (update_exact st i t _ _ He Hi); cbn; try done;
      intros p Hp; left; (split; [done |]); intros _ [? | ?]; congruence.
  - apply (update_exact st i t _ _ He Hi); cbn; [done |].
    intros p [Hp | ->%elem_of_singleton]%elem_of_union.
    + left. split; [done |]. intros _ [? | ?]; congruence.
    + right. split; [done | by left].
  - apply (update_exact st i t _ _ He Hi); cbn; [done |].
    intros p Hp. left. split; [done |]. intros Hpt _. split; [done | by right].
  - assert (Hheld : holding t) by by right.
    case_bool_decide as Hmem; [| by destruct Hmem; eapply (held_in_set _ Hc)].
    apply (update_exact st i t _ _ He Hi); cbn; [done |].
    intros p [Hp Hne]%elem_of_difference. left. split; [done |].
    intros Hpt _. destruct Hne. by apply elem_of_singleton.
  - done.
  - done.
Qed.

Lemma run_exact sched : forall st,
  marks_consistent st -> marks_exact st -> undivided sched st ->
  marks_exact (run sched st).
Proof.
  induction sched as [| i sched IH]; intros st Hc He Hu; [done |].
  destruct Hu as [Hturn Hu]. cbn. apply IH; [| by apply step_exact | done].
  apply step_consistent; [done |]. intros j Hj. by rewrite Hj in Hturn.
Qed.

End InterleavingExact.

(** X26. When the deliveries are not divided between the membership test and
    the insertion, the set of the handler is exact at every moment: a path
    is in it if and only if some delivery has inserted it and not yet
    removed it, and no delivery ever fails with KeyError at its removal. *)
Theorem undivided_deliveries_keep_the_set_exact :
  forall (ps : list path) (sched : list nat),
    Interleaving.undivided sched (Interleaving.deliveries ps) ->
    (forall p,
       p ∈ Interleaving.shared_set (Interleaving.run sched (Interleaving.deliveries ps))
       <-> exists i t,
             Interleaving.threads (Interleaving.run sched (Interleaving.deliveries ps)) !! i
             = Some t /\
             Interleaving.t_path t = p /\
             (Interleaving.t_pc t = Interleaving.AtCopy \/
              Interleaving.t_pc t = Interleaving.AtRemove)) /\
    (forall i t,
       Interleaving.threads (Interleaving.run sched (Interleaving.deliveries ps)) !! i
       = Some t ->
       Interleaving.t_pc t <> Interleaving.RaisedKeyError).
Proof.
  intros ps sched Hu.
  pose proof (run_consistent sched _ (deliveries_consistent ps) Hu) as Hc.
  pose proof (run_exact sched _ (deliveries_consistent ps) (deliveries_exact ps) Hu)
    as [Hheld Hnone].
  split; [| done].
  intros p. split; [apply Hheld |].
  intros (i & t & Hi & <- & Hh). by eapply (held_in_set _ Hc).
Qed.

Lemma undivided_deliveries_keep_the_set_exact_witness :
  (forall p,
     p ∈ Interleaving.shared_set
           (Interleaving.run [0; 0; 1; 0; 0] (Interleaving.deliveries [ ["a"]; ["a"] ]))
     <-> exists i t,
           Interleaving.threads
             (Interleaving.run [0; 0; 1; 0; 0] (Interleaving.deliveries [ ["a"]; ["a"] ])) !! i
           = Some t /\
           Interleaving.t_path t = p /\
           (Interleaving.t_pc t = Interleaving.AtCopy \/
            Interleaving.t_pc t = Interleaving.AtRemove)) /\
  (forall i t,
     Interleaving.threads
       (Interleaving.run [0; 0; 1; 0; 0] (Interleaving.deliveries [ ["a"]; ["a"] ])) !! i
     = Some t ->
     Interleaving.t_pc t <> Interleaving.RaisedKeyError).
Proof.
  apply (undivided_deliveries_keep_the_set_exact [ ["a"]; ["a"] ] [0; 0; 1; 0; 0]).
  cbn [Interleaving.undivided]. repeat split; reflexivity.
Defined.

(** Divided deliveries of one path: both insert it, the first removes it,
    and the removal of the second raises KeyError. *)
Example divided_deliveries_raise_KeyError :
  Interleaving.threads
    (Interleaving.run [0; 1; 0; 1; 0; 1; 0; 1]
       (Interleaving.deliveries [ ["a"]; ["a"] ]))
  = [Interleaving.mkThread ["a"] Interleaving.Returned;
     Interleaving.mkThread ["a"] Interleaving.RaisedKeyError].
Proof. reflexivity. Qed.
